(** * Session management core of the six web framework

    A shallow embedding of [src/core/six_sessions.h], of the part of
    [src/core/six_sql.h] it calls, of [src/core/six_login.h] and of
    [redirect] of [src/core/six_http_utils.h], followed by the properties of
    the specification that were checked against it and by further
    properties of the code.

    Conventions.
    - [std::string] is [string] (a list of 8-bit characters, NUL included),
      [vector<unsigned char>] is [list ascii].
    - [std::map] and [std::unordered_map] are [gmap]s.
    - Global variables are the fields of one record, [World]; every function
      of the source is a computation in the state-and-exception monad [M].
    - What lives outside the repository (OpenSSL's block cipher, Argon2, the
      C library's date formatting, the SQL interpreter behind a raw
      [sqlite3_exec]) is the interface [Primitives].
    - The database is a map from the names of its tables to their rows, a
      row a map from the columns that were written to their text.  The
      column declarations of [setup_sessions_in_database] are not part of
      it: a row read back holds the columns that were written and no NULL
      for the others, and a statement is not refused for naming a column
      that was not declared.  The statements of six_sessions.h name
      declared columns only.
    - Text sent to [cerr] and [cout] is not modelled. *)

From Stdlib Require Import ZArith String Ascii List Lia Bool.
From stdpp Require Import base option list gmap strings pretty sorting.

Local Open Scope string_scope.
Local Open Scope list_scope.
Local Open Scope Z_scope.

(** ** External primitives *)

Class Primitives := {
  (** AES-256 on one 16-byte block: key, block. *)
  AES_encrypt : list ascii → list ascii → list ascii;
  AES_decrypt : list ascii → list ascii → list ascii;
  (** [argon2id_hash_raw t_cost m_cost parallelism pwd salt hashlen]: the
      return code and the bytes written to the output buffer. *)
  argon2id_hash_raw : N → N → N → list ascii → list ascii → nat → Z * list ascii;
  argon2_error_message : Z → string;
  (** [strftime "%Y-%m-%d %H:%M:%S"] of [gmtime] of a [time_t]. *)
  strftime_utc : Z → string;
  (** The effect of a raw SQL statement on the tables of the database. *)
  sqlite3_exec : string → gmap string (list (gmap string string)) → gmap string (list (gmap string string))
}.

(** ** Bytes and hexadecimal text *)

Module Hex.

Definition digit (n : N) : ascii :=
  match n with
  | 0%N => "0" | 1%N => "1" | 2%N => "2" | 3%N => "3"
  | 4%N => "4" | 5%N => "5" | 6%N => "6" | 7%N => "7"
  | 8%N => "8" | 9%N => "9" | 10%N => "a" | 11%N => "b"
  | 12%N => "c" | 13%N => "d" | 14%N => "e" | _ => "f"
  end%char.

(** [ss << hex << setw(2) << setfill('0') << (int)b] *)
Definition of_byte (b : ascii) : string :=
  String (digit (N_of_ascii b / 16)) (String (digit (N_of_ascii b mod 16)) EmptyString).

(** The loop [for (i = 0; i < n; i++) ss << ... buffer[i]]. *)
Fixpoint encode (l : list ascii) : string :=
  match l with
  | [] => EmptyString
  | b :: l' => of_byte b +:+ encode l'
  end.

Definition isspace (c : ascii) : bool :=
  let n := N_of_ascii c in
  (n =? 32)%N || ((9 <=? n)%N && (n <=? 13)%N).

Definition digit_val (c : ascii) : option Z :=
  let n := Z.of_N (N_of_ascii c) in
  if (48 <=? n) && (n <=? 57) then Some (n - 48)
  else if (97 <=? n) && (n <=? 102) then Some (n - 87)
  else if (65 <=? n) && (n <=? 70) then Some (n - 55)
  else None.

Fixpoint skip_space (s : string) : string :=
  match s with
  | String c s' => if isspace c then skip_space s' else s
  | EmptyString => s
  end.

Fixpoint digits (acc : Z) (s : string) : Z :=
  match s with
  | String c s' =>
      match digit_val c with
      | Some d => digits (16 * acc + d) s'
      | None => acc
      end
  | EmptyString => acc
  end.

Definition LONG_MAX : Z := 2 ^ 63 - 1.
Definition LONG_MIN : Z := - 2 ^ 63.

(** [strtol(s, nullptr, 16)]: white space, an optional sign, an optional
    [0x] in front of a digit, then as many hexadecimal digits as there are;
    the result is clamped to the range of [long]. *)
Definition strtol16 (s : string) : Z :=
  let s1 := skip_space s in
  let '(neg, s2) :=
    match s1 with
    | String "-" r => (true, r)
    | String "+" r => (false, r)
    | _ => (false, s1)
    end in
  let s3 :=
    match s2 with
    | String "0" (String x (String d r)) =>
        if (Ascii.eqb x "x" || Ascii.eqb x "X") && bool_decide (is_Some (digit_val d))
        then String d r else s2
    | _ => s2
    end in
  let v := digits 0 s3 in
  let v := if neg then - v else v in
  Z.max LONG_MIN (Z.min LONG_MAX v).

(** [(unsigned char) z] *)
Definition to_uchar (z : Z) : ascii := ascii_of_N (Z.to_N (z mod 256)).

(** The loop
    [for (i = 0; i < hex.length(); i += 2) out[i / 2] = (unsigned char) strtol(hex.substr(i, 2), 0, 16)]
    over a vector of [hex.length() / 2] bytes.  The function stands for
    the loop on texts of even length; on a text of odd length the last
    round of the loop writes one slot past the end of the vector, which has
    no defined behaviour, and the function gives the bytes before it. *)
Fixpoint decode (s : string) : list ascii :=
  match s with
  | String c1 (String c2 s') =>
      to_uchar (strtol16 (String c1 (String c2 EmptyString))) :: decode s'
  | _ => []
  end.

End Hex.

(** ** The EVP cipher interface, for AES-256 in CBC mode with PKCS#7 padding

    The byte counts that the EVP calls take and return as [int] are the
    lengths of the lists. *)

Module EVP.

Definition block_size : nat := 16.

Definition xor_ascii (a b : ascii) : ascii :=
  match a, b with
  | Ascii a0 a1 a2 a3 a4 a5 a6 a7, Ascii b0 b1 b2 b3 b4 b5 b6 b7 =>
      Ascii (xorb a0 b0) (xorb a1 b1) (xorb a2 b2) (xorb a3 b3)
            (xorb a4 b4) (xorb a5 b5) (xorb a6 b6) (xorb a7 b7)
  end.

Definition xor_block (x y : list ascii) : list ascii := zip_with xor_ascii x y.

(** The first [n] whole blocks of [l]. *)
Fixpoint blocks (n : nat) (l : list ascii) : list (list ascii) :=
  match n with
  | O => []
  | S n' => take block_size l :: blocks n' (drop block_size l)
  end.

Record CIPHER_CTX := {
  ctx_key : list ascii;
  ctx_iv : list ascii;            (* the chaining value *)
  ctx_buf : list ascii;           (* input not yet forming a whole block *)
  ctx_final : option (list ascii) (* decryption: the block held back *)
}.

Definition Init_ex (key iv : list ascii) : CIPHER_CTX :=
  {| ctx_key := key; ctx_iv := iv; ctx_buf := []; ctx_final := None |}.

Section cipher.
Context `{Primitives}.

Fixpoint cbc_encrypt (key prev : list ascii) (bs : list (list ascii)) : list (list ascii) :=
  match bs with
  | [] => []
  | b :: bs' =>
      let c := AES_encrypt key (xor_block b prev) in
      c :: cbc_encrypt key c bs'
  end.

Fixpoint cbc_decrypt (key prev : list ascii) (cs : list (list ascii)) : list (list ascii) :=
  match cs with
  | [] => []
  | c :: cs' => xor_block (AES_decrypt key c) prev :: cbc_decrypt key c cs'
  end.

(** [EVP_EncryptUpdate]: encrypts the whole blocks available, keeps the rest. *)
Definition EncryptUpdate (ctx : CIPHER_CTX) (input : list ascii) : CIPHER_CTX * list ascii :=
  let data := ctx_buf ctx ++ input in
  let n := (length data / block_size)%nat in
  let out := cbc_encrypt (ctx_key ctx) (ctx_iv ctx) (blocks n data) in
  ({| ctx_key := ctx_key ctx;
      ctx_iv := List.last out (ctx_iv ctx);
      ctx_buf := drop (n * block_size) data;
      ctx_final := None |},
   concat out).

(** [EVP_EncryptFinal_ex]: pads what is kept to a whole block and encrypts it. *)
Definition EncryptFinal_ex (ctx : CIPHER_CTX) : list ascii :=
  let k := (block_size - length (ctx_buf ctx))%nat in
  AES_encrypt (ctx_key ctx) (xor_block (ctx_buf ctx ++ replicate k (ascii_of_nat k)) (ctx_iv ctx)).

(** [EVP_DecryptUpdate]: decrypts the whole blocks available; when the input
    ends on a block boundary the last decrypted block is held back for
    [EVP_DecryptFinal_ex]. *)
Definition DecryptUpdate (ctx : CIPHER_CTX) (input : list ascii) : CIPHER_CTX * list ascii :=
  match input with
  | [] => (ctx, [])
  | _ =>
      let data := ctx_buf ctx ++ input in
      let n := (length data / block_size)%nat in
      let cs := blocks n data in
      let out := from_option (λ b, [b]) [] (ctx_final ctx) ++ cbc_decrypt (ctx_key ctx) (ctx_iv ctx) cs in
      let rest := drop (n * block_size) data in
      let iv' := List.last cs (ctx_iv ctx) in
      match rest with
      | [] =>
          ({| ctx_key := ctx_key ctx; ctx_iv := iv'; ctx_buf := [];
              ctx_final := List.last (Some <$> out) None |},
           concat (removelast out))
      | _ =>
          ({| ctx_key := ctx_key ctx; ctx_iv := iv'; ctx_buf := rest; ctx_final := None |},
           concat out)
      end
  end.

(** [EVP_DecryptFinal_ex]: fails when input is left over, when no block was
    held back or when the padding of the held block is malformed; a failed
    call delivers no bytes. *)
Definition DecryptFinal_ex (ctx : CIPHER_CTX) : list ascii :=
  match ctx_buf ctx, ctx_final ctx with
  | [], Some b =>
      let k := N.to_nat (N_of_ascii (List.last b zero)) in
      if bool_decide (1 ≤ k ≤ block_size ∧ length b = block_size
                      ∧ drop (block_size - k) b = replicate k (List.last b zero))%nat
      then take (block_size - k) b
      else []
  | _, _ => []
  end.

End cipher.
End EVP.

(** ** SessionEncryption *)

Module SessionEncryption.

Definition MASTER_KEY : list ascii :=
  ascii_of_nat <$> seq 0 32.

Definition MASTER_IV : list ascii :=
  ascii_of_nat <$> seq 0 16.

Section with_primitives.
Context `{Primitives}.

Definition encrypt_session_data (plaintext : string) : string :=
  let ctx := EVP.Init_ex MASTER_KEY MASTER_IV in
  let '(ctx, out1) := EVP.EncryptUpdate ctx (list_ascii_of_string plaintext) in
  let out2 := EVP.EncryptFinal_ex ctx in
  Hex.encode (out1 ++ out2).

Definition decrypt_session_data (ciphertext_hex : string) : string :=
  let ciphertext := Hex.decode ciphertext_hex in
  let ctx := EVP.Init_ex MASTER_KEY MASTER_IV in
  let '(ctx, out1) := EVP.DecryptUpdate ctx ciphertext in
  let out2 := EVP.DecryptFinal_ex ctx in
  string_of_list_ascii (out1 ++ out2).

End with_primitives.
End SessionEncryption.

(** ** Data *)

Record Session := {
  session_id : string;
  session_id_hash : string;
  user_id : Z;
  data : string;
  created_at : string;
  updated_at : string;
  expires_at : string;
  last_activity : string;
  ip_address : string;
  user_agent : string;
  session_salt : string;
  refresh_token : string;
  refresh_token_hash : string;
  refresh_expires_at : string;
  exists_ : bool;          (* the field [exists] *)
  is_valid : bool;
  created_ip : string;
  last_activity_ip : string
}.

(** [Session s;] and [return {};]: the default member initialisers. *)
Definition Session_default : Session :=
  {| session_id := EmptyString; session_id_hash := EmptyString; user_id := 0; data := "{}";
     created_at := EmptyString; updated_at := EmptyString; expires_at := EmptyString; last_activity := EmptyString;
     ip_address := EmptyString; user_agent := EmptyString; session_salt := EmptyString;
     refresh_token := EmptyString; refresh_token_hash := EmptyString; refresh_expires_at := EmptyString;
     exists_ := false; is_valid := true;
     created_ip := EmptyString; last_activity_ip := EmptyString |}.

(** [SessionAuditLog]; its field [id] is never assigned or read. *)
Module SessionAuditLog.
Record t := {
  session_id : string;
  user_id : Z;
  action : string;
  ip_address : string;
  user_agent : string;
  timestamp : string;
  details : string
}.
End SessionAuditLog.

Record RateLimitEntry := {
  attempts : Z;
  reset_time : Z
}.

Definition RateLimitEntry_default : RateLimitEntry := {| attempts := 0; reset_time := 0 |}.

(** [class SQLRow : public map<string, string>] with its metadata. *)
Record SQLRow := {
  columns : gmap string string;
  table_name : string;
  where_column : string;
  where_value : string
}.

(** [SQLRowRef]: a pointer to an entry of [pending_updates], given by its
    key, or the null pointer. *)
Definition SQLRowRef := option string.

(** The statements that are run on the database file: those that were
    prepared and stepped, and the texts handed to [sqlite3_exec]. *)
Inductive Statement :=
  | SqlInsert (table : string) (row : gmap string string)
  | SqlSelect (table column value : string)
  | SqlUpdate (table : string) (assignments : gmap string string) (column value : string)
  | SqlExec (sql : string).

(** [sqlite3_exec(db, "PRAGMA optimize;", ...)], which ends [six_sql_insert]
    and [six_sql_commit].  It changes no row of any table, so that the
    journal is all that records it. *)
Definition PRAGMA_optimize : Statement := SqlExec "PRAGMA optimize;".

Module http_response.
Record t := {
  status : Z;
  contentType : string;
  body : string;
  location : string;
  headers : gmap string string
}.
End http_response.

Module CurrentUser.
Record t := {
  is_authenticated : bool;
  id : Z;
  data : gmap string string;
  session_id : string;
  ip_address : string;
  user_agent : string;
  refresh_token : string
}.

Definition initial : t :=
  {| is_authenticated := false; id := 0; data := ∅; session_id := EmptyString;
     ip_address := EmptyString; user_agent := EmptyString; refresh_token := EmptyString |}.

(** [string get(const string& key) const] *)
Definition get (u : t) (key : string) : string :=
  match data u !! key with
  | Some v => v
  | None => EmptyString
  end.
End CurrentUser.

(** ** The state of the process and of its environment *)

Record World := {
  (** the readings the system clock will give, and how many were taken *)
  clock : nat → Z;
  ticks : nat;
  (** the bytes the entropy source will still deliver *)
  entropy : list ascii;
  (** whether [sqlite3_open] succeeds *)
  db_online : bool;
  (** the database file: its tables, and the statements that were run on it *)
  tables : gmap string (list (gmap string string));
  journal : list Statement;
  (** [pending_updates] of six_sql.h *)
  pending_updates : gmap string SQLRow;
  (** [RateLimiter::ip_attempts] *)
  ip_attempts : gmap string RateLimitEntry;
  (** [SessionAuditLogger::log_queue], oldest entry first *)
  log_queue : list SessionAuditLog.t;
  (** [session_cache] *)
  session_cache : gmap string Session;
  (** [current_user] and the response [g_current_response] points to *)
  current_user : CurrentUser.t;
  g_current_response : option http_response.t
}.

Definition set_ticks (n : nat) (w : World) : World :=
  {| clock := clock w; ticks := n; entropy := entropy w; db_online := db_online w;
     tables := tables w; journal := journal w; pending_updates := pending_updates w;
     ip_attempts := ip_attempts w; log_queue := log_queue w;
     session_cache := session_cache w; current_user := current_user w;
     g_current_response := g_current_response w |}.

Definition set_entropy (e : list ascii) (w : World) : World :=
  {| clock := clock w; ticks := ticks w; entropy := e; db_online := db_online w;
     tables := tables w; journal := journal w; pending_updates := pending_updates w;
     ip_attempts := ip_attempts w; log_queue := log_queue w;
     session_cache := session_cache w; current_user := current_user w;
     g_current_response := g_current_response w |}.

Definition set_tables (t : gmap string (list (gmap string string))) (w : World) : World :=
  {| clock := clock w; ticks := ticks w; entropy := entropy w; db_online := db_online w;
     tables := t; journal := journal w; pending_updates := pending_updates w;
     ip_attempts := ip_attempts w; log_queue := log_queue w;
     session_cache := session_cache w; current_user := current_user w;
     g_current_response := g_current_response w |}.

Definition set_journal (j : list Statement) (w : World) : World :=
  {| clock := clock w; ticks := ticks w; entropy := entropy w; db_online := db_online w;
     tables := tables w; journal := j; pending_updates := pending_updates w;
     ip_attempts := ip_attempts w; log_queue := log_queue w;
     session_cache := session_cache w; current_user := current_user w;
     g_current_response := g_current_response w |}.

Definition set_pending_updates (p : gmap string SQLRow) (w : World) : World :=
  {| clock := clock w; ticks := ticks w; entropy := entropy w; db_online := db_online w;
     tables := tables w; journal := journal w; pending_updates := p;
     ip_attempts := ip_attempts w; log_queue := log_queue w;
     session_cache := session_cache w; current_user := current_user w;
     g_current_response := g_current_response w |}.

Definition set_ip_attempts (a : gmap string RateLimitEntry) (w : World) : World :=
  {| clock := clock w; ticks := ticks w; entropy := entropy w; db_online := db_online w;
     tables := tables w; journal := journal w; pending_updates := pending_updates w;
     ip_attempts := a; log_queue := log_queue w;
     session_cache := session_cache w; current_user := current_user w;
     g_current_response := g_current_response w |}.

Definition set_log_queue (q : list SessionAuditLog.t) (w : World) : World :=
  {| clock := clock w; ticks := ticks w; entropy := entropy w; db_online := db_online w;
     tables := tables w; journal := journal w; pending_updates := pending_updates w;
     ip_attempts := ip_attempts w; log_queue := q;
     session_cache := session_cache w; current_user := current_user w;
     g_current_response := g_current_response w |}.

Definition set_session_cache (c : gmap string Session) (w : World) : World :=
  {| clock := clock w; ticks := ticks w; entropy := entropy w; db_online := db_online w;
     tables := tables w; journal := journal w; pending_updates := pending_updates w;
     ip_attempts := ip_attempts w; log_queue := log_queue w;
     session_cache := c; current_user := current_user w;
     g_current_response := g_current_response w |}.

Definition set_g_current_response (r : option http_response.t) (w : World) : World :=
  {| clock := clock w; ticks := ticks w; entropy := entropy w; db_online := db_online w;
     tables := tables w; journal := journal w; pending_updates := pending_updates w;
     ip_attempts := ip_attempts w; log_queue := log_queue w;
     session_cache := session_cache w; current_user := current_user w;
     g_current_response := r |}.

(** ** Computations that change the world and may throw *)

Inductive Result (A : Type) :=
  | Ok (a : A)
  | Throw (what : string).
Arguments Ok {A} a.
Arguments Throw {A} what.

Definition M (A : Type) : Type := World → Result A * World.

#[global] Instance M_ret : MRet M := λ A a w, (Ok a, w).

#[global] Instance M_bind : MBind M := λ A B f m w,
  match m w with
  | (Ok a, w') => f a w'
  | (Throw e, w') => (Throw e, w')
  end.

Definition throw {A} (what : string) : M A := λ w, (Throw what, w).

(** [try { body } catch (...) { handler }] *)
Definition try_catch {A} (body : M A) (handler : M A) : M A := λ w,
  match body w with
  | (Ok a, w') => (Ok a, w')
  | (Throw _, w') => handler w'
  end.

Definition gets {A} (f : World → A) : M A := λ w, (Ok (f w), w).
Definition modify (f : World → World) : M unit := λ w, (Ok tt, f w).

(** [time(nullptr)], and [system_clock::to_time_t(system_clock::now())] *)
Definition time_now : M Z := λ w, (Ok (clock w (ticks w)), set_ticks (S (ticks w)) w).

(** [RAND_bytes(buffer, n)]: [None] when it returns 0. *)
Definition RAND_bytes (n : nat) : M (option (list ascii)) := λ w,
  if decide (n ≤ length (entropy w))%nat
  then (Ok (Some (take n (entropy w))), set_entropy (drop n (entropy w)) w)
  else (Ok None, w).

(** What a [const char*] made by [c_str()] shows of a string. *)
Fixpoint c_str (s : string) : string :=
  match s with
  | String c s' => if Ascii.eqb c zero then EmptyString else String c (c_str s')
  | EmptyString => EmptyString
  end.

(** [std::to_string(int)] *)
Definition to_string (z : Z) : string := pretty z.

Definition INT_MAX : Z := 2 ^ 31 - 1.
Definition INT_MIN : Z := - 2 ^ 31.

(** The value of an [int] after an arithmetic step, on two's complement. *)
Definition to_int (z : Z) : Z := (z + 2 ^ 31) mod 2 ^ 32 - 2 ^ 31.

Fixpoint decimal_digits (acc : Z) (s : string) : Z :=
  match s with
  | String c s' =>
      let n := Z.of_N (N_of_ascii c) in
      if (48 <=? n) && (n <=? 57) then decimal_digits (10 * acc + (n - 48)) s' else acc
  | EmptyString => acc
  end.

(** [std::stoi(s)]: white space, an optional sign, decimal digits; throws
    [invalid_argument] without a digit and [out_of_range] outside [int]. *)
Definition stoi (s : string) : M Z :=
  let s1 := Hex.skip_space s in
  let '(neg, s2) :=
    match s1 with
    | String "-" r => (true, r)
    | String "+" r => (false, r)
    | _ => (false, s1)
    end in
  match s2 with
  | String c _ =>
      let n := Z.of_N (N_of_ascii c) in
      if (48 <=? n) && (n <=? 57) then
        let v := decimal_digits 0 s2 in
        let v := if neg then - v else v in
        if (INT_MIN <=? v) && (v <=? INT_MAX) then mret v else throw "stoi"
      else throw "stoi"
  | EmptyString => throw "stoi"
  end.

(** ** six_sql.h: the row store *)

Definition row_matches (column value : string) (r : gmap string string) : Prop :=
  r !! column = Some value.

#[global] Instance row_matches_dec column value r : Decision (row_matches column value r).
Proof. unfold row_matches. apply _. Defined.

(** The first row a [SELECT * FROM table WHERE column=?] steps to. *)
Definition select_first (column value : string) (rows : list (gmap string string))
  : option (gmap string string) :=
  List.find (λ r, bool_decide (row_matches column value r)) rows.

Definition pending_key (table column value : string) : string :=
  table +:+ ":" +:+ column +:+ ":" +:+ value.

(** [six_sql_insert]: the values are bound as C strings; the statement is
    followed by [PRAGMA optimize] once it was prepared. *)
Definition six_sql_insert (table : string) (data : gmap string string) : M unit := λ w,
  if negb (db_online w) then (Ok tt, w)
  else match tables w !! table with
       | None => (Ok tt, w)                           (* prepare fails *)
       | Some rows =>
           if decide (data = ∅) then (Ok tt, w)       (* prepare fails *)
           else
             let stored := c_str <$> data in
             (Ok tt, set_journal (journal w ++ [SqlInsert table stored; PRAGMA_optimize])
                       (set_tables (<[table := rows ++ [stored]]> (tables w)) w))
       end.

(** [six_sql_find_by]: a row that is found is staged in [pending_updates];
    the reference returned points to the staged row of this key, also when
    it was staged by an earlier call. *)
Definition six_sql_find_by (table column value : string) : M SQLRowRef := λ w,
  if negb (db_online w) then (Ok None, w)
  else match tables w !! table with
       | None => (Ok None, w)                         (* prepare fails *)
       | Some rows =>
           let value := c_str value in
           let key := pending_key table column value in
           let w := set_journal (journal w ++ [SqlSelect table column value]) w in
           let w' :=
             match select_first column value rows with
             | Some r =>
                 set_pending_updates
                   (<[key := {| columns := r; table_name := table;
                                where_column := column; where_value := value |}]>
                      (pending_updates w)) w
             | None => w
             end in
           (Ok (if decide (is_Some (pending_updates w' !! key)) then Some key else None), w')
       end.

(** [SQLRowRef::operator bool] *)
Definition row_bool (row : SQLRowRef) : M bool := λ w,
  (Ok match row with
      | Some key =>
          match pending_updates w !! key with
          | Some r => bool_decide (columns r ≠ ∅)
          | None => false
          end
      | None => false
      end, w).

(** Reading [row[key]] through the non-const [operator[]]: a column the
    staged row does not have is added to it with the empty string. *)
Definition row_get (row : SQLRowRef) (col : string) : M string := λ w,
  match row with
  | Some key =>
      match pending_updates w !! key with
      | Some r =>
          match columns r !! col with
          | Some v => (Ok v, w)
          | None =>
              (Ok EmptyString, set_pending_updates
                        (<[key := {| columns := <[col := EmptyString]> (columns r);
                                     table_name := table_name r;
                                     where_column := where_column r;
                                     where_value := where_value r |}]>
                           (pending_updates w)) w)
          end
      | None => (Ok EmptyString, w)
      end
  | None => (Ok EmptyString, w)
  end.

(** The assignment [row[key] = value]. *)
Definition row_set (row : SQLRowRef) (col value : string) : M unit := λ w,
  match row with
  | Some key =>
      match pending_updates w !! key with
      | Some r =>
          (Ok tt, set_pending_updates
                    (<[key := {| columns := <[col := value]> (columns r);
                                 table_name := table_name r;
                                 where_column := where_column r;
                                 where_value := where_value r |}]>
                       (pending_updates w)) w)
      | None => (Ok tt, w)
      end
  | None => (Ok tt, w)
  end.

(** The columns of a staged row whose value is not the one in the database:
    [if (db_row[pair.first] != pair.second)]. *)
Definition changed_columns (row db_row : gmap string string) : gmap string string :=
  filter (λ cv, default EmptyString (db_row !! cv.1) ≠ cv.2) row.

(** One round of the loop of [six_sql_commit]: the columns of the staged row
    that differ from the row in the database are written to every row the
    WHERE clause selects. *)
Definition commit_row (row : SQLRow) (w : World) : World :=
  match tables w !! table_name row with
  | None => w                                         (* prepare fails *)
  | Some rows =>
      let w := set_journal (journal w ++ [SqlSelect (table_name row) (where_column row)
                                            (where_value row)]) w in
      let db_row := default ∅ (select_first (where_column row) (where_value row) rows) in
      let changed := changed_columns (columns row) db_row in
      if decide (changed = ∅) then w
      else
        let assignments := c_str <$> changed in
        let rows' :=
          (λ r, if decide (row_matches (where_column row) (where_value row) r)
                then assignments ∪ r else r) <$> rows in
        set_journal (journal w ++ [SqlUpdate (table_name row) assignments
                                     (where_column row) (where_value row)])
          (set_tables (<[table_name row := rows']> (tables w)) w)
  end.

Definition key_le (x y : string * SQLRow) : Prop := String.leb x.1 y.1.

#[global] Instance key_le_dec x y : Decision (key_le x y).
Proof. unfold key_le. apply _. Defined.

(** [six_sql_commit]: the staged rows are visited in the order of their
    keys; [PRAGMA optimize] ends the call. *)
Definition six_sql_commit : M unit := λ w,
  if negb (db_online w) then (Ok tt, w)
  else
    let staged := merge_sort key_le (map_to_list (pending_updates w)) in
    let w := foldl (λ w kr, commit_row kr.2 w) w staged in
    (Ok tt, set_pending_updates ∅ (set_journal (journal w ++ [PRAGMA_optimize]) w)).

Definition six_sql_clear_pending : M unit :=
  modify (set_pending_updates ∅).

Section six_sql_exec.
Context `{Primitives}.

(** [six_sql_exec] *)
Definition six_sql_exec (sql : string) : M unit := λ w,
  if negb (db_online w) then (Ok tt, w)
  else (Ok tt, set_journal (journal w ++ [SqlExec (c_str sql)])
                 (set_tables (sqlite3_exec (c_str sql) (tables w)) w)).

End six_sql_exec.

(** ** six_sessions.h *)

Module SaltGenerator.

Definition generate_random_salt (length : nat) : M string :=
  buffer ← RAND_bytes length;
  match buffer with
  | None => throw "Failed to generate salt"
  | Some buffer => mret (Hex.encode buffer)
  end.

Definition get_unique_salt : M string := generate_random_salt 16.

End SaltGenerator.

Module SecureSessionHash.
Section with_primitives.
Context `{Primitives}.

Definition t_cost : N := 1.
Definition m_cost : N := 32768.
Definition parallelism : N := 1.
Definition ARGON2_OK : Z := 0.

(** The 32-byte vector [hash] after the call: what Argon2 wrote, on zeros. *)
Definition hash_buffer (written : list ascii) : list ascii :=
  take 32 (written ++ replicate 32 zero).

Definition hash_with_salt (data salt : string) : M string :=
  let salt_bytes := Hex.decode salt in
  let '(result, written) :=
    argon2id_hash_raw t_cost m_cost parallelism (list_ascii_of_string data) salt_bytes 32 in
  if decide (result ≠ ARGON2_OK)
  then throw ("Argon2 hashing failed: " +:+ argon2_error_message result)
  else mret (Hex.encode (hash_buffer written)).

End with_primitives.
End SecureSessionHash.

Module RateLimiter.

Definition MAX_ATTEMPTS : Z := 5.
Definition LOCKOUT_DURATION : Z := 15 * 60.
Definition RESET_WINDOW : Z := 60.

(** [auto& entry = ip_attempts[ip_address]] *)
Definition entry_of (ip_address : string) (w : World) : RateLimitEntry :=
  default RateLimitEntry_default (ip_attempts w !! ip_address).

(** [if (now > entry.reset_time) { entry.attempts = 0; entry.reset_time = now + RESET_WINDOW; }] *)
Definition roll_window (now : Z) (entry : RateLimitEntry) : RateLimitEntry :=
  if now >? reset_time entry
  then {| attempts := 0; reset_time := now + RESET_WINDOW |}
  else entry.

Definition is_rate_limited (ip_address : string) : M bool :=
  entry ← gets (entry_of ip_address);
  now ← time_now;
  let entry := roll_window now entry in
  modify (λ w, set_ip_attempts (<[ip_address := entry]> (ip_attempts w)) w);;
  if attempts entry >=? MAX_ATTEMPTS then mret true else mret false.

Definition record_failed_attempt (ip_address : string) : M unit :=
  entry ← gets (entry_of ip_address);
  now ← time_now;
  let entry := roll_window now entry in
  let entry := {| attempts := to_int (attempts entry + 1); reset_time := reset_time entry |} in
  modify (λ w, set_ip_attempts (<[ip_address := entry]> (ip_attempts w)) w).

Definition clear_failed_attempts (ip_address : string) : M unit :=
  entry ← gets (entry_of ip_address);
  let entry := {| attempts := 0; reset_time := reset_time entry |} in
  modify (λ w, set_ip_attempts (<[ip_address := entry]> (ip_attempts w)) w).

End RateLimiter.

Module SessionAuditLogger.

Definition audit_row (log : SessionAuditLog.t) : gmap string string :=
  <["session_id" := SessionAuditLog.session_id log]>
  (<["user_id" := to_string (SessionAuditLog.user_id log)]>
  (<["action" := SessionAuditLog.action log]>
  (<["ip_address" := SessionAuditLog.ip_address log]>
  (<["user_agent" := SessionAuditLog.user_agent log]>
  (<["timestamp" := SessionAuditLog.timestamp log]>
  (<["details" := SessionAuditLog.details log]> ∅)))))).

Definition write_audit_log_to_db (log : SessionAuditLog.t) : M unit :=
  let row := audit_row log in
  try_catch (six_sql_insert "session_audit_log" row) (mret tt).

Section with_primitives.
Context `{Primitives}.

Definition log_session_event (session_id : string) (user_id : Z)
    (action ip_address user_agent details : string) : M unit :=
  t ← time_now;
  let buf := strftime_utc t in
  let log :=
    {| SessionAuditLog.session_id := session_id;
       SessionAuditLog.user_id := user_id;
       SessionAuditLog.action := action;
       SessionAuditLog.ip_address := ip_address;
       SessionAuditLog.user_agent := user_agent;
       SessionAuditLog.timestamp := buf;
       SessionAuditLog.details := details |} in
  modify (λ w, set_log_queue (log_queue w ++ [log]) w);;
  write_audit_log_to_db log.

Definition detect_hijack_attempt (session_id new_ip : string) : M unit :=
  log_session_event session_id 0 "hijack_attempt" new_ip EmptyString
    "Session accessed from different IP".

End with_primitives.
End SessionAuditLogger.

Section sessions.
Context `{Primitives}.

Definition generate_secure_random_bytes (length : nat) : M string :=
  buffer ← RAND_bytes length;
  match buffer with
  | None => throw "Failed to generate random bytes"
  | Some buffer => mret (Hex.encode buffer)
  end.

Definition generate_session_id : M string := generate_secure_random_bytes 32.

Definition timestamp_now : M string :=
  t ← time_now;
  mret (strftime_utc t).

(** [system_clock::now() + chrono::hours(hours)], cut to seconds by
    [to_time_t].  The sum is that of the seconds read, which is what the
    64-bit tick count of [system_clock] gives as long as it does not
    overflow. *)
Definition timestamp_plus_hours (hours : Z) : M string :=
  now ← time_now;
  mret (strftime_utc (now + 3600 * hours)).

Definition timestamp_plus_days (days : Z) : M string :=
  timestamp_plus_hours (days * 24).

(** [a > b] on [std::string]: the order of the bytes. *)
Definition string_gt (a b : string) : bool := String.ltb b a.

(** The row [create_session] hands to [six_sql_insert]. *)
Definition session_row (s : Session) (encrypted_data : string) : gmap string string :=
  <["session_id_hash" := session_id_hash s]>
  (<["session_salt" := session_salt s]>
  (<["user_id" := to_string (user_id s)]>
  (<["data_encrypted" := encrypted_data]>
  (<["created_at" := created_at s]>
  (<["updated_at" := updated_at s]>
  (<["expires_at" := expires_at s]>
  (<["ip_address" := ip_address s]>
  (<["user_agent" := user_agent s]>
  (<["created_ip" := ip_address s]>
  (<["last_activity" := last_activity s]>
  (<["last_activity_ip" := ip_address s]>
  (<["refresh_token_hash" := refresh_token_hash s]>
  (<["refresh_expires_at" := refresh_expires_at s]>
  (<["is_valid" := "1"]> ∅)))))))))))))).

Definition create_session (user_id : Z) (ip_address user_agent : string) : M Session :=
  limited ← RateLimiter.is_rate_limited ip_address;
  if limited : bool then throw "Too many login attempts. Try again later."
  else
    sid ← generate_session_id;
    salt ← SaltGenerator.get_unique_salt;
    sid_hash ← SecureSessionHash.hash_with_salt sid salt;
    created ← timestamp_now;
    expires ← timestamp_plus_hours 1;
    refresh ← generate_secure_random_bytes 32;
    refresh_salt ← SaltGenerator.get_unique_salt;
    refresh_hash ← SecureSessionHash.hash_with_salt refresh refresh_salt;
    refresh_expires ← timestamp_plus_days 30;
    let s :=
      {| session_id := sid; session_id_hash := sid_hash; user_id := user_id;
         data := "{}";
         created_at := created; updated_at := created; expires_at := expires;
         last_activity := created;
         ip_address := ip_address; user_agent := user_agent; session_salt := salt;
         refresh_token := refresh; refresh_token_hash := refresh_hash;
         refresh_expires_at := refresh_expires;
         exists_ := true; is_valid := true;
         created_ip := ip_address; last_activity_ip := ip_address |} in
    modify (λ w, set_session_cache (<[sid := s]> (session_cache w)) w);;
    let encrypted_data := SessionEncryption.encrypt_session_data (data s) in
    let row := session_row s encrypted_data in
    try_catch (six_sql_insert "sessions" row) (mret tt);;
    SessionAuditLogger.log_session_event sid user_id "create" ip_address user_agent
      "New session created";;
    RateLimiter.clear_failed_attempts ip_address;;
    mret s.

(** The second half of [load_session]: the session is not in the cache. *)
Definition load_session_from_db (id current_ip current_user_agent : string) : M Session :=
  session_salt ← SaltGenerator.get_unique_salt;
  session_hash ← SecureSessionHash.hash_with_salt id session_salt;
  row ← six_sql_find_by "sessions" "session_id_hash" session_hash;
  found ← row_bool row;
  if negb found then mret Session_default
  else
    r_hash ← row_get row "session_id_hash";
    r_salt ← row_get row "session_salt";
    r_user ← row_get row "user_id";
    uid ← stoi r_user;
    r_data ← row_get row "data_encrypted";
    s_data ← try_catch (mret (SessionEncryption.decrypt_session_data r_data)) (mret "{}");
    r_created ← row_get row "created_at";
    r_updated ← row_get row "updated_at";
    r_expires ← row_get row "expires_at";
    r_ip ← row_get row "ip_address";
    r_agent ← row_get row "user_agent";
    r_created_ip ← row_get row "created_ip";
    r_activity ← row_get row "last_activity";
    r_activity_ip ← row_get row "last_activity_ip";
    r_refresh_hash ← row_get row "refresh_token_hash";
    r_refresh_expires ← row_get row "refresh_expires_at";
    r_valid ← row_get row "is_valid";
    if bool_decide (r_ip ≠ current_ip) || bool_decide (r_agent ≠ current_user_agent) then
      SessionAuditLogger.detect_hijack_attempt id current_ip;;
      mret Session_default
    else
      now ← timestamp_now;
      if string_gt now r_expires then mret Session_default
      else
        let s :=
          {| session_id := id; session_id_hash := r_hash; user_id := uid;
             data := s_data;
             created_at := r_created; updated_at := r_updated; expires_at := r_expires;
             last_activity := now;
             ip_address := r_ip; user_agent := r_agent; session_salt := r_salt;
             refresh_token := EmptyString; refresh_token_hash := r_refresh_hash;
             refresh_expires_at := r_refresh_expires;
             exists_ := true; is_valid := bool_decide (r_valid = "1");
             created_ip := r_created_ip; last_activity_ip := current_ip |} in
        modify (λ w, set_session_cache (<[id := s]> (session_cache w)) w);;
        SessionAuditLogger.log_session_event id uid "load" current_ip current_user_agent
          EmptyString;;
        mret s.

Definition load_session (id current_ip current_user_agent : string) : M Session :=
  cached ← gets (λ w, session_cache w !! id);
  match cached with
  | Some s =>
      if bool_decide (ip_address s ≠ current_ip) then
        SessionAuditLogger.detect_hijack_attempt id current_ip;;
        mret Session_default
      else if bool_decide (user_agent s ≠ current_user_agent) then
        SessionAuditLogger.detect_hijack_attempt id current_ip;;
        mret Session_default
      else
        now ← timestamp_now;
        if string_gt now (expires_at s) then
          modify (λ w, set_session_cache (delete id (session_cache w)) w);;
          mret Session_default
        else mret s
  | None => load_session_from_db id current_ip current_user_agent
  end.

Definition refresh_session (session_id refresh_token current_ip current_user_agent : string)
  : M Session :=
  s ← load_session session_id current_ip current_user_agent;
  if negb (exists_ s) then
    RateLimiter.record_failed_attempt current_ip;;
    throw "Invalid session"
  else
    refresh_salt ← SaltGenerator.get_unique_salt;
    refresh_hash ← SecureSessionHash.hash_with_salt refresh_token refresh_salt;
    if bool_decide (refresh_hash ≠ refresh_token_hash s) then
      RateLimiter.record_failed_attempt current_ip;;
      throw "Invalid refresh token"
    else
      now ← timestamp_now;
      if string_gt now (refresh_expires_at s) then throw "Refresh token expired"
      else
        new_session ← create_session (user_id s) current_ip current_user_agent;
        SessionAuditLogger.log_session_event session_id (user_id s) "refresh"
          current_ip current_user_agent "Session refreshed with new ID";;
        mret new_session.

Definition save_session (s : Session) : M unit :=
  modify (λ w, set_session_cache (<[session_id s := s]> (session_cache w)) w);;
  let encrypted_data := SessionEncryption.encrypt_session_data (data s) in
  row ← six_sql_find_by "sessions" "session_id_hash" (session_id_hash s);
  found ← row_bool row;
  if negb found then mret tt
  else
    row_set row "user_id" (to_string (user_id s));;
    row_set row "data_encrypted" encrypted_data;;
    updated ← timestamp_now;
    row_set row "updated_at" updated;;
    activity ← timestamp_now;
    row_set row "last_activity" activity;;
    row_set row "is_valid" (if is_valid s then "1" else "0");;
    six_sql_commit.

Definition destroy_session (id : string) : M unit :=
  cached ← gets (λ w, session_cache w !! id);
  let s := default Session_default cached in
  modify (λ w, set_session_cache (delete id (session_cache w)) w);;
  try_catch
    (row ← six_sql_find_by "sessions" "session_id_hash" (session_id_hash s);
     found ← row_bool row;
     if found : bool then
       row_set row "is_valid" "0";;
       six_sql_commit;;
       SessionAuditLogger.log_session_event id (user_id s) "logout" EmptyString EmptyString
         "Session destroyed - user logged out"
     else mret tt)
    (mret tt).

Definition revoke_all_user_sessions (uid : Z) (reason : string) : M unit :=
  modify (λ w, set_session_cache (filter (λ kv, user_id kv.2 ≠ uid) (session_cache w)) w);;
  try_catch
    (let sql := "UPDATE sessions SET is_valid = 0 WHERE user_id = " +:+ to_string uid in
     six_sql_exec sql)
    (mret tt);;
  SessionAuditLogger.log_session_event EmptyString uid "revoke_all" EmptyString EmptyString
    ("All sessions revoked: " +:+ reason).

End sessions.

(** ** six_login.h: the authorization guards *)

Definition quote : ascii := ascii_of_nat 34.

(** The text [{"error": "..."}]. *)
Definition error_body (message : string) : string :=
  "{" +:+ String quote "error" +:+ String quote ": " +:+ String quote message
      +:+ String quote "}".

(** The three assignments to [*g_current_response] of a failing guard. *)
Definition respond_error (code : Z) (message : string) (r : http_response.t) : http_response.t :=
  {| http_response.status := code;
     http_response.contentType := http_response.contentType r;
     http_response.body := error_body message;
     http_response.location := http_response.location r;
     http_response.headers :=
       <["Content-Type" := "application/json"]> (http_response.headers r) |}.

Definition require_auth : M bool :=
  user ← gets current_user;
  if negb (CurrentUser.is_authenticated user) then
    modify (λ w, set_g_current_response (respond_error 401 "Unauthorized" <$> g_current_response w) w);;
    mret false
  else mret true.

Definition require_admin : M bool :=
  user ← gets current_user;
  if negb (CurrentUser.is_authenticated user) then
    modify (λ w, set_g_current_response (respond_error 401 "Unauthorized" <$> g_current_response w) w);;
    mret false
  else
    let role := CurrentUser.get user "role" in
    if bool_decide (role ≠ "admin") then
      modify (λ w, set_g_current_response (respond_error 403 "Forbidden" <$> g_current_response w) w);;
      mret false
    else mret true.

Definition is_login_rate_limited (ip_address : string) : M bool :=
  RateLimiter.is_rate_limited ip_address.

Definition record_failed_login (ip_address : string) : M unit :=
  RateLimiter.record_failed_attempt ip_address.

(** ** six_sql.h: reading without staging *)

(** [six_sql_find_by_readonly]: the first row the SELECT steps to, or the
    empty row; nothing is staged. *)
Definition six_sql_find_by_readonly (table column value : string) : M (gmap string string) := λ w,
  if negb (db_online w) then (Ok ∅, w)
  else match tables w !! table with
       | None => (Ok ∅, w)                            (* prepare fails *)
       | Some rows =>
           let value := c_str value in
           (Ok (default ∅ (select_first column value rows)),
            set_journal (journal w ++ [SqlSelect table column value]) w)
       end.

(** The columns a range-for over a [SQLRowRef] visits. *)
Definition row_columns (row : SQLRowRef) : M (gmap string string) :=
  gets (λ w, match row with
             | Some key =>
                 match pending_updates w !! key with
                 | Some r => columns r
                 | None => ∅
                 end
             | None => ∅
             end).

(** ** six_http_server.h: the request *)

Module http_request.
Record t := {
  method : string;
  path : string;
  headers : gmap string string;
  body : string;
  raw : string;
  remote_addr : string;
  forms : gmap string string;     (* [FormData::data] *)
  params : gmap string string
}.
End http_request.

(** [s.find(needle, pos)], with [None] for [npos]. *)
Definition find (s needle : string) (pos : nat) : option nat := String.index pos needle s.

(** [s.substr(pos, n)], for [pos <= s.length()]. *)
Definition substr (s : string) (pos n : nat) : string := String.substring pos n s.

(** ** six_login.h: what a request says about its sender *)

Definition get_client_ip_from_request (req : http_request.t) : string :=
  match http_request.headers req !! "X-Forwarded-For" with
  | Some ips =>
      match find ips "," 0 with
      | Some comma => substr ips 0 comma
      | None => ips
      end
  | None =>
      match http_request.headers req !! "X-Real-IP" with
      | Some ip => ip
      | None => "127.0.0.1"
      end
  end.

Definition get_user_agent_from_request (req : http_request.t) : string :=
  match http_request.headers req !! "User-Agent" with
  | Some agent => agent
  | None => "Unknown"
  end.

Definition get_session_id_from_request (req : http_request.t) : string :=
  match http_request.headers req !! "Cookie" with
  | None => EmptyString
  | Some cookies =>
      match find cookies "session_id=" 0 with
      | None => EmptyString
      | Some pos =>
          let pos := (pos + 11)%nat in
          let end_ := default (String.length cookies) (find cookies ";" pos) in
          substr cookies pos (end_ - pos)
      end
  end.

Definition get_refresh_token_from_request (req : http_request.t) : string :=
  match http_request.headers req !! "Cookie" with
  | None => EmptyString
  | Some cookies =>
      match find cookies "refresh_token=" 0 with
      | None => EmptyString
      | Some pos =>
          let pos := (pos + 14)%nat in
          let end_ := default (String.length cookies) (find cookies ";" pos) in
          substr cookies pos (end_ - pos)
      end
  end.

(** ** six_login.h: the current user *)

Definition set_current_user (u : CurrentUser.t) (w : World) : World :=
  {| clock := clock w; ticks := ticks w; entropy := entropy w; db_online := db_online w;
     tables := tables w; journal := journal w; pending_updates := pending_updates w;
     ip_attempts := ip_attempts w; log_queue := log_queue w;
     session_cache := session_cache w; current_user := u;
     g_current_response := g_current_response w |}.

(** An assignment to members of [current_user]. *)
Definition update_current_user (f : CurrentUser.t → CurrentUser.t) : M unit :=
  modify (λ w, set_current_user (f (current_user w)) w).

(** The assignment [g_current_response->headers[key] = value], where the
    pointer is not null. *)
Definition set_header (key value : string) : M unit :=
  modify (λ w,
    set_g_current_response
      ((λ r, {| http_response.status := http_response.status r;
                http_response.contentType := http_response.contentType r;
                http_response.body := http_response.body r;
                http_response.location := http_response.location r;
                http_response.headers := <[key := value]> (http_response.headers r) |})
         <$> g_current_response w) w).

(** [CurrentUser::operator map<string, string>] *)
Definition CurrentUser_to_map (u : CurrentUser.t) : gmap string string :=
  <["user_id" := to_string (CurrentUser.id u)]>
  (<["is_authenticated" := if CurrentUser.is_authenticated u then "true" else "false"]>
     (CurrentUser.data u)).

(** [CurrentUser::clear] *)
Definition CurrentUser_clear : M unit :=
  update_current_user (λ _,
    {| CurrentUser.is_authenticated := false; CurrentUser.id := 0; CurrentUser.data := ∅;
       CurrentUser.session_id := EmptyString; CurrentUser.ip_address := EmptyString;
       CurrentUser.user_agent := EmptyString; CurrentUser.refresh_token := EmptyString |}).

Section login.
Context `{Primitives}.

(** [CurrentUser::load_from_request], on the global [current_user]. *)
Definition CurrentUser_load_from_request (req : http_request.t) : M unit :=
  update_current_user (λ u,
    {| CurrentUser.is_authenticated := false; CurrentUser.id := 0; CurrentUser.data := ∅;
       CurrentUser.session_id := EmptyString;
       CurrentUser.ip_address := CurrentUser.ip_address u;
       CurrentUser.user_agent := CurrentUser.user_agent u;
       CurrentUser.refresh_token := EmptyString |});;
  let session_id := get_session_id_from_request req in
  update_current_user (λ u,
    {| CurrentUser.is_authenticated := CurrentUser.is_authenticated u;
       CurrentUser.id := CurrentUser.id u; CurrentUser.data := CurrentUser.data u;
       CurrentUser.session_id := session_id;
       CurrentUser.ip_address := CurrentUser.ip_address u;
       CurrentUser.user_agent := CurrentUser.user_agent u;
       CurrentUser.refresh_token := CurrentUser.refresh_token u |});;
  if bool_decide (session_id = EmptyString) then mret tt
  else
    let ip_address := get_client_ip_from_request req in
    let user_agent := get_user_agent_from_request req in
    let refresh_token := get_refresh_token_from_request req in
    update_current_user (λ u,
      {| CurrentUser.is_authenticated := CurrentUser.is_authenticated u;
         CurrentUser.id := CurrentUser.id u; CurrentUser.data := CurrentUser.data u;
         CurrentUser.session_id := CurrentUser.session_id u;
         CurrentUser.ip_address := ip_address;
         CurrentUser.user_agent := user_agent;
         CurrentUser.refresh_token := refresh_token |});;
    try_catch
      (session ← load_session session_id ip_address user_agent;
       if negb (exists_ session) || negb (is_valid session) || bool_decide (user_id session = 0)
       then mret tt
       else
         user ← six_sql_find_by_readonly "users" "id" (to_string (user_id session));
         if bool_decide (user = ∅) then mret tt
         else
           update_current_user (λ u,
             {| CurrentUser.is_authenticated := true;
                CurrentUser.id := user_id session;
                CurrentUser.data := user ∪ CurrentUser.data u;
                CurrentUser.session_id := CurrentUser.session_id u;
                CurrentUser.ip_address := CurrentUser.ip_address u;
                CurrentUser.user_agent := CurrentUser.user_agent u;
                CurrentUser.refresh_token := CurrentUser.refresh_token u |}))
      (update_current_user (λ u,
         {| CurrentUser.is_authenticated := false;
            CurrentUser.id := CurrentUser.id u; CurrentUser.data := CurrentUser.data u;
            CurrentUser.session_id := CurrentUser.session_id u;
            CurrentUser.ip_address := CurrentUser.ip_address u;
            CurrentUser.user_agent := CurrentUser.user_agent u;
            CurrentUser.refresh_token := CurrentUser.refresh_token u |})).

(** [login_user].  The request [g_current_request] points to is an argument
    of the functions that read it, [None] for the null pointer; none of
    them assigns the pointer. *)
Definition login_user (g_current_request : option http_request.t) (user : SQLRowRef) : M unit :=
  found ← row_bool user;
  response ← gets g_current_response;
  match g_current_request, response with
  | Some req, Some _ =>
      if negb found then mret tt
      else
        try_catch
          (id_text ← row_get user "id";
           user_id ← stoi id_text;
           let client_ip := get_client_ip_from_request req in
           let user_agent := get_user_agent_from_request req in
           session ← create_session user_id client_ip user_agent;
           set_header "Set-Cookie"
             ("session_id=" +:+ session_id session +:+
              "; Path=/; Max-Age=3600; HttpOnly; Secure; SameSite=Strict");;
           set_header "X-Refresh-Token" (refresh_token session);;
           set_header "X-Refresh-Max-Age" (to_string (30 * 24 * 3600));;
           set_header "Strict-Transport-Security" "max-age=31536000; includeSubDomains; preload";;
           set_header "X-Frame-Options" "DENY";;
           set_header "X-Content-Type-Options" "nosniff";;
           set_header "X-XSS-Protection" "1; mode=block";;
           username ← row_get user "username";
           SessionAuditLogger.log_session_event (session_id session) user_id "login"
             client_ip user_agent ("User " +:+ username +:+ " logged in");;
           RateLimiter.clear_failed_attempts client_ip;;
           update_current_user (λ u,
             {| CurrentUser.is_authenticated := true;
                CurrentUser.id := user_id;
                CurrentUser.data := CurrentUser.data u;
                CurrentUser.session_id := session_id session;
                CurrentUser.ip_address := client_ip;
                CurrentUser.user_agent := user_agent;
                CurrentUser.refresh_token := refresh_token session |});;
           cols ← row_columns user;
           update_current_user (λ u,
             {| CurrentUser.is_authenticated := CurrentUser.is_authenticated u;
                CurrentUser.id := CurrentUser.id u;
                CurrentUser.data := cols ∪ CurrentUser.data u;
                CurrentUser.session_id := CurrentUser.session_id u;
                CurrentUser.ip_address := CurrentUser.ip_address u;
                CurrentUser.user_agent := CurrentUser.user_agent u;
                CurrentUser.refresh_token := CurrentUser.refresh_token u |}))
          (mret tt)
  | _, _ => mret tt
  end.

Definition logout_user : M unit :=
  u ← gets current_user;
  (if bool_decide (CurrentUser.session_id u ≠ EmptyString) then
     try_catch
       (destroy_session (CurrentUser.session_id u);;
        SessionAuditLogger.log_session_event (CurrentUser.session_id u) (CurrentUser.id u)
          "logout" (CurrentUser.ip_address u) (CurrentUser.user_agent u) "User logged out")
       (mret tt)
   else mret tt);;
  set_header "Set-Cookie" "session_id=; Path=/; Max-Age=0; HttpOnly; Secure; SameSite=Strict";;
  set_header "X-Clear-Refresh-Token" "true";;
  set_header "Cache-Control" "no-store, no-cache, must-revalidate";;
  CurrentUser_clear.

Definition refresh_session_token (g_current_request : option http_request.t) : M bool :=
  response ← gets g_current_response;
  match g_current_request, response with
  | Some req, Some _ =>
      try_catch
        (let sid := get_session_id_from_request req in
         let token := get_refresh_token_from_request req in
         if bool_decide (sid = EmptyString) || bool_decide (token = EmptyString)
         then mret false
         else
           let client_ip := get_client_ip_from_request req in
           let agent := get_user_agent_from_request req in
           new_session ← refresh_session sid token client_ip agent;
           set_header "Set-Cookie"
             ("session_id=" +:+ session_id new_session +:+
              "; Path=/; Max-Age=3600; HttpOnly; Secure; SameSite=Strict");;
           set_header "X-Refresh-Token" (refresh_token new_session);;
           update_current_user (λ u,
             {| CurrentUser.is_authenticated := CurrentUser.is_authenticated u;
                CurrentUser.id := CurrentUser.id u;
                CurrentUser.data := CurrentUser.data u;
                CurrentUser.session_id := session_id new_session;
                CurrentUser.ip_address := CurrentUser.ip_address u;
                CurrentUser.user_agent := CurrentUser.user_agent u;
                CurrentUser.refresh_token := refresh_token new_session |});;
           mret true)
        (logout_user;; mret false)
  | _, _ => mret false
  end.

(** [require_reauthentication]: the password is not looked at. *)
Definition require_reauthentication (password : string) : M bool :=
  u ← gets current_user;
  if negb (CurrentUser.is_authenticated u) then mret false
  else
    try_catch
      (user ← six_sql_find_by_readonly "users" "id" (to_string (CurrentUser.id u));
       if bool_decide (user = ∅) then mret false else mret true)
      (mret false).

Definition load_current_user (g_current_request : option http_request.t) : M unit :=
  match g_current_request with
  | Some req => CurrentUser_load_from_request req
  | None => mret tt
  end.

Definition revoke_all_user_sessions_on_critical_event (user_id : Z) (reason : string) : M unit :=
  try_catch
    (revoke_all_user_sessions user_id reason;;
     u ← gets current_user;
     if bool_decide (CurrentUser.id u = user_id) then logout_user else mret tt)
    (mret tt).

Definition on_password_changed (user_id : Z) : M unit :=
  revoke_all_user_sessions_on_critical_event user_id "Password changed".

Definition on_account_compromised (user_id : Z) : M unit :=
  revoke_all_user_sessions_on_critical_event user_id
    "Account compromised - security alert triggered".

End login.

(** ** six_http_utils.h *)

(** [redirect]: the headers set so far on the current response go along. *)
Definition redirect (url : string) : M http_response.t :=
  response ← gets g_current_response;
  mret {| http_response.status := 302;
          http_response.contentType := "text/html";
          http_response.body := EmptyString;
          http_response.location := url;
          http_response.headers :=
            match response with
            | Some r => http_response.headers r
            | None => ∅
            end |}.

(** ** A concrete environment

    An instance of [Primitives] on which the model runs: the UTC calendar
    for the dates, and stand-ins for the cipher and the hash that keep the
    properties the statements below ask of them. *)

Module Reference.

Definition pad2 (z : Z) : string :=
  if z <? 10 then "0" +:+ pretty z else pretty z.

(** [gmtime] followed by [strftime "%Y-%m-%d %H:%M:%S"]. *)
Definition format_utc (t : Z) : string :=
  let days := t / 86400 in
  let secs := t mod 86400 in
  let z := days + 719468 in
  let era := z / 146097 in
  let doe := z - era * 146097 in
  let yoe := (doe - doe / 1460 + doe / 36524 - doe / 146096) / 365 in
  let doy := doe - (365 * yoe + yoe / 4 - yoe / 100) in
  let mp := (5 * doy + 2) / 153 in
  let d := doy - (153 * mp + 2) / 5 + 1 in
  let m := if mp <? 10 then mp + 3 else mp - 9 in
  let y := yoe + era * 400 + (if m <=? 2 then 1 else 0) in
  pretty y +:+ "-" +:+ pad2 m +:+ "-" +:+ pad2 d +:+ " " +:+
  pad2 (secs / 3600) +:+ ":" +:+ pad2 (secs mod 3600 / 60) +:+ ":" +:+ pad2 (secs mod 60).

(** A stand-in block cipher: the block xor the first 16 bytes of the key. *)
Definition xor_cipher (key block : list ascii) : list ascii :=
  EVP.xor_block block (take 16 key).

(** A stand-in hash: the salt followed by the password, cut to the length asked. *)
Definition salt_then_password (t m p : N) (pwd salt : list ascii) (hashlen : nat)
  : Z * list ascii :=
  (0, take hashlen (salt ++ pwd)).

Definition primitives : Primitives :=
  {| AES_encrypt := xor_cipher;
     AES_decrypt := xor_cipher;
     argon2id_hash_raw := salt_then_password;
     argon2_error_message := λ _, "error";
     strftime_utc := format_utc;
     sqlite3_exec := λ _ t, t |}.

(** The process after [setup_sessions_in_database], with a clock that starts
    on 2023-11-14 22:13:20 UTC and advances one second per reading, and an
    entropy source that counts. *)
Definition fresh_world : World :=
  {| clock := λ n, 1700000000 + Z.of_nat n;
     ticks := 0;
     entropy := ascii_of_nat <$> seq 0 256;
     db_online := true;
     tables := <["sessions" := []]> (<["session_audit_log" := []]> ∅);
     journal := [];
     pending_updates := ∅;
     ip_attempts := ∅;
     log_queue := [];
     session_cache := ∅;
     current_user := CurrentUser.initial;
     g_current_response := None |}.

End Reference.

(** Runs of the model on the concrete environment. *)
Module Scenario.
Import Reference.

Definition sid : string :=
  "000102030405060708090a0b0c0d0e0f101112131415161718191a1b1c1d1e1f".

Definition refresh : string :=
  "303132333435363738393a3b3c3d3e3f404142434445464748494a4b4c4d4e4f".

(** User 42 logs in from 10.0.0.1 with agent A. *)
Definition login : Result Session * World :=
  create_session (H := primitives) 42 "10.0.0.1" "A" fresh_world.

Definition session : Session :=
  match login.1 with
  | Ok s => s
  | Throw _ => Session_default
  end.

Definition logged_in : World := login.2.

(** The same process [dt] seconds later. *)
Definition later (dt : Z) (w : World) : World :=
  {| clock := λ n, clock w n + dt; ticks := ticks w; entropy := entropy w;
     db_online := db_online w; tables := tables w; journal := journal w;
     pending_updates := pending_updates w; ip_attempts := ip_attempts w;
     log_queue := log_queue w; session_cache := session_cache w;
     current_user := current_user w; g_current_response := g_current_response w |}.

(** A new process on the same database file: the cache starts empty. *)
Definition restarted : World := set_session_cache ∅ logged_in.

(** Five failed attempts from 10.0.0.1 after the login, and an entropy source
    that then delivers the bytes it delivered for the refresh salt. *)
Definition throttled_replay : World :=
  set_entropy (ascii_of_nat <$> seq 80 96)
    (Nat.iter 5 (λ w, (RateLimiter.record_failed_attempt "10.0.0.1" w).2) logged_in).

(** A process whose clock is read once, then 58 seconds later and every
    second from then on. *)
Definition long_first_second : World :=
  {| clock := λ n, match n with
                   | 0%nat => 1700000000
                   | S _ => 1700000057 + Z.of_nat n
                   end;
     ticks := 0; entropy := entropy fresh_world; db_online := true;
     tables := tables fresh_world; journal := []; pending_updates := ∅;
     ip_attempts := ∅; log_queue := []; session_cache := ∅;
     current_user := CurrentUser.initial; g_current_response := None |}.

(** A request of an administrator, of a plain user and of nobody. *)
Definition request_of (authenticated : bool) (role : string) : World :=
  {| clock := clock fresh_world; ticks := 0; entropy := []; db_online := true;
     tables := tables fresh_world; journal := []; pending_updates := ∅;
     ip_attempts := ∅; log_queue := []; session_cache := ∅;
     current_user :=
       {| CurrentUser.is_authenticated := authenticated; CurrentUser.id := 7;
          CurrentUser.data := <["role" := role]> ∅;
          CurrentUser.session_id := EmptyString; CurrentUser.ip_address := EmptyString;
          CurrentUser.user_agent := EmptyString; CurrentUser.refresh_token := EmptyString |};
     g_current_response :=
       Some {| http_response.status := 200; http_response.contentType := "text/html";
               http_response.body := EmptyString; http_response.location := EmptyString;
               http_response.headers := ∅ |} |}.

End Scenario.

(** A visit to a site that keeps its users in a table. *)
Module Visit.
Import Reference Scenario.

Definition ann : gmap string string :=
  <["id" := "42"]> (<["username" := "ann"]> (<["role" := "user"]> ∅)).

(** The site before anybody logs in, with a response at hand. *)
Definition site : World :=
  set_g_current_response
    (Some {| http_response.status := 200; http_response.contentType := "text/html";
             http_response.body := EmptyString; http_response.location := EmptyString;
             http_response.headers := ∅ |})
    (set_tables (<["users" := [ann]]> (tables fresh_world)) fresh_world).

(** A request from 10.0.0.1, sent by agent A through a proxy. *)
Definition request (cookies : string) : http_request.t :=
  {| http_request.method := "GET"; http_request.path := "/";
     http_request.headers :=
       <["Cookie" := cookies]>
         (<["X-Forwarded-For" := "10.0.0.1, 192.168.0.7"]> (<["User-Agent" := "A"]> ∅));
     http_request.body := EmptyString; http_request.raw := EmptyString;
     http_request.remote_addr := "127.0.0.1";
     http_request.forms := ∅; http_request.params := ∅ |}.

Definition cookies : string :=
  "lang=en; session_id=" +:+ sid +:+ "; refresh_token=" +:+ refresh.

(** The handler of the login form looks ann up and logs her in. *)
Definition found : Result SQLRowRef * World :=
  six_sql_find_by "users" "username" "ann" site.

Definition ann_key : string :=
  match found.1 with
  | Ok (Some key) => key
  | _ => EmptyString
  end.

Definition signed_in : World :=
  (login_user (H := primitives) (Some (request "lang=en")) (Some ann_key) found.2).2.

(** The session ann got. *)
Definition session_of_ann : Session :=
  default Session_default (session_cache signed_in !! sid).

(** The rows of the sessions table after the login of the scenario. *)
Definition stored : list (gmap string string) :=
  default [] (tables logged_in !! "sessions").

Definition stored_row : gmap string string := default ∅ (head stored).

(** The site with the response of the next request. *)
Definition next (w : World) : World :=
  set_g_current_response (g_current_response site) w.

End Visit.

(** ** Vocabulary of the statements

    Predicates and abbreviations used to state the properties; none of them
    is part of the program. *)

Section vocabulary.
Context `{Primitives}.

Definition is_block (b : list ascii) : Prop := length b = EVP.block_size.

Definition fail_n (ip : string) (n : nat) (w : World) : World :=
  Nat.iter n (λ w, (RateLimiter.record_failed_attempt ip w).2) w.

(** What [six_sql_insert] sends to the database. *)
Definition insert_writes (table : string) (data : gmap string string) (w : World)
  : list Statement :=
  if db_online w && bool_decide (is_Some (tables w !! table)) && bool_decide (data ≠ ∅)
  then [SqlInsert table (c_str <$> data); PRAGMA_optimize] else [].

(** The row [six_sql_insert] adds to the table. *)
Definition insert_rows (table : string) (data : gmap string string) (w : World)
  : list (gmap string string) :=
  if db_online w && bool_decide (is_Some (tables w !! table)) && bool_decide (data ≠ ∅)
  then [c_str <$> data] else [].

(** Two worlds that differ in the database file only. *)
Definition same_process (w w' : World) : Prop :=
  clock w' = clock w ∧ ticks w' = ticks w ∧ entropy w' = entropy w
  ∧ db_online w' = db_online w ∧ pending_updates w' = pending_updates w
  ∧ ip_attempts w' = ip_attempts w ∧ log_queue w' = log_queue w
  ∧ session_cache w' = session_cache w ∧ current_user w' = current_user w
  ∧ g_current_response w' = g_current_response w.

Definition audit_entry (sid : string) (uid : Z) (action ip ua details : string) (t : Z)
  : SessionAuditLog.t :=
  {| SessionAuditLog.session_id := sid;
     SessionAuditLog.user_id := uid;
     SessionAuditLog.action := action;
     SessionAuditLog.ip_address := ip;
     SessionAuditLog.user_agent := ua;
     SessionAuditLog.timestamp := strftime_utc t;
     SessionAuditLog.details := details |}.

Definition hijack_entry (id ip : string) (t : Z) : SessionAuditLog.t :=
  audit_entry id 0 "hijack_attempt" ip EmptyString "Session accessed from different IP" t.

Definition binding_mismatch (s : Session) (ip ua : string) : Prop :=
  ip_address s ≠ ip ∨ user_agent s ≠ ua.

(** The moment [load_session] compares with [expires_at]. *)
Definition now_of (w : World) : string := strftime_utc (clock w (ticks w)).

Definition expired_at (w : World) (s : Session) : Prop :=
  string_gt (now_of w) (expires_at s) = true.

(** The clock was not read between [w] and [w']. *)
Definition same_time (w w' : World) : Prop :=
  clock w' = clock w ∧ ticks w' = ticks w.

(** The journal of [w'] is that of [w] followed by statements that satisfy [P]. *)
Definition grows (P : Statement → Prop) (w w' : World) : Prop :=
  ∃ j, journal w' = journal w ++ j ∧ Forall P j.

(** Every statement the computation runs satisfies [P], whatever its outcome. *)
Definition emits {A} (P : Statement → Prop) (m : M A) : Prop :=
  ∀ w r w', m w = (r, w') → grows P w w'.

Definition revoke_sql (uid : Z) : string :=
  "UPDATE sessions SET is_valid = 0 WHERE user_id = " +:+ to_string uid.

(** The columns [create_session] gives a row of the sessions table;
    session_id is not among them. *)
Definition session_columns : gset string :=
  list_to_set ["session_id_hash"; "session_salt"; "user_id"; "data_encrypted";
               "created_at"; "updated_at"; "expires_at"; "ip_address"; "user_agent";
               "created_ip"; "last_activity"; "last_activity_ip"; "refresh_token_hash";
               "refresh_expires_at"; "is_valid"].

(** The columns [save_session] and [destroy_session] assign. *)
Definition saved_columns : gset string :=
  list_to_set ["user_id"; "data_encrypted"; "updated_at"; "last_activity"; "is_valid"].

(** The columns the CREATE TABLE statements of
    [setup_sessions_in_database] declare. *)
Definition declared_columns (table : string) : gset string :=
  if decide (table = "sessions") then
    list_to_set ["session_id_hash"; "session_salt"; "user_id"; "data_encrypted";
                 "created_at"; "updated_at"; "expires_at"; "ip_address"; "user_agent";
                 "created_ip"; "last_activity"; "last_activity_ip"; "refresh_token_hash";
                 "refresh_expires_at"; "is_valid"; "created_at_ts"]
  else if decide (table = "session_audit_log") then
    list_to_set ["id"; "session_id"; "user_id"; "action"; "ip_address"; "user_agent";
                 "timestamp"; "details"]
  else ∅.

(** A statement that names a session does so by the hash of its id: rows of
    the sessions table are inserted with the columns above, and are selected
    and updated by session_id_hash, in the columns above; what is handed to
    [sqlite3_exec] is the closing PRAGMA or the revocation by user_id. *)
Definition hash_keyed (st : Statement) : Prop :=
  match st with
  | SqlInsert table row => table = "sessions" → dom row = session_columns
  | SqlSelect table column _ => table = "sessions" → column = "session_id_hash"
  | SqlUpdate table assignments column _ =>
      table = "sessions" → column = "session_id_hash" ∧ dom assignments ⊆ saved_columns
  | SqlExec sql => sql = "PRAGMA optimize;" ∨ ∃ uid, sql = c_str (revoke_sql uid)
  end.

(** What a lookup of a session sends: a SELECT in the sessions table by
    session_id_hash, and for an audit entry the INSERT into
    session_audit_log and the PRAGMA after it. *)
Definition looks_up (st : Statement) : Prop :=
  match st with
  | SqlSelect table column _ => table = "sessions" ∧ column = "session_id_hash"
  | SqlInsert table _ => table = "session_audit_log"
  | SqlUpdate _ _ _ _ => False
  | SqlExec sql => sql = "PRAGMA optimize;"
  end.

(** What the revocation of the sessions of [uid] sends: the UPDATE by
    user_id, and for the audit entry the INSERT into session_audit_log and
    the PRAGMA after it. *)
Definition revokes (uid : Z) (st : Statement) : Prop :=
  match st with
  | SqlExec sql => sql = "PRAGMA optimize;" ∨ sql = c_str (revoke_sql uid)
  | SqlInsert table _ => table = "session_audit_log"
  | _ => False
  end.

Definition sessions_rows (w : World) : list (gmap string string) :=
  default [] (tables w !! "sessions").

(** No row of the sessions table has the empty string as its hash. *)
Definition no_empty_hash (w : World) : Prop :=
  ∀ r, r ∈ sessions_rows w → r !! "session_id_hash" ≠ Some EmptyString.

Definition empty_hash_key : string := pending_key "sessions" "session_id_hash" EmptyString.

(** The lookup [six_sql_find_by] runs, when it gets to run one. *)
Definition select_trace (table column value : string) (w : World) : list Statement :=
  if db_online w && bool_decide (is_Some (tables w !! table))
  then [SqlSelect table column (c_str value)] else [].

(** What [destroy_session] does when the database has no row for the hash:
    the cache entry goes, and the lookup is all the database sees. *)
Definition forgotten (id : string) (w : World) : World :=
  let s := default Session_default (session_cache w !! id) in
  set_journal (journal w ++ select_trace "sessions" "session_id_hash" (session_id_hash s) w)
    (set_session_cache (delete id (session_cache w)) w).

(** The state after [destroy_session] on an id that is not cached: only the
    journal has grown, by the one lookup. *)
Definition looked_up (w : World) : World :=
  set_journal (journal w ++ select_trace "sessions" "session_id_hash" EmptyString w) w.

(** The world after the PRAGMA that ends a commit. *)
Definition optimized (w : World) : World :=
  set_journal (journal w ++ [PRAGMA_optimize]) w.

(** An UPDATE of the sessions table, if the statement is one, is of the row
    with the hash [h], and assigns [values] or some of them, as C strings. *)
Definition writes (h : string) (values : gmap string string) (st : Statement) : Prop :=
  ∀ table a c v, st = SqlUpdate table a c v → table = "sessions" →
    c = "session_id_hash" ∧ v = c_str h ∧ a ⊆ c_str <$> values.

Definition staged (table column value : string) (r : gmap string string) : SQLRow :=
  {| columns := r; table_name := table; where_column := column; where_value := value |}.

(** [hash_with_salt] as a function of its arguments. *)
Definition digest (data salt : string) : Result string :=
  let '(result, written) :=
    argon2id_hash_raw SecureSessionHash.t_cost SecureSessionHash.m_cost
      SecureSessionHash.parallelism (list_ascii_of_string data) (Hex.decode salt) 32 in
  if decide (result ≠ SecureSessionHash.ARGON2_OK)
  then Throw ("Argon2 hashing failed: " +:+ argon2_error_message result)
  else Ok (Hex.encode (SecureSessionHash.hash_buffer written)).

(** The caller would be turned away by the rate limiter now. *)
Definition throttled (ip : string) (w : World) : Prop :=
  RateLimiter.MAX_ATTEMPTS ≤
    attempts (RateLimiter.roll_window (clock w (ticks w)) (RateLimiter.entry_of ip w)).

Definition create_entry (s : Session) (t : Z) : SessionAuditLog.t :=
  audit_entry (session_id s) (user_id s) "create" (ip_address s) (user_agent s)
    "New session created" t.

(** What [save_session] assigns to the row of the session. *)
Definition saved_values (s : Session) (w : World) : gmap string string :=
  list_to_map
    [("user_id", to_string (user_id s));
     ("data_encrypted", SessionEncryption.encrypt_session_data (data s));
     ("updated_at", strftime_utc (clock w (ticks w)));
     ("last_activity", strftime_utc (clock w (ticks w + 1)));
     ("is_valid", if is_valid s then "1" else "0")].

(** No row of the sessions table is staged. *)
Definition none_staged (w : World) : Prop :=
  ∀ key sr, pending_updates w !! key = Some sr → table_name sr ≠ "sessions".

(** A SELECT or an UPDATE on another table than sessions. *)
Definition elsewhere (st : Statement) : Prop :=
  match st with
  | SqlSelect table _ _ | SqlUpdate table _ _ _ => table ≠ "sessions"
  | _ => False
  end.

(** Started with no row of the sessions table staged, the computation
    stages none and runs only statements that satisfy [Q]. *)
Definition settles {A} (Q : Statement → Prop) (m : M A) : Prop :=
  ∀ w r w', none_staged w → m w = (r, w') → none_staged w' ∧ grows Q w w'.

(** The row of session_audit_log for an entry of the queue. *)
Definition logged_row (e : SessionAuditLog.t) : gmap string string :=
  list_to_map
    [("session_id", SessionAuditLog.session_id e);
     ("user_id", to_string (SessionAuditLog.user_id e));
     ("action", SessionAuditLog.action e);
     ("ip_address", SessionAuditLog.ip_address e);
     ("user_agent", SessionAuditLog.user_agent e);
     ("timestamp", SessionAuditLog.timestamp e);
     ("details", SessionAuditLog.details e)].

(** An insert into session_audit_log, if the statement is one, writes the
    row of one of the entries [q]. *)
Definition linked (q : list SessionAuditLog.t) (st : Statement) : Prop :=
  ∀ row, st = SqlInsert "session_audit_log" row →
         ∃ e, e ∈ q ∧ row = c_str <$> logged_row e.

(** From [w] to [w'] the journal and the audit queue have grown, every
    statement that was added names sessions by their hash, and every row
    that was added to session_audit_log is the row of an entry that was
    added to the queue. *)
Definition recorded (w w' : World) : Prop :=
  ∃ j q, journal w' = journal w ++ j ∧ log_queue w' = log_queue w ++ q
         ∧ Forall hash_keyed j ∧ Forall (linked q) j.

Definition audits (w w' : World) : Prop :=
  ∃ j q, journal w' = journal w ++ j ∧ log_queue w' = log_queue w ++ q
         ∧ Forall (linked q) j.

Definition logs {A} (m : M A) : Prop :=
  ∀ w r w', m w = (r, w') → audits w w'.

(** The row [create_session] inserts for the session [s] it returns to the
    caller [uid], [ip], [ua] when called in [w]. *)
Definition created_row (uid : Z) (ip ua : string) (s : Session) (w : World)
  : gmap string string :=
  let created := strftime_utc (clock w (ticks w + 1)) in
  list_to_map
    [("session_id_hash", session_id_hash s);
     ("session_salt", session_salt s);
     ("user_id", to_string uid);
     ("data_encrypted", SessionEncryption.encrypt_session_data "{}");
     ("created_at", created);
     ("updated_at", created);
     ("expires_at", expires_at s);
     ("ip_address", ip);
     ("user_agent", ua);
     ("created_ip", ip);
     ("last_activity", created);
     ("last_activity_ip", ip);
     ("refresh_token_hash", refresh_token_hash s);
     ("refresh_expires_at", refresh_expires_at s);
     ("is_valid", "1")].

(** Different 16-byte salts never lead to the same digest. *)
Definition salt_sensitive : Prop :=
  ∀ d1 d2 b1 b2 h, length b1 = 16%nat → length b2 = 16%nat →
    digest d1 (Hex.encode b1) = Ok h → digest d2 (Hex.encode b2) = Ok h → b1 = b2.

(** The row holds the salt [b] and the digest of some id under that salt. *)
Definition hashed_with (b : list ascii) (r : gmap string string) : Prop :=
  length b = 16%nat ∧ r !! "session_salt" = Some (Hex.encode b)
  ∧ ∃ d h, digest d (Hex.encode b) = Ok h ∧ r !! "session_id_hash" = Some h.

Definition is_throw {A} (r : Result A) : Prop :=
  match r with Throw _ => True | Ok _ => False end.

(** What [refresh_session] does with the session [load_session] returned. *)
Definition refreshed (sid token ip ua : string) (s : Session) (w1 : World)
    (r : Result Session) (w' : World) : Prop :=
  let salt := Hex.encode (take 16 (entropy w1)) in
  let w2 := set_entropy (drop 16 (entropy w1)) w1 in
  let w3 := set_ticks (S (ticks w2)) w2 in
  let absent := exists_ s = false in
  let dry := (length (entropy w1) < 16)%nat in
  let hashed := digest token salt in
  let mismatch := ∃ h, hashed = Ok h ∧ h ≠ refresh_token_hash s in
  let matches := hashed = Ok (refresh_token_hash s) in
  let expired := string_gt (now_of w2) (refresh_expires_at s) = true in
  let minted := create_session (user_id s) ip ua w3 in
  (is_throw r ↔ absent ∨ dry ∨ is_throw hashed ∨ mismatch ∨ expired ∨ is_throw minted.1)
  ∧ (absent → r = Throw "Invalid session" ∧ w' = (RateLimiter.record_failed_attempt ip w1).2)
  ∧ (¬ absent → dry → r = Throw "Failed to generate salt" ∧ w' = w1)
  ∧ (¬ absent → ¬ dry → ∀ e, hashed = Throw e → r = Throw e ∧ w' = w2)
  ∧ (¬ absent → ¬ dry → mismatch →
       r = Throw "Invalid refresh token" ∧ w' = (RateLimiter.record_failed_attempt ip w2).2)
  ∧ (¬ absent → ¬ dry → matches → expired → r = Throw "Refresh token expired" ∧ w' = w3)
  ∧ (¬ absent → ¬ dry → matches → ¬ expired →
       (∀ e w4, minted = (Throw e, w4) → r = Throw e ∧ w' = w4)
       ∧ (throttled ip w3 → r = Throw "Too many login attempts. Try again later."))
  ∧ (∀ s', r = Ok s' →
       ¬ absent ∧ ¬ dry ∧ matches ∧ ¬ expired ∧ minted.1 = Ok s'
       ∧ w' = (SessionAuditLogger.log_session_event sid (user_id s) "refresh" ip ua
                 "Session refreshed with new ID" minted.2).2).

Definition is_admin (u : CurrentUser.t) : Prop :=
  CurrentUser.data u !! "role" = Some "admin".

(** The JSON text of an object whose one member, error, is the message;
    ["034"] is the double quote. *)
Definition error_json (message : string) : string :=
  String "{" (String "034" ("error" +:+ String "034" (": " +:+
    String "034" (message +:+ String "034" (String "}" EmptyString))))).

Definition json_error (code : Z) (message : string) (r : http_response.t) : Prop :=
  http_response.status r = code ∧
  http_response.body r = error_json message ∧
  http_response.headers r !! "Content-Type" = Some "application/json".

(** A payload with a NUL byte in it. *)
Definition payload : string := String "a" (String zero (String "b" EmptyString)).

(** The session_id column of the audit table. *)
Definition audit_session_ids (w : World) : list (option string) :=
  (λ row : gmap string string, row !! "session_id")
    <$> default [] (tables w !! "session_audit_log").

(** The needle stands in [s] at position [i]. *)
Definition occurs_at (needle s : string) (i : nat) : Prop :=
  substr s i (String.length needle) = needle.

(** The character [c] is one of the characters of [s]. *)
Definition has_char (c : ascii) (s : string) : Prop := c ∈ list_ascii_of_string s.

(** What an UPDATE of [six_sql_commit] does to a row of the table. *)
Definition updated (column value : string) (assignments : gmap string string)
    (r : gmap string string) : gmap string string :=
  if decide (row_matches column value r) then assignments ∪ r else r.

(** A statement that writes no row: a SELECT, or the PRAGMA that ends a
    commit. *)
Definition reads (st : Statement) : Prop :=
  match st with
  | SqlSelect _ _ _ => True
  | SqlExec sql => sql = "PRAGMA optimize;"
  | _ => False
  end.

Class Frame (R : relation World) := {
  frame_preorder :: PreOrder R;
  frame_ticks w n : R w (set_ticks n w);
  frame_entropy w e : R w (set_entropy e w);
  frame_tables w t : R w (set_tables t w);
  frame_journal w j : R w (set_journal j w);
  frame_pending_updates w p : R w (set_pending_updates p w);
  frame_ip_attempts w a : R w (set_ip_attempts a w);
  frame_log_queue w q : R w (set_log_queue q w)
}.

(** The current user and the response are those of [w]. *)
Definition same_visitor (w w' : World) : Prop :=
  current_user w' = current_user w ∧ g_current_response w' = g_current_response w.

(** The session cache is that of [w]. *)
Definition same_cache (w w' : World) : Prop := session_cache w' = session_cache w.

(** Whatever its outcome, the computation takes a world to one related to it. *)
Definition keeps {A} (R : relation World) (m : M A) : Prop :=
  ∀ w r w', m w = (r, w') → R w w'.

Definition is_hex_digit (c : ascii) : bool :=
  existsb (Ascii.eqb c) (list_ascii_of_string "0123456789abcdef").

(** Text made of the digits 0-9 and a-f. *)
Definition hex_text (s : string) : Prop :=
  Forall (λ c, is_hex_digit c = true) (list_ascii_of_string s).

(** The stored hash of the refresh token was made with a salt other than the
    16 bytes the entropy source delivers next. *)
Definition salted_otherwise (s : Session) (w : World) : Prop :=
  ∃ d b, length b = 16%nat ∧ b ≠ take 16 (entropy w)
         ∧ digest d (Hex.encode b) = Ok (refresh_token_hash s).

(** The header [key] of the current response. *)
Definition header (w : World) (key : string) : option string :=
  r ← g_current_response w; http_response.headers r !! key.

(** The status line and the body of the current response. *)
Definition status_and_body (w : World) : option (Z * string) :=
  (λ r, (http_response.status r, http_response.body r)) <$> g_current_response w.

(** Everything but the response is as in [w]. *)
Definition same_but_response (w w' : World) : Prop :=
  same_process w (set_g_current_response (g_current_response w) w')
  ∧ tables w' = tables w ∧ journal w' = journal w.

(** The text of the cookie [login_user] sets. *)
Definition session_cookie (sid : string) : string :=
  "session_id=" +:+ sid +:+ "; Path=/; Max-Age=3600; HttpOnly; Secure; SameSite=Strict".

End vocabulary.

(** * Properties *)

(** ** Running computations *)

Ltac run := cbv [mbind M_bind mret M_ret gets modify throw try_catch].

Lemma bind_ok {A B} (m : M A) (f : A → M B) w a w' :
  m w = (Ok a, w') → (m ≫= f) w = f a w'.
Proof. intros Hm. unfold mbind, M_bind. by rewrite Hm. Qed.

Lemma bind_throw {A B} (m : M A) (f : A → M B) w e w' :
  m w = (Throw e, w') → (m ≫= f) w = (Throw e, w').
Proof. intros Hm. unfold mbind, M_bind. by rewrite Hm. Qed.

Lemma bind_ok_inv {A B} (m : M A) (f : A → M B) w b w' :
  (m ≫= f) w = (Ok b, w') → ∃ a w1, m w = (Ok a, w1) ∧ f a w1 = (Ok b, w').
Proof.
  unfold mbind, M_bind. destruct (m w) as [[a|e] w1]; intros; simplify_eq; eauto.
Qed.

Lemma world_eta w :
  {| clock := clock w; ticks := ticks w; entropy := entropy w; db_online := db_online w;
     tables := tables w; journal := journal w; pending_updates := pending_updates w;
     ip_attempts := ip_attempts w; log_queue := log_queue w;
     session_cache := session_cache w; current_user := current_user w;
     g_current_response := g_current_response w |} = w.
Proof. by destruct w. Qed.

Lemma set_session_cache_id w : set_session_cache (session_cache w) w = w.
Proof. apply world_eta. Qed.

(** ** Hexadecimal text and the cipher *)

Lemma decode_of_byte b s : Hex.decode (Hex.of_byte b +:+ s) = b :: Hex.decode s.
Proof.
  destruct b as [[] [] [] [] [] [] [] []]; reflexivity.
Qed.

Lemma decode_encode l : Hex.decode (Hex.encode l) = l.
Proof.
  induction l as [|b l IH]; [done|].
  cbn [Hex.encode]. by rewrite decode_of_byte, IH.
Qed.

Section cbc.
Context `{Primitives}.
Import EVP.

(** The block cipher under the key in use: it maps blocks to blocks, and
    decryption undoes encryption. *)
Variable key : list ascii.
Hypothesis AES_length : ∀ b, is_block b → is_block (AES_encrypt key b).
Hypothesis AES_inverse : ∀ b, is_block b → AES_decrypt key (AES_encrypt key b) = b.

Lemma xor_ascii_cancel a b : xor_ascii (xor_ascii a b) b = a.
Proof.
  destruct a, b; cbn. by rewrite !xorb_assoc, !xorb_nilpotent, !xorb_false_r.
Qed.

Lemma xor_block_cancel x y : length x = length y → xor_block (xor_block x y) y = x.
Proof.
  unfold xor_block. revert y; induction x as [|a x IH]; intros [|b y] ?; simplify_eq/=; [done|].
  by rewrite xor_ascii_cancel, IH.
Qed.

Lemma xor_block_is_block x y : is_block x → is_block y → is_block (xor_block x y).
Proof. unfold is_block, xor_block. intros. rewrite length_zip_with. lia. Qed.

Lemma cbc_encrypt_is_block prev bs :
  is_block prev → Forall is_block bs → Forall is_block (cbc_encrypt key prev bs).
Proof.
  intros Hp Hbs. revert prev Hp. induction Hbs as [|b bs Hb _ IH]; intros prev Hp; cbn; [done|].
  constructor; [|apply IH]; by apply AES_length, xor_block_is_block.
Qed.

Lemma cbc_decrypt_encrypt prev bs :
  is_block prev → Forall is_block bs →
  cbc_decrypt key prev (cbc_encrypt key prev bs) = bs.
Proof.
  intros Hp Hbs. revert prev Hp. induction Hbs as [|b bs Hb _ IH]; intros prev Hp; cbn; [done|].
  rewrite AES_inverse by by apply xor_block_is_block.
  rewrite xor_block_cancel by (unfold is_block in *; congruence).
  f_equal. apply IH. by apply AES_length, xor_block_is_block.
Qed.

Lemma last_cons {A} (a d : A) l : List.last (a :: l) d = List.last l a.
Proof.
  revert a d. induction l as [|x l IH]; intros a d; [done|].
  change (List.last (x :: l) d = List.last (x :: l) a). by rewrite !IH.
Qed.

Lemma cbc_encrypt_snoc prev bs b :
  cbc_encrypt key prev (bs ++ [b]) =
  cbc_encrypt key prev bs ++ [AES_encrypt key (xor_block b (List.last (cbc_encrypt key prev bs) prev))].
Proof.
  revert prev. induction bs as [|b' bs IH]; intros prev; [done|].
  cbn [cbc_encrypt app]. cbn zeta. by rewrite IH, last_cons.
Qed.

Lemma blocks_concat bs rest :
  Forall is_block bs → blocks (length bs) (concat bs ++ rest) = bs.
Proof.
  induction 1 as [|b bs Hb _ IH]; [done|]. cbn.
  rewrite <-(assoc_L (++)).
  rewrite take_app_length' by done. rewrite drop_app_length' by done.
  by rewrite IH.
Qed.

Lemma length_concat_blocks bs :
  Forall is_block bs → length (concat bs) = (length bs * block_size)%nat.
Proof.
  induction 1 as [|b bs Hb _ IH]; [done|]. cbn [concat length].
  unfold is_block in Hb. rewrite length_app, IH, Hb. unfold block_size. lia.
Qed.

Lemma blocks_is_block n l :
  (n * block_size ≤ length l)%nat → Forall is_block (blocks n l).
Proof.
  revert l. induction n as [|n IH]; intros l Hl; cbn [blocks]; [done|].
  constructor.
  - unfold is_block. rewrite length_take. unfold block_size in *. lia.
  - apply IH. rewrite length_drop. unfold block_size in *. lia.
Qed.

Lemma concat_blocks n l : concat (blocks n l) = take (n * block_size) l.
Proof.
  revert l. induction n as [|n IH]; intros l; cbn [blocks concat]; [done|].
  rewrite IH.
  replace (S n * block_size)%nat with (block_size + n * block_size)%nat by lia.
  by rewrite take_take_drop.
Qed.

Lemma length_blocks n l : length (blocks n l) = n.
Proof. revert l; induction n; intros; cbn; auto. Qed.

Lemma DecryptUpdate_aligned iv cs :
  Forall is_block cs → cs ≠ [] →
  DecryptUpdate (Init_ex key iv) (concat cs) =
    ({| ctx_key := key; ctx_iv := List.last cs iv; ctx_buf := [];
        ctx_final := List.last (Some <$> cbc_decrypt key iv cs) None |},
     concat (removelast (cbc_decrypt key iv cs))).
Proof.
  intros Hcs Hne. unfold DecryptUpdate.
  pose proof (length_concat_blocks cs Hcs) as Hlen.
  destruct (concat cs) as [|c0 ct] eqn:Hct.
  { destruct cs; [done|]. cbn in Hlen. unfold block_size in Hlen; lia. }
  rewrite <-Hct in Hlen |- *. cbn [Init_ex ctx_buf ctx_key ctx_iv ctx_final app from_option].
  rewrite Hlen, Nat.div_mul by done.
  rewrite <-(app_nil_r (concat cs)), blocks_concat by done.
  rewrite app_nil_r, <-Hlen, drop_all. done.
Qed.

Import SessionEncryption.

Lemma MASTER_IV_is_block : is_block MASTER_IV.
Proof. reflexivity. Qed.

Lemma pad_byte k : (k ≤ 16)%nat → N.to_nat (N_of_ascii (ascii_of_nat k)) = k.
Proof.
  intros. unfold ascii_of_nat. rewrite N_ascii_embedding; lia.
Qed.

(** One [EVP_EncryptUpdate] and [EVP_EncryptFinal_ex] followed by one
    [EVP_DecryptUpdate] and [EVP_DecryptFinal_ex] give the input back. *)
Lemma roundtrip_bytes (p : list ascii) :
  let '(ctx, out1) := EncryptUpdate (Init_ex key MASTER_IV) p in
  let ct := out1 ++ EncryptFinal_ex ctx in
  let '(ctx', o1) := DecryptUpdate (Init_ex key MASTER_IV) ct in
  o1 ++ DecryptFinal_ex ctx' = p.
Proof.
  unfold EncryptUpdate, EncryptFinal_ex. cbn [ctx_buf ctx_key ctx_iv Init_ex app].
  set (n := (length p / block_size)%nat).
  set (B := blocks n p).
  set (r := drop (n * block_size) p).
  set (k := (block_size - length r)%nat).
  set (P := r ++ replicate k (ascii_of_nat k)).
  assert (Hn : (n * block_size ≤ length p)%nat).
  { unfold n, block_size. pose proof (Nat.Div0.mul_div_le (length p) 16). lia. }
  assert (Hr : (length r < block_size)%nat).
  { unfold r, n, block_size. rewrite length_drop.
    pose proof (Nat.Div0.div_mod (length p) 16).
    pose proof (Nat.mod_upper_bound (length p) 16). lia. }
  assert (HB : Forall is_block B) by by apply blocks_is_block.
  assert (HP : is_block P).
  { unfold is_block, P. rewrite length_app, length_replicate. unfold k. lia. }
  assert (Hct : concat (cbc_encrypt key MASTER_IV B)
                 ++ AES_encrypt key (xor_block P (List.last (cbc_encrypt key MASTER_IV B) MASTER_IV))
               = concat (cbc_encrypt key MASTER_IV (B ++ [P]))).
  { rewrite cbc_encrypt_snoc, concat_app. cbn [concat]. by rewrite app_nil_r. }
  rewrite Hct. clear Hct.
  assert (HC : Forall is_block (cbc_encrypt key MASTER_IV (B ++ [P]))).
  { apply cbc_encrypt_is_block; [apply MASTER_IV_is_block|]. apply Forall_app; auto. }
  set (C := cbc_encrypt key MASTER_IV (B ++ [P])) in *.
  rewrite DecryptUpdate_aligned; [|done|].
  2:{ unfold C. rewrite cbc_encrypt_snoc. by destruct (cbc_encrypt _ _ B). }
  clear HC. subst C. rewrite !cbc_decrypt_encrypt; [|apply MASTER_IV_is_block|apply Forall_app; auto].
  rewrite fmap_app, removelast_last. cbn [fmap list_fmap]. rewrite last_last.
  unfold DecryptFinal_ex. cbn [ctx_buf ctx_final].
  assert (Hk : (1 ≤ k ≤ block_size)%nat) by (unfold k; lia).
  assert (Hlast : List.last P zero = ascii_of_nat k).
  { unfold P. destruct k as [|k']; [lia|].
    rewrite replicate_S_end, (assoc_L (++)). apply last_last. }
  rewrite Hlast, pad_byte by (unfold block_size in *; lia).
  assert (Hlr : (block_size - k)%nat = length r) by (unfold k; lia).
  rewrite bool_decide_true.
  - unfold B, P. rewrite concat_blocks, Hlr, take_app_length. apply take_drop.
  - split; [done|]. split; [done|]. unfold P. by rewrite Hlr, drop_app_length.
Qed.
End cbc.

(** C7.  For every byte string [p] (the empty string and strings with
    embedded NUL bytes included: [string] holds arbitrary bytes),
    [decrypt_session_data (encrypt_session_data p) = p].  The cipher is
    the primitive of the cryptographic library; what is asked of it is that
    under the master key it maps 16-byte blocks to 16-byte blocks and that
    decryption undoes encryption on a block. *)
Theorem decrypt_encrypt_session_data `{Primitives} (p : string) :
  (∀ b, is_block b → is_block (AES_encrypt SessionEncryption.MASTER_KEY b)) →
  (∀ b, is_block b →
     AES_decrypt SessionEncryption.MASTER_KEY (AES_encrypt SessionEncryption.MASTER_KEY b) = b) →
  SessionEncryption.decrypt_session_data (SessionEncryption.encrypt_session_data p) = p.
Proof.
  intros Hlen Hinv.
  unfold SessionEncryption.decrypt_session_data, SessionEncryption.encrypt_session_data.
  pose proof (roundtrip_bytes _ Hlen Hinv (list_ascii_of_string p)) as Hrt.
  destruct (EVP.EncryptUpdate _ _) as [ctx out1].
  rewrite decode_encode. cbv zeta in Hrt.
  destruct (EVP.DecryptUpdate _ _) as [ctx' o1].
  rewrite Hrt. apply string_of_list_ascii_of_string.
Qed.

(** ** The rate limiter *)

Section rate_limiter.
Import RateLimiter.

Lemma is_rate_limited_run ip w :
  let e := roll_window (clock w (ticks w)) (entry_of ip w) in
  is_rate_limited ip w =
    (Ok (bool_decide (MAX_ATTEMPTS ≤ attempts e)),
     set_ip_attempts (<[ip := e]> (ip_attempts w)) (set_ticks (S (ticks w)) w)).
Proof.
  unfold is_rate_limited, time_now. run. cbn [set_ticks ip_attempts].
  case_bool_decide as Hb.
  - apply Z.geb_le in Hb. by rewrite Hb.
  - destruct (_ >=? _) eqn:Hg; [|done]. apply Z.geb_le in Hg. done.
Qed.

Lemma record_failed_attempt_run ip w :
  let e := roll_window (clock w (ticks w)) (entry_of ip w) in
  record_failed_attempt ip w =
    (Ok tt,
     set_ip_attempts (<[ip := {| attempts := to_int (attempts e + 1); reset_time := reset_time e |}]>
                        (ip_attempts w)) (set_ticks (S (ticks w)) w)).
Proof. reflexivity. Qed.

Lemma roll_window_expired now e :
  reset_time e < now → roll_window now e = {| attempts := 0; reset_time := now + RESET_WINDOW |}.
Proof. unfold roll_window. intros. destruct (Z.gtb_spec now (reset_time e)); [done|lia]. Qed.

Lemma roll_window_open now e :
  now ≤ reset_time e → roll_window now e = e.
Proof. unfold roll_window. intros. destruct (Z.gtb_spec now (reset_time e)); [lia|done]. Qed.

Lemma to_int_small z : INT_MIN ≤ z ≤ INT_MAX → to_int z = z.
Proof.
  unfold to_int, INT_MIN, INT_MAX. intros. rewrite Z.mod_small; lia.
Qed.

Lemma entry_of_insert ip e m w : entry_of ip (set_ip_attempts (<[ip := e]> m) w) = e.
Proof. unfold entry_of. cbn. by rewrite lookup_insert_eq. Qed.

Lemma fail_n_S ip n w : fail_n ip (S n) w = (record_failed_attempt ip (fail_n ip n w)).2.
Proof. reflexivity. Qed.

Lemma roll_window_cases now e :
  roll_window now e
  = {| attempts := if decide (reset_time e < now) then 0 else attempts e;
       reset_time := if decide (reset_time e < now) then now + RESET_WINDOW else reset_time e |}.
Proof.
  case_decide; [by apply roll_window_expired|].
  rewrite roll_window_open by lia. by destruct e.
Qed.

Lemma fail_n_state ip w n :
  let t0 := clock w (ticks w) in
  let e := entry_of ip w in
  let stop := if decide (reset_time e < t0) then t0 + RESET_WINDOW else reset_time e in
  let count := if decide (reset_time e < t0) then 0 else attempts e in
  (1 ≤ n)%nat → INT_MIN ≤ count → count + Z.of_nat n ≤ INT_MAX →
  (∀ i, (1 ≤ i < n)%nat → clock w (ticks w + i) ≤ stop) →
  let w' := fail_n ip n w in
  entry_of ip w' = {| attempts := count + Z.of_nat n; reset_time := stop |}
  ∧ ticks w' = (ticks w + n)%nat ∧ clock w' = clock w.
Proof.
  intros t0 e stop count Hn Hmin Hmax Hwin. induction n as [|n IH]; [lia|].
  cbn zeta. rewrite fail_n_S, record_failed_attempt_run.
  cbn [snd entry_of ip_attempts set_ip_attempts set_ticks ticks clock].
  rewrite entry_of_insert.
  destruct (decide (n = 0%nat)) as [->|Hn0].
  - change (fail_n ip 0 w) with w. rewrite roll_window_cases. cbn [attempts reset_time].
    fold e t0 stop count. rewrite to_int_small by lia.
    split; [done|split; [lia|done]].
  - destruct IH as (He & Ht & Hc); [lia|lia|intros; apply Hwin; lia|].
    rewrite Hc, Ht, He. rewrite roll_window_open; cbn [attempts reset_time].
    + rewrite to_int_small by lia.
      split; [|split; [lia|done]]. f_equal. lia.
    + apply Hwin. lia.
Qed.

(** C6 (amended).  Windows are fixed: the window in force when the first of
    [n] failed attempts for [ip] is recorded ends at [stop], the end of the
    window that is open then or, if none is, 60 seconds later, and [count]
    failures are on its counter already.  When the [n] attempts all fall
    in that window, [is_rate_limited ip], asked at time [t], answers true
    exactly when [t] is still within the window and the counter, [count]
    plus [n], has reached 5; once the window has elapsed it answers false
    and leaves the counter at zero.  In any state the answer is true iff
    the window is open and the counter is at least 5. *)
Theorem rate_limit_window ip w n :
  let t0 := clock w (ticks w) in
  let t := clock w (ticks w + n) in
  let e := entry_of ip w in
  let stop := if decide (reset_time e < t0) then t0 + 60 else reset_time e in
  let count := if decide (reset_time e < t0) then 0 else attempts e in
  (1 ≤ n)%nat → INT_MIN ≤ count → count + Z.of_nat n ≤ INT_MAX →
  (∀ i, (1 ≤ i < n)%nat → clock w (ticks w + i) ≤ stop) →
  (∃ w', is_rate_limited ip (fail_n ip n w)
         = (Ok (bool_decide (t ≤ stop ∧ 5 ≤ count + Z.of_nat n)), w')
         ∧ (stop < t → attempts (entry_of ip w') = 0))
  ∧ (∀ v, ∃ v', is_rate_limited ip v =
       (Ok (bool_decide (clock v (ticks v) ≤ reset_time (entry_of ip v)
                         ∧ 5 ≤ attempts (entry_of ip v))), v')).
Proof.
  intros t0 t e stop count Hn Hmin Hmax Hwin. split.
  - destruct (fail_n_state ip w n) as (He & Ht & Hc); [done..|].
    rewrite is_rate_limited_run. rewrite He, Ht, Hc. fold t0 e stop count t.
    change RESET_WINDOW with 60. fold stop.
    eexists; split.
    + f_equal. unfold roll_window. cbn [reset_time].
      unfold MAX_ATTEMPTS.
      destruct (Z.gtb_spec t stop);
        cbn [attempts]; f_equal; apply bool_decide_ext; lia.
    + intros Hlate. rewrite entry_of_insert.
      rewrite roll_window_expired by (cbn; lia). done.
  - intros v. rewrite is_rate_limited_run. eexists. f_equal. f_equal.
    unfold roll_window, MAX_ATTEMPTS.
    destruct (Z.gtb_spec (clock v (ticks v)) (reset_time (entry_of ip v)));
      cbn [attempts]; apply bool_decide_ext; lia.
Qed.

End rate_limiter.

(** ** The audit log and [load_session] *)

Lemma six_sql_insert_run table data w :
  ∃ w', six_sql_insert table data w = (Ok tt, w')
        ∧ same_process w w'
        ∧ journal w' = journal w ++ insert_writes table data w
        ∧ (∀ t, t ≠ table → tables w' !! t = tables w !! t)
        ∧ (∀ t, is_Some (tables w' !! t) ↔ is_Some (tables w !! t))
        ∧ default [] (tables w' !! table)
          = default [] (tables w !! table) ++ insert_rows table data w.
Proof.
  unfold six_sql_insert, insert_writes, insert_rows, same_process.
  destruct (db_online w) eqn:Hon; cbn [negb andb].
  2:{ eexists; split; [done|]. rewrite !app_nil_r. by rewrite Hon. }
  destruct (tables w !! table) as [rows|] eqn:Ht.
  2:{ eexists; split; [done|]. rewrite bool_decide_false by by intros [??].
      cbn. rewrite !app_nil_r. by rewrite Hon, Ht. }
  rewrite bool_decide_true by done. cbn [andb].
  destruct (decide (data = ∅)) as [->|Hne].
  - eexists; split; [done|]. rewrite bool_decide_false by naive_solver.
    rewrite !app_nil_r. by rewrite Hon, Ht.
  - eexists; split; [done|]. rewrite bool_decide_true by done. cbn. rewrite Hon.
    split_and!; try done.
    + intros t Hne'. by rewrite lookup_insert_ne.
    + intros t. destruct (decide (t = table)) as [->|];
        [by rewrite lookup_insert_eq, Ht|by rewrite lookup_insert_ne].
    + by rewrite lookup_insert_eq.
Qed.

Section audit.
Context `{Primitives}.
Import SessionAuditLogger.

Lemma log_session_event_run sid uid action ip ua details w :
  let e := audit_entry sid uid action ip ua details (clock w (ticks w)) in
  ∃ w', log_session_event sid uid action ip ua details w = (Ok tt, w')
        ∧ clock w' = clock w ∧ ticks w' = S (ticks w) ∧ entropy w' = entropy w
        ∧ db_online w' = db_online w ∧ pending_updates w' = pending_updates w
        ∧ ip_attempts w' = ip_attempts w ∧ session_cache w' = session_cache w
        ∧ current_user w' = current_user w ∧ g_current_response w' = g_current_response w
        ∧ log_queue w' = log_queue w ++ [e]
        ∧ journal w' = journal w ++ insert_writes "session_audit_log" (audit_row e) w
        ∧ (∀ t, t ≠ "session_audit_log" → tables w' !! t = tables w !! t)
        ∧ (∀ t, is_Some (tables w' !! t) ↔ is_Some (tables w !! t)).
Proof.
  intros e. unfold log_session_event, write_audit_log_to_db, time_now. run.
  fold (audit_entry sid uid action ip ua details (clock w (ticks w))). fold e.
  set (w1 := set_log_queue _ _).
  destruct (six_sql_insert_run "session_audit_log" (audit_row e) w1)
    as (w' & -> & (Hc & Ht & He & Hd & Hp & Hi & Hl & Hs & Hu & Hr) & Hj & Ht1 & Ht2 & _).
  eexists; split; [done|]. subst w1. cbn in *. repeat split; try done; apply Ht2.
Qed.

Lemma detect_hijack_attempt_run sid ip w :
  detect_hijack_attempt sid ip w =
  log_session_event sid 0 "hijack_attempt" ip EmptyString "Session accessed from different IP" w.
Proof. reflexivity. Qed.

End audit.

Section load.
Context `{Primitives}.
Import SessionAuditLogger.

Lemma load_session_mismatch_run w id ip ua s :
  session_cache w !! id = Some s → binding_mismatch s ip ua →
  load_session id ip ua w =
    (Ok Session_default, (detect_hijack_attempt id ip w).2).
Proof.
  intros Hs Hm. unfold load_session. run. rewrite Hs.
  destruct (log_session_event_run id 0 "hijack_attempt" ip EmptyString
              "Session accessed from different IP" w) as (w' & Hw' & _).
  case_bool_decide; [by rewrite !detect_hijack_attempt_run, Hw'|].
  case_bool_decide; [by rewrite !detect_hijack_attempt_run, Hw'|].
  destruct Hm; done.
Qed.

Lemma load_session_match_run w id s :
  session_cache w !! id = Some s →
  load_session id (ip_address s) (user_agent s) w =
    if string_gt (now_of w) (expires_at s)
    then (Ok Session_default, set_session_cache (delete id (session_cache w)) (set_ticks (S (ticks w)) w))
    else (Ok s, set_ticks (S (ticks w)) w).
Proof.
  intros Hs. unfold load_session, timestamp_now, time_now. run. rewrite Hs.
  rewrite !bool_decide_false by naive_solver.
  fold (now_of w). by destruct (string_gt _ _).
Qed.

(** C4.  For a session in the cache, [load_session] with an IP address or a
    user agent other than the recorded one (or both) returns, without
    throwing, a session with [exists_ = false], and it queues exactly one
    audit entry, of type hijack_attempt; what [six_sql_insert] sends for
    the row of that entry is all it sends to the database. *)
Theorem load_session_hijack w id ip ua s :
  session_cache w !! id = Some s → binding_mismatch s ip ua →
  ∃ r w', load_session id ip ua w = (Ok r, w')
    ∧ exists_ r = false
    ∧ log_queue w' = log_queue w ++ [hijack_entry id ip (clock w (ticks w))]
    ∧ journal w' = journal w ++
        insert_writes "session_audit_log" (audit_row (hijack_entry id ip (clock w (ticks w)))) w.
Proof.
  intros Hs Hm. rewrite (load_session_mismatch_run _ _ _ _ _ Hs Hm).
  rewrite detect_hijack_attempt_run.
  destruct (log_session_event_run id 0 "hijack_attempt" ip EmptyString
              "Session accessed from different IP" w) as (w' & -> & Hfacts).
  exists Session_default, w'. cbn [snd]. split; [done|]. split; [done|].
  unfold hijack_entry. intuition.
Qed.

(** C10.  When [load_session] finds a binding mismatch on a cached session
    the cache is left as it was: the session is neither evicted nor
    changed, so that a later [load_session] with the recorded IP address
    and user agent, before expiry, returns that session with
    [exists_ = true]. *)
Theorem load_session_hijack_frame w id ip ua s :
  session_cache w !! id = Some s → binding_mismatch s ip ua → exists_ s = true →
  ∃ r w', load_session id ip ua w = (Ok r, w')
    ∧ session_cache w' = session_cache w
    ∧ ∀ w2, session_cache w2 !! id = Some s → ¬ expired_at w2 s →
        ∃ r2 w3, load_session id (ip_address s) (user_agent s) w2 = (Ok r2, w3)
                 ∧ r2 = s ∧ exists_ r2 = true.
Proof.
  intros Hs Hm He. rewrite (load_session_mismatch_run _ _ _ _ _ Hs Hm).
  rewrite detect_hijack_attempt_run.
  destruct (log_session_event_run id 0 "hijack_attempt" ip EmptyString
              "Session accessed from different IP" w) as (w' & -> & Hfacts).
  exists Session_default, w'. cbn [snd]. split; [done|]. split; [intuition|].
  intros w2 Hs2 Hne. rewrite (load_session_match_run _ _ _ Hs2).
  unfold expired_at in Hne. destruct (string_gt _ _); [done|]. eauto.
Qed.

Lemma same_time_refl w : same_time w w.
Proof. done. Qed.

Lemma same_time_trans w1 w2 w3 : same_time w1 w2 → same_time w2 w3 → same_time w1 w3.
Proof. unfold same_time. intros [??] [??]. split; congruence. Qed.

Lemma get_unique_salt_time w r w' :
  SaltGenerator.get_unique_salt w = (r, w') → same_time w w'.
Proof.
  unfold SaltGenerator.get_unique_salt, SaltGenerator.generate_random_salt, RAND_bytes. run.
  case_decide; intros; simplify_eq; done.
Qed.

Lemma hash_with_salt_pure d s w r w' :
  SecureSessionHash.hash_with_salt d s w = (r, w') → w' = w.
Proof.
  unfold SecureSessionHash.hash_with_salt. run.
  destruct (argon2id_hash_raw _ _ _ _ _ _). case_decide; intros; by simplify_eq.
Qed.

Lemma six_sql_find_by_time t c v w r w' :
  six_sql_find_by t c v w = (r, w') → same_time w w'.
Proof.
  unfold six_sql_find_by. destruct (db_online w); cbn [negb]; [|by intros; simplify_eq].
  destruct (tables w !! t); [|by intros; simplify_eq].
  destruct (select_first _ _ _); intros; simplify_eq; done.
Qed.

Lemma row_get_time row c w r w' : row_get row c w = (r, w') → same_time w w'.
Proof.
  unfold row_get. destruct row as [key|]; [|by intros; simplify_eq].
  destruct (pending_updates w !! key) as [sr|]; [|by intros; simplify_eq].
  destruct (columns sr !! c); intros; simplify_eq; done.
Qed.

Lemma row_bool_pure row w r w' : row_bool row w = (r, w') → w' = w.
Proof. unfold row_bool. by intros; simplify_eq. Qed.

Lemma stoi_pure s w r w' : stoi s w = (r, w') → w' = w.
Proof.
  unfold stoi. run. destruct (Hex.skip_space s) as [|c s']; [by intros; simplify_eq|].
  repeat (case_match; try by intros; simplify_eq).
Qed.

Lemma load_session_from_db_fresh id ip ua w r w' :
  load_session_from_db id ip ua w = (Ok r, w') → exists_ r = true →
  string_gt (now_of w) (expires_at r) = false.
Proof.
  unfold load_session_from_db. intros Hrun Hex.
  apply bind_ok_inv in Hrun as (salt & w1 & Hsalt%get_unique_salt_time & Hrun).
  apply bind_ok_inv in Hrun as (hash & w2 & ->%hash_with_salt_pure & Hrun).
  apply bind_ok_inv in Hrun as (row & w3 & Hfind%six_sql_find_by_time & Hrun).
  apply bind_ok_inv in Hrun as (found & w4 & ->%row_bool_pure & Hrun).
  destruct found; cbn [negb] in Hrun; [|by revert Hrun; run; intros; simplify_eq].
  pose proof (same_time_trans _ _ _ Hsalt Hfind) as Ht. clear Hsalt Hfind.
  repeat match type of Hrun with
  | (row_get _ _ ≫= _) _ = _ =>
      let Hg := fresh "Hg" in
      apply bind_ok_inv in Hrun as (? & ? & Hg%row_get_time & Hrun);
      pose proof (same_time_trans _ _ _ Ht Hg) as Ht'; clear Ht Hg; rename Ht' into Ht
  | (stoi _ ≫= _) _ = _ =>
      apply bind_ok_inv in Hrun as (? & ? & ->%stoi_pure & Hrun)
  | (try_catch _ _ ≫= _) _ = _ =>
      apply bind_ok_inv in Hrun as (? & ? & Htc & Hrun);
      revert Htc; run; intros; simplify_eq
  end.
  destruct (_ || _).
  - apply bind_ok_inv in Hrun as (? & ? & _ & Hrun). revert Hrun; run; intros; by simplify_eq.
  - apply bind_ok_inv in Hrun as (now & w5 & Hnow & Hrun).
    revert Hnow. unfold timestamp_now, time_now. run. intros; simplify_eq.
    destruct Ht as [Hc Htk]. rewrite Hc, Htk in Hrun. fold (now_of w) in Hrun.
    destruct (string_gt (now_of w) _) eqn:Hgt; [by revert Hrun; run; intros; simplify_eq|].
    apply bind_ok_inv in Hrun as (? & ? & _ & Hrun).
    apply bind_ok_inv in Hrun as (? & ? & _ & Hrun).
    revert Hrun; run; intros; by simplify_eq.
Qed.

(** C5 (amended).  [load_session] never returns as present a session whose
    [expires_at] is before the time of the call.  For an expired session
    in the cache the result has [exists_ = false]; the session is erased
    from the cache when the IP address and the user agent match the
    recorded ones, and stays in the cache when one of them differs (the
    binding is checked first). *)
Theorem load_session_expiry w id ip ua :
  (∀ r w', load_session id ip ua w = (Ok r, w') → exists_ r = true →
     string_gt (now_of w) (expires_at r) = false)
  ∧ (∀ s, session_cache w !! id = Some s → expired_at w s →
       ∃ r w', load_session id ip ua w = (Ok r, w') ∧ exists_ r = false
         ∧ (¬ binding_mismatch s ip ua → session_cache w' = delete id (session_cache w))
         ∧ (binding_mismatch s ip ua → session_cache w' = session_cache w)).
Proof.
  split.
  - intros r w' Hrun Hex. destruct (session_cache w !! id) as [s|] eqn:Hs.
    + destruct (decide (binding_mismatch s ip ua)) as [Hm|Hm].
      * rewrite (load_session_mismatch_run _ _ _ _ _ Hs Hm) in Hrun. by simplify_eq.
      * assert (ip = ip_address s ∧ ua = user_agent s) as [-> ->].
        { unfold binding_mismatch in Hm. split; apply dec_stable; naive_solver. }
        rewrite (load_session_match_run _ _ _ Hs) in Hrun.
        destruct (string_gt _ _) eqn:Hgt; by simplify_eq.
    + revert Hrun. unfold load_session. run. rewrite Hs.
      intros Hrun. by eapply load_session_from_db_fresh.
  - intros s Hs Hexp. destruct (decide (binding_mismatch s ip ua)) as [Hm|Hm].
    + rewrite (load_session_mismatch_run _ _ _ _ _ Hs Hm).
      rewrite detect_hijack_attempt_run.
      destruct (log_session_event_run id 0 "hijack_attempt" ip EmptyString
                  "Session accessed from different IP" w) as (w' & -> & Hfacts).
      exists Session_default, w'. cbn [snd]. intuition.
    + assert (ip = ip_address s ∧ ua = user_agent s) as [-> ->].
      { unfold binding_mismatch in Hm. split; apply dec_stable; naive_solver. }
      rewrite (load_session_match_run _ _ _ Hs). rewrite Hexp.
      eexists _, _. split; [done|]. split; [done|]. split; [done|]. done.
Qed.

End load.

(** ** The statements an operation runs *)

Section emits.
Context (P : Statement → Prop).

Lemma grows_refl w w' : journal w' = journal w → grows P w w'.
Proof. intros Hj. exists []. by rewrite app_nil_r. Qed.

Lemma grows_trans w1 w2 w3 : grows P w1 w2 → grows P w2 w3 → grows P w1 w3.
Proof.
  intros (j1 & H1 & HP1) (j2 & H2 & HP2). exists (j1 ++ j2).
  split; [by rewrite H2, H1, (assoc_L (++))|by apply Forall_app].
Qed.

Lemma emits_ret {A} (a : A) : emits P (mret a).
Proof. intros w r w'. run. intros ?; simplify_eq. by apply grows_refl. Qed.

Lemma emits_throw {A} e : emits P (throw (A:=A) e).
Proof. intros w r w'. run. intros ?; simplify_eq. by apply grows_refl. Qed.

Lemma emits_bind {A B} (m : M A) (f : A → M B) :
  emits P m → (∀ a, emits P (f a)) → emits P (m ≫= f).
Proof.
  intros Hm Hf w r w'. unfold mbind, M_bind.
  destruct (m w) as [[a|e] w1] eqn:Hmw; intros Hrun.
  - eapply grows_trans; [by eapply Hm|by eapply Hf].
  - simplify_eq. by eapply Hm.
Qed.

Lemma emits_try_catch {A} (m h : M A) : emits P m → emits P h → emits P (try_catch m h).
Proof.
  intros Hm Hh w r w'. unfold try_catch.
  destruct (m w) as [[a|e] w1] eqn:Hmw; intros Hrun.
  - simplify_eq. by eapply Hm.
  - eapply grows_trans; [by eapply Hm|by eapply Hh].
Qed.

Lemma emits_gets {A} (f : World → A) : emits P (gets f).
Proof. intros w r w'. run. intros ?; simplify_eq. by apply grows_refl. Qed.

Lemma emits_modify (f : World → World) :
  (∀ w, journal (f w) = journal w) → emits P (modify f).
Proof. intros Hf w r w'. unfold modify. intros ?; simplify_eq. by apply grows_refl. Qed.

Lemma emits_time_now : emits P time_now.
Proof. intros w r w'. unfold time_now. intros ?; simplify_eq. by apply grows_refl. Qed.

Lemma emits_RAND_bytes n : emits P (RAND_bytes n).
Proof.
  intros w r w'. unfold RAND_bytes. case_decide; intros; simplify_eq; by apply grows_refl.
Qed.

Lemma emits_stoi s : emits P (stoi s).
Proof. intros w r w' ->%stoi_pure. by apply grows_refl. Qed.

Lemma emits_row_bool row : emits P (row_bool row).
Proof. intros w r w' ->%row_bool_pure. by apply grows_refl. Qed.

Lemma emits_row_get row c : emits P (row_get row c).
Proof.
  intros w r w'. unfold row_get. repeat case_match; intros; simplify_eq; by apply grows_refl.
Qed.

Lemma emits_row_set row c v : emits P (row_set row c v).
Proof.
  intros w r w'. unfold row_set. repeat case_match; intros; simplify_eq; by apply grows_refl.
Qed.

Lemma emits_six_sql_insert table data :
  P (SqlInsert table (c_str <$> data)) → P PRAGMA_optimize →
  emits P (six_sql_insert table data).
Proof.
  intros HP Hopt w r w' Hrun.
  destruct (six_sql_insert_run table data w) as (w1 & Hrun' & _ & Hj & _).
  rewrite Hrun' in Hrun. simplify_eq. eexists; split; [done|].
  unfold insert_writes. case_match; repeat constructor; done.
Qed.

Lemma emits_six_sql_find_by table column value :
  P (SqlSelect table column (c_str value)) → emits P (six_sql_find_by table column value).
Proof.
  intros HP w r w'. unfold six_sql_find_by.
  destruct (db_online w); cbn [negb]; [|intros; simplify_eq; by apply grows_refl].
  destruct (tables w !! table); [|intros; simplify_eq; by apply grows_refl].
  intros ?; simplify_eq. eexists [_]. split; [|by repeat constructor].
  by destruct (select_first _ _ _).
Qed.

End emits.

Section emits_session.
Context `{Primitives} (P : Statement → Prop).

Lemma emits_six_sql_exec sql : P (SqlExec (c_str sql)) → emits P (six_sql_exec sql).
Proof.
  intros HP w r w'. unfold six_sql_exec.
  destruct (db_online w); cbn [negb]; intros; simplify_eq; [|by apply grows_refl].
  eexists [_]. split; [done|by repeat constructor].
Qed.

Lemma emits_hash_with_salt d s : emits P (SecureSessionHash.hash_with_salt d s).
Proof. intros w r w' ->%hash_with_salt_pure. by apply grows_refl. Qed.

Lemma emits_log_session_event sid uid action ip ua details :
  (∀ t, P (SqlInsert "session_audit_log"
             (c_str <$> SessionAuditLogger.audit_row (audit_entry sid uid action ip ua details t)))) →
  P PRAGMA_optimize →
  emits P (SessionAuditLogger.log_session_event sid uid action ip ua details).
Proof.
  intros HP Hopt. unfold SessionAuditLogger.log_session_event.
  apply emits_bind; [apply emits_time_now|]. intros t.
  apply emits_bind; [by apply emits_modify|]. intros _.
  apply emits_try_catch; [|apply emits_ret].
  apply emits_six_sql_insert; [apply HP|exact Hopt].
Qed.

End emits_session.

(** ** [destroy_session] *)

Lemma select_first_None column value rows :
  (∀ r, r ∈ rows → r !! column ≠ Some value) → select_first column value rows = None.
Proof.
  intros Hno. unfold select_first.
  destruct (List.find _ rows) as [r|] eqn:Hf; [|done].
  apply find_some in Hf as [Hin Hm]. apply bool_decide_eq_true in Hm.
  by apply list_elem_of_In, Hno in Hin.
Qed.

Lemma select_first_Some column value rows r :
  select_first column value rows = Some r → r ∈ rows ∧ r !! column = Some value.
Proof.
  unfold select_first. intros [Hin Hm]%find_some.
  apply bool_decide_eq_true in Hm. by rewrite list_elem_of_In.
Qed.

Lemma c_str_empty : c_str EmptyString = EmptyString.
Proof. reflexivity. Qed.

Lemma set_journal_nil w : set_journal (journal w ++ []) w = w.
Proof. rewrite app_nil_r. apply world_eta. Qed.

(** [six_sql_find_by] when the database cannot answer or has no such row. *)
Lemma six_sql_find_by_absent table column value w :
  (∀ rows r, db_online w = true → tables w !! table = Some rows →
             r ∈ rows → r !! column ≠ Some (c_str value)) →
  pending_updates w !! pending_key table column (c_str value) = None →
  six_sql_find_by table column value w =
    (Ok None, set_journal (journal w ++ select_trace table column value w) w).
Proof.
  intros Hrows Hkey. unfold six_sql_find_by, select_trace.
  destruct (db_online w) eqn:Hon; cbn [negb andb]; [|by rewrite set_journal_nil].
  destruct (tables w !! table) as [rows|] eqn:Ht.
  2:{ rewrite bool_decide_false by by intros [??]. by rewrite set_journal_nil. }
  rewrite bool_decide_true by done.
  rewrite select_first_None by eauto.
  cbn [pending_updates set_journal].
  rewrite Hkey. by rewrite decide_False by by intros [??].
Qed.

Section destroy.
Context `{Primitives}.

Lemma destroy_session_absent id w :
  let s := default Session_default (session_cache w !! id) in
  (∀ r, db_online w = true → r ∈ sessions_rows w →
        r !! "session_id_hash" ≠ Some (c_str (session_id_hash s))) →
  pending_updates w !! pending_key "sessions" "session_id_hash" (c_str (session_id_hash s)) = None →
  destroy_session id w = (Ok tt, forgotten id w).
Proof.
  intros s Hrows Hkey. unfold destroy_session. run. fold s.
  rewrite six_sql_find_by_absent; [done| |done].
  intros rows r Hon Ht Hin. apply Hrows; [done|]. unfold sessions_rows. cbn in *. by rewrite Ht.
Qed.

Lemma destroy_session_unknown id w :
  session_cache w !! id = None →
  no_empty_hash w →
  pending_updates w !! empty_hash_key = None →
  destroy_session id w = (Ok tt, looked_up w).
Proof.
  intros Hmiss Hrows Hkey.
  rewrite destroy_session_absent; rewrite ?Hmiss; cbn [default session_id_hash Session_default c_str].
  - unfold forgotten, looked_up. rewrite Hmiss. cbn [default session_id_hash Session_default].
    by rewrite delete_id, set_session_cache_id.
  - intros r _. apply Hrows.
  - done.
Qed.
End destroy.

(** *** Committing one staged row *)

Lemma changed_columns_same row db_row c :
  row !! c = db_row !! c → changed_columns row db_row !! c = None.
Proof.
  intros Heq. unfold changed_columns. apply map_lookup_filter_None.
  destruct (row !! c) as [v|] eqn:Hc; [right|by left].
  intros v' ?; simplify_eq. cbn. rewrite <-Heq. cbn. naive_solver.
Qed.

Lemma six_sql_commit_singleton key row w :
  db_online w = true → pending_updates w = {[key := row]} →
  six_sql_commit w = (Ok tt, set_pending_updates ∅ (optimized (commit_row row w))).
Proof.
  intros Hon Hp. unfold six_sql_commit. rewrite Hon, Hp. cbn [negb].
  by rewrite map_to_list_singleton.
Qed.

Lemma Forall2_same_column c (rows : list (gmap string string)) :
  Forall2 (λ r' r, r' !! c = r !! c) rows rows.
Proof. by apply Forall_Forall2_diag, Forall_forall. Qed.

(** Committing a row leaves alone the columns in which the staged row agrees
    with the database. *)
Lemma commit_row_column row w c t rows' :
  (∀ rows, tables w !! table_name row = Some rows →
     columns row !! c =
       default ∅ (select_first (where_column row) (where_value row) rows) !! c) →
  tables (commit_row row w) !! t = Some rows' →
  ∃ rows, tables w !! t = Some rows ∧ Forall2 (λ r' r, r' !! c = r !! c) rows' rows.
Proof.
  intros Hsame. unfold commit_row.
  destruct (tables w !! table_name row) as [rows|] eqn:Ht.
  2:{ intros ?. exists rows'. split; [done|]. apply Forall2_same_column. }
  specialize (Hsame rows eq_refl).
  case_decide as Hch.
  { intros ?. exists rows'. split; [done|]. apply Forall2_same_column. }
  cbn [tables set_journal set_tables].
  destruct (decide (t = table_name row)) as [->|Hne].
  - rewrite lookup_insert_eq. intros ?; simplify_eq. exists rows. split; [done|].
    apply Forall2_fmap_l, Forall_Forall2_diag, Forall_forall. intros r _.
    unfold compose. destruct (decide _); [|done].
    apply lookup_union_r. rewrite lookup_fmap, changed_columns_same; done.
  - rewrite lookup_insert_ne by done. intros ?. exists rows'. split; [done|].
    apply Forall2_same_column.
Qed.

Lemma commit_row_process row w :
  same_process w (commit_row row w) .
Proof.
  unfold commit_row, same_process. repeat case_match; done.
Qed.

Lemma select_first_None_inv column value rows r :
  select_first column value rows = None → r ∈ rows → r !! column ≠ Some value.
Proof.
  unfold select_first. intros Hf Hin%list_elem_of_In.
  apply (find_none _ _ Hf) in Hin. by apply bool_decide_eq_false in Hin.
Qed.

Lemma six_sql_find_by_found table column value w rows r :
  db_online w = true → tables w !! table = Some rows →
  select_first column (c_str value) rows = Some r →
  six_sql_find_by table column value w =
    (Ok (Some (pending_key table column (c_str value))),
     set_pending_updates
       (<[pending_key table column (c_str value) := staged table column (c_str value) r]>
          (pending_updates w))
       (set_journal (journal w ++ [SqlSelect table column (c_str value)]) w)).
Proof.
  intros Hon Ht Hsel. unfold six_sql_find_by. rewrite Hon, Ht, Hsel. cbn [negb].
  cbn [pending_updates set_pending_updates set_journal]. rewrite lookup_insert_eq.
  by rewrite decide_True by done.
Qed.

Lemma row_bool_staged key sr w :
  pending_updates w !! key = Some sr → columns sr ≠ ∅ → row_bool (Some key) w = (Ok true, w).
Proof. intros Hk Hne. unfold row_bool. rewrite Hk. by rewrite bool_decide_true. Qed.

Lemma row_set_staged key sr col value w :
  pending_updates w !! key = Some sr →
  row_set (Some key) col value w =
    (Ok tt, set_pending_updates
              (<[key := staged (table_name sr) (where_column sr) (where_value sr)
                          (<[col := value]> (columns sr))]> (pending_updates w)) w).
Proof. intros Hk. unfold row_set. by rewrite Hk. Qed.

Section destroy_twice.
Context `{Primitives}.

Lemma no_empty_hash_frame w w' :
  (∀ rows', tables w' !! "sessions" = Some rows' →
     ∃ rows, tables w !! "sessions" = Some rows
             ∧ Forall2 (λ r' r, r' !! "session_id_hash" = r !! "session_id_hash") rows' rows) →
  no_empty_hash w → no_empty_hash w'.
Proof.
  intros Hfr Hno r' Hin. unfold sessions_rows in Hin.
  destruct (tables w' !! "sessions") as [rows'|] eqn:Ht'; [|by apply elem_of_nil in Hin].
  destruct (Hfr rows' eq_refl) as (rows & Ht & Hall).
  apply list_elem_of_lookup in Hin as [i Hi].
  destruct (Forall2_lookup_l _ _ _ _ _ Hall Hi) as (r & Hr & Heq).
  rewrite Heq. apply Hno. unfold sessions_rows. rewrite Ht. by eapply list_elem_of_lookup_2.
Qed.

Lemma commit_row_journal sr w rows r0 :
  tables w !! table_name sr = Some rows →
  select_first (where_column sr) (where_value sr) rows = Some r0 →
  let changed := changed_columns (columns sr) r0 in
  journal (commit_row sr w) =
    journal w ++ SqlSelect (table_name sr) (where_column sr) (where_value sr)
      :: if decide (changed = ∅) then []
         else [SqlUpdate (table_name sr) (c_str <$> changed) (where_column sr) (where_value sr)].
Proof.
  intros Ht Hsel changed. unfold commit_row. rewrite Ht, Hsel. cbn [default]. unfold id.
  fold changed. destruct (decide (changed = ∅)); cbn; [done|].
  by rewrite <-(assoc_L (++)).
Qed.

Lemma changed_columns_lookup row db_row c :
  changed_columns row db_row !! c
  = x ← row !! c; if decide (default EmptyString (db_row !! c) ≠ x) then Some x else None.
Proof.
  unfold changed_columns. destruct (row !! c) as [x|] eqn:Hrow; cbn.
  - destruct (decide (default EmptyString (db_row !! c) ≠ x)) as [Hne|Heq].
    + by apply map_lookup_filter_Some.
    + apply map_lookup_filter_None. right. intros x' Hx'. cbn.
      assert (x' = x) as -> by congruence. exact Heq.
  - apply map_lookup_filter_None. left. done.
Qed.

(** Only what was assigned to a staged row can differ from the row in the
    database. *)
Lemma changed_columns_staged (values r0 : gmap string string) :
  changed_columns (values ∪ r0) r0 ⊆ values.
Proof.
  apply map_subseteq_spec. intros c x. rewrite changed_columns_lookup.
  destruct ((values ∪ r0) !! c) as [y|] eqn:Hy; cbn; [|done].
  case_decide as Hne; [|done]. intros [= ->].
  apply lookup_union_Some_raw in Hy as [Hy|[Hnone Hy]]; [done|].
  by rewrite Hy in Hne.
Qed.

Lemma commit_row_assigns h vals values r0 rows w :
  tables w !! "sessions" = Some rows →
  select_first "session_id_hash" (c_str h) rows = Some r0 →
  vals ⊆ values → dom values ⊆ saved_columns →
  grows (λ st, hash_keyed st ∧ writes h values st) w
    (commit_row (staged "sessions" "session_id_hash" (c_str h) (vals ∪ r0)) w).
Proof.
  intros Ht Hsel Hvals Hdom.
  pose proof (commit_row_journal (staged "sessions" "session_id_hash" (c_str h) (vals ∪ r0))
                w rows r0 Ht Hsel) as Hj.
  cbn [staged table_name where_column where_value columns] in Hj. cbn zeta in Hj.
  pose proof (changed_columns_staged vals r0) as Hsub.
  eexists. split; [exact Hj|].
  apply Forall_cons. split; [split; [done|by intros ???? [=]]|].
  case_decide; [done|]. apply Forall_singleton. split.
  - intros _. split; [done|]. rewrite dom_fmap_L.
    etrans; [|exact Hdom]. apply subseteq_dom. by etrans.
  - intros ???? [= <- <- <- <-] _. split_and!; try done. apply map_fmap_mono. by etrans.
Qed.

Lemma grows_impl (P Q : Statement → Prop) w w' :
  (∀ st, P st → Q st) → grows P w w' → grows Q w w'.
Proof. intros HPQ (j & Hj & HP). exists j. split; [done|]. by eapply Forall_impl. Qed.

Lemma destroy_session_settles id w :
  pending_updates w = ∅ →
  ∃ w1, destroy_session id w = (Ok tt, w1)
        ∧ session_cache w1 = delete id (session_cache w)
        ∧ (no_empty_hash w → no_empty_hash w1) ∧ pending_updates w1 = ∅.
Proof.
  intros Hp.
  set (s := default Session_default (session_cache w !! id)).
  set (h := c_str (session_id_hash s)).
  assert (Habsent :
    (∀ r, db_online w = true → r ∈ sessions_rows w → r !! "session_id_hash" ≠ Some h) →
    ∃ w1, destroy_session id w = (Ok tt, w1)
          ∧ session_cache w1 = delete id (session_cache w)
          ∧ (no_empty_hash w → no_empty_hash w1) ∧ pending_updates w1 = ∅).
  { intros Hrows. rewrite destroy_session_absent; [|done|by rewrite Hp].
    eexists; split; [done|]. by split_and!. }
  destruct (db_online w) eqn:Hon; [|by apply Habsent].
  destruct (tables w !! "sessions") as [rows|] eqn:Ht.
  2:{ apply Habsent. intros r _. unfold sessions_rows. rewrite Ht. by intros ?%elem_of_nil. }
  destruct (select_first "session_id_hash" h rows) as [r|] eqn:Hsel.
  2:{ apply Habsent. intros r _. unfold sessions_rows. rewrite Ht. cbn.
      by apply select_first_None_inv. }
  clear Habsent. apply select_first_Some in Hsel as Hr. destruct Hr as [Hin Hrh].
  set (key := pending_key "sessions" "session_id_hash" h).
  set (w0 := set_session_cache (delete id (session_cache w)) w).
  unfold destroy_session. run. fold s w0.
  rewrite (six_sql_find_by_found _ _ _ w0 rows r) by done. fold h key.
  set (w1 := set_pending_updates _ _).
  rewrite (row_bool_staged key (staged "sessions" "session_id_hash" h r) w1).
  2:{ subst w1. cbn. by rewrite lookup_insert_eq. }
  2:{ cbn. intros Hempty. by rewrite Hempty in Hrh. }
  rewrite (row_set_staged key (staged "sessions" "session_id_hash" h r) _ _ w1).
  2:{ subst w1. cbn. by rewrite lookup_insert_eq. }
  cbn [table_name where_column where_value columns staged].
  fold (staged "sessions" "session_id_hash" h (<["is_valid":="0"]> r)).
  set (row' := staged "sessions" "session_id_hash" h (<["is_valid":="0"]> r)).
  set (w2 := set_pending_updates _ w1).
  rewrite (six_sql_commit_singleton key row' w2); [|done|].
  2:{ subst w2 w1 w0. cbn. by rewrite Hp, insert_insert_eq, insert_empty. }
  set (w3 := set_pending_updates ∅ (optimized (commit_row row' w2))).
  destruct (log_session_event_run id (user_id s) "logout" EmptyString EmptyString
              "Session destroyed - user logged out" w3)
    as (w4 & -> & Hc4 & Ht4 & He4 & Hd4 & Hp4 & Hi4 & Hs4 & Hu4 & Hr4 & Hl4 & Hj4 & Htab4 & _).
  exists w4. split; [done|].
  destruct (commit_row_process row' w2) as (_ & _ & _ & _ & _ & _ & _ & Hs3 & _).
  split; [by rewrite Hs4; cbn; rewrite Hs3|].
  assert (Hsame : ∀ c, c ≠ "is_valid" → ∀ rows0, tables w2 !! "sessions" = Some rows0 →
            columns row' !! c = default ∅ (select_first "session_id_hash" h rows0) !! c).
  { intros c Hc rows0 Ht0. assert (rows0 = rows) as -> by (cbn in Ht0; congruence).
    rewrite Hsel. cbn. by rewrite lookup_insert_ne. }
  split.
  - apply no_empty_hash_frame.
    intros rows'. rewrite Htab4 by done.
    cbn [w3 tables set_pending_updates optimized set_journal]. intros Hrows'.
    apply (commit_row_column row' w2 "session_id_hash") in Hrows'; [exact Hrows'|].
    by apply Hsame.
  - by rewrite Hp4.
Qed.

Lemma looked_up_spec w :
  same_process w (looked_up w) ∧ tables (looked_up w) = tables w
  ∧ journal (looked_up w) = journal w ++ select_trace "sessions" "session_id_hash" EmptyString w.
Proof. done. Qed.

(** C8.  [destroy_session] never throws.  For an id that is not in the
    cache it changes neither the cache nor the tables nor the audit queue;
    all it sends to the database is the one lookup.  Called a second time
    on the same id it is that no-op, so twice has the effect of once.  The
    store is one in which no session row has an empty hash (the rows
    [create_session] writes are such), with no write staged for that
    key. *)
Theorem destroy_session_idempotent id w :
  no_empty_hash w →
  (session_cache w !! id = None → pending_updates w !! empty_hash_key = None →
     ∃ w', destroy_session id w = (Ok tt, w')
           ∧ same_process w w' ∧ tables w' = tables w
           ∧ journal w' = journal w ++ select_trace "sessions" "session_id_hash" EmptyString w)
  ∧ (pending_updates w = ∅ →
     ∃ w1 w2, destroy_session id w = (Ok tt, w1) ∧ destroy_session id w1 = (Ok tt, w2)
           ∧ same_process w1 w2 ∧ tables w2 = tables w1
           ∧ journal w2 = journal w1 ++ select_trace "sessions" "session_id_hash" EmptyString w1)
  ∧ (∃ w1, destroy_session id w = (Ok tt, w1)).
Proof.
  intros Hno. split; [|split].
  - intros. exists (looked_up w). split; [by apply destroy_session_unknown|apply looked_up_spec].
  - intros Hp. destruct (destroy_session_settles id w Hp) as (w1 & Hrun & Hc & Hno1 & Hp1).
    exists w1, (looked_up w1). split; [done|]. split; [|apply looked_up_spec].
    apply destroy_session_unknown; [|by apply Hno1|].
    + by rewrite Hc, lookup_delete_eq.
    + by rewrite Hp1.
  - unfold destroy_session. run.
    destruct (six_sql_find_by _ _ _ _) as [[row|e] w1]; [|eauto].
    destruct (row_bool row w1) as [[[]|e] w2] eqn:Hb; [|eauto..].
    destruct (row_set _ _ _ _) as [[[]|e] w3]; [|eauto].
    destruct (six_sql_commit _) as [[[]|e] w4]; [|eauto].
    destruct (SessionAuditLogger.log_session_event _ _ _ _ _ _ _) as [[[]|e] w5]; eauto.
Qed.

End destroy_twice.

(** ** [create_session] *)

Section create.
Context `{Primitives}.

Lemma hash_with_salt_run data salt w :
  SecureSessionHash.hash_with_salt data salt w = (digest data salt, w).
Proof.
  unfold SecureSessionHash.hash_with_salt, digest. run.
  destruct (argon2id_hash_raw _ _ _ _ _ _). by case_decide.
Qed.

Lemma generate_random_salt_run n w :
  SaltGenerator.generate_random_salt n w =
    if decide (n ≤ length (entropy w))%nat
    then (Ok (Hex.encode (take n (entropy w))), set_entropy (drop n (entropy w)) w)
    else (Throw "Failed to generate salt", w).
Proof.
  unfold SaltGenerator.generate_random_salt, RAND_bytes. run. by case_decide.
Qed.

Lemma generate_secure_random_bytes_run n w :
  generate_secure_random_bytes n w =
    if decide (n ≤ length (entropy w))%nat
    then (Ok (Hex.encode (take n (entropy w))), set_entropy (drop n (entropy w)) w)
    else (Throw "Failed to generate random bytes", w).
Proof.
  unfold generate_secure_random_bytes, RAND_bytes. run. by case_decide.
Qed.

Lemma timestamp_now_run w :
  timestamp_now w = (Ok (strftime_utc (clock w (ticks w))), set_ticks (S (ticks w)) w).
Proof. reflexivity. Qed.

Lemma timestamp_plus_hours_run h w :
  timestamp_plus_hours h w =
    (Ok (strftime_utc (clock w (ticks w) + 3600 * h)), set_ticks (S (ticks w)) w).
Proof. reflexivity. Qed.

Lemma try_catch_insert table row w :
  try_catch (six_sql_insert table row) (mret tt) w = six_sql_insert table row w.
Proof.
  destruct (six_sql_insert_run table row w) as (w' & Hrun & _).
  unfold try_catch. by rewrite Hrun.
Qed.

Lemma create_session_throttled uid ip ua w :
  throttled ip w →
  ∃ w', create_session uid ip ua w = (Throw "Too many login attempts. Try again later.", w').
Proof.
  intros Hthr. unfold create_session.
  erewrite bind_ok; [|apply is_rate_limited_run].
  rewrite bool_decide_true by done. run. eauto.
Qed.

Lemma create_session_inv uid ip ua w s w' :
  create_session uid ip ua w = (Ok s, w') →
  let e := entropy w in
  let row := session_row s (SessionEncryption.encrypt_session_data (data s)) in
  let entry := create_entry s (clock w (ticks w + 4)) in
  ¬ throttled ip w
  ∧ (96 ≤ length e)%nat
  ∧ session_id s = Hex.encode (take 32 e)
  ∧ session_salt s = Hex.encode (take 16 (drop 32 e))
  ∧ digest (session_id s) (session_salt s) = Ok (session_id_hash s)
  ∧ refresh_token s = Hex.encode (take 32 (drop 48 e))
  ∧ digest (refresh_token s) (Hex.encode (take 16 (drop 80 e))) = Ok (refresh_token_hash s)
  ∧ user_id s = uid ∧ ip_address s = ip ∧ user_agent s = ua
  ∧ exists_ s = true ∧ is_valid s = true
  ∧ expires_at s = strftime_utc (clock w (ticks w + 2) + 3600 * 1)
  ∧ refresh_expires_at s = strftime_utc (clock w (ticks w + 3) + 3600 * (30 * 24))
  ∧ session_cache w' = <[session_id s := s]> (session_cache w)
  ∧ log_queue w' = log_queue w ++ [entry]
  ∧ journal w' = journal w ++ insert_writes "sessions" row w
                           ++ insert_writes "session_audit_log" (SessionAuditLogger.audit_row entry) w
  ∧ pending_updates w' = pending_updates w
  ∧ db_online w' = db_online w
  ∧ sessions_rows w' = sessions_rows w ++ insert_rows "sessions" row w.
Proof.
  intros Hrun. unfold create_session in Hrun.
  apply bind_ok_inv in Hrun as (limited & w1 & Hlim & Hrun).
  rewrite is_rate_limited_run in Hlim. simplify_eq.
  case_bool_decide as Hthr; [by revert Hrun; run|].
  apply bind_ok_inv in Hrun as (sid & w2 & Hsid & Hrun).
  unfold generate_session_id in Hsid. rewrite generate_secure_random_bytes_run in Hsid.
  case_decide as He1; simplify_eq.
  apply bind_ok_inv in Hrun as (salt & w3 & Hsalt & Hrun).
  unfold SaltGenerator.get_unique_salt in Hsalt. rewrite generate_random_salt_run in Hsalt.
  case_decide as He2; simplify_eq.
  apply bind_ok_inv in Hrun as (sid_hash & w4 & Hh1 & Hrun).
  rewrite hash_with_salt_run in Hh1. simplify_eq.
  apply bind_ok_inv in Hrun as (created & w5 & Hcr & Hrun).
  rewrite timestamp_now_run in Hcr. simplify_eq.
  apply bind_ok_inv in Hrun as (expires & w6 & Hex & Hrun).
  rewrite timestamp_plus_hours_run in Hex. simplify_eq.
  apply bind_ok_inv in Hrun as (refresh & w7 & Hrf & Hrun).
  rewrite generate_secure_random_bytes_run in Hrf.
  case_decide as He3; simplify_eq.
  apply bind_ok_inv in Hrun as (rsalt & w8 & Hrsalt & Hrun).
  unfold SaltGenerator.get_unique_salt in Hrsalt. rewrite generate_random_salt_run in Hrsalt.
  case_decide as He4; simplify_eq.
  apply bind_ok_inv in Hrun as (refresh_hash & w9 & Hh2 & Hrun).
  rewrite hash_with_salt_run in Hh2. simplify_eq.
  apply bind_ok_inv in Hrun as (rexp & w10 & Hrexp & Hrun).
  unfold timestamp_plus_days in Hrexp. rewrite timestamp_plus_hours_run in Hrexp. simplify_eq.
  apply bind_ok_inv in Hrun as ([] & w11 & Hmod & Hrun).
  revert Hmod. run. intros Hmod. simplify_eq.
  apply bind_ok_inv in Hrun as ([] & w12 & Hins & Hrun).
  apply bind_ok_inv in Hrun as ([] & w13 & Hlog & Hrun).
  apply bind_ok_inv in Hrun as ([] & w14 & Hclr & Hrun).
  revert Hrun. run. intros Hrun. simplify_eq.
  cbn [entropy ticks clock set_ticks set_entropy set_ip_attempts set_session_cache] in *.
  match type of Hins with context [session_row ?s0 _] => set (s := s0) in * end.
  match type of Hins with try_catch _ _ ?w0 = _ => set (w11 := w0) in * end.
  rewrite try_catch_insert in Hins.
  destruct (six_sql_insert_run "sessions"
              (session_row s (SessionEncryption.encrypt_session_data (data s))) w11)
    as (w12' & Hins' & (Hc12 & Ht12 & He12 & Hd12 & Hp12 & Hi12 & Hl12 & Hs12 & Hu12 & Hr12)
        & Hj12 & Htab12 & Hsome12 & Hrows12).
  rewrite Hins' in Hins. simplify_eq.
  destruct (log_session_event_run (session_id s) uid "create" ip ua "New session created" w12)
    as (w13' & Hlog' & Hc13 & Ht13 & He13 & Hd13 & Hp13 & Hi13 & Hs13 & Hu13 & Hr13 & Hl13
        & Hj13 & Htab13 & Hsome13).
  change (Hex.encode (take 32 (entropy w))) with (session_id s) in Hlog.
  rewrite Hlog' in Hlog. simplify_eq.
  revert Hclr. unfold RateLimiter.clear_failed_attempts. run. intros Hclr. simplify_eq.
  cbn [session_cache log_queue journal pending_updates db_online set_ip_attempts].
  assert (Hdrop : ∀ a b (l : list ascii), drop a (drop b l) = drop (b + a) l)
    by (intros; by rewrite drop_drop).
  rewrite !Hdrop in *. cbn [Nat.add] in *.
  rewrite !length_drop in *.
  replace (ticks w + 4)%nat with (S (S (S (S (ticks w))))) by lia.
  replace (ticks w + 3)%nat with (S (S (S (ticks w)))) by lia.
  replace (ticks w + 2)%nat with (S (S (ticks w))) by lia.
  split_and!; try done.
  - lia.
  - subst s. cbn. by rewrite Hdrop.
  - subst s. cbn. by rewrite Hdrop.
  - by rewrite Hs13, Hs12.
  - rewrite Hl13, Hl12, Hc12, Ht12. done.
  - rewrite Hj13, Hj12, <-(assoc_L (++)). f_equal. f_equal.
    unfold insert_writes. rewrite Hd12, Hc12, Ht12.
    by rewrite (bool_decide_ext _ _ (Hsome12 "session_audit_log")).
  - by rewrite Hp13, Hp12.
  - by rewrite Hd13, Hd12.
  - unfold sessions_rows. by rewrite Htab13, Hrows12.
Qed.

Lemma create_session_fields uid ip ua w s w' :
  create_session uid ip ua w = (Ok s, w') →
  data s = "{}"
  ∧ created_at s = strftime_utc (clock w (ticks w + 1))
  ∧ updated_at s = created_at s ∧ last_activity s = created_at s.
Proof.
  intros Hrun. unfold create_session in Hrun.
  apply bind_ok_inv in Hrun as (limited & w1 & Hlim & Hrun).
  rewrite is_rate_limited_run in Hlim. simplify_eq.
  case_bool_decide as Hthr; [by revert Hrun; run|].
  apply bind_ok_inv in Hrun as (sid & w2 & Hsid & Hrun).
  unfold generate_session_id in Hsid. rewrite generate_secure_random_bytes_run in Hsid.
  case_decide as He1; simplify_eq.
  apply bind_ok_inv in Hrun as (salt & w3 & Hsalt & Hrun).
  unfold SaltGenerator.get_unique_salt in Hsalt. rewrite generate_random_salt_run in Hsalt.
  case_decide as He2; simplify_eq.
  apply bind_ok_inv in Hrun as (sid_hash & w4 & Hh1 & Hrun).
  rewrite hash_with_salt_run in Hh1. simplify_eq.
  apply bind_ok_inv in Hrun as (created & w5 & Hcr & Hrun).
  rewrite timestamp_now_run in Hcr. simplify_eq.
  apply bind_ok_inv in Hrun as (expires & w6 & Hex & Hrun).
  apply bind_ok_inv in Hrun as (refresh & w7 & Hrf & Hrun).
  apply bind_ok_inv in Hrun as (rsalt & w8 & Hrsalt & Hrun).
  apply bind_ok_inv in Hrun as (refresh_hash & w9 & Hh2 & Hrun).
  apply bind_ok_inv in Hrun as (rexp & w10 & Hrexp & Hrun).
  apply bind_ok_inv in Hrun as ([] & w11 & Hmod & Hrun).
  apply bind_ok_inv in Hrun as ([] & w12 & Hins & Hrun).
  apply bind_ok_inv in Hrun as ([] & w13 & Hlog & Hrun).
  apply bind_ok_inv in Hrun as ([] & w14 & Hclr & Hrun).
  revert Hrun. run. intros Hrun. simplify_eq.
  cbn [data created_at updated_at last_activity ticks clock set_ticks set_entropy
       set_ip_attempts].
  replace (ticks w + 1)%nat with (S (ticks w)) by lia. done.
Qed.

(** What [create_session] adds to the sessions table is a row hashed with
    the salt it stores, and its hash is not empty. *)
Lemma encode_hash_buffer_nonempty written :
  Hex.encode (SecureSessionHash.hash_buffer written) ≠ EmptyString.
Proof.
  unfold SecureSessionHash.hash_buffer.
  destruct (take 32 (written ++ replicate 32 zero)) as [|b l] eqn:Htake.
  - apply (f_equal length) in Htake.
    rewrite length_take, length_app, length_replicate in Htake.
    change (length (@nil ascii)) with 0%nat in Htake. lia.
  - cbn [Hex.encode]. unfold Hex.of_byte. cbn. discriminate.
Qed.

Lemma digest_nonempty d s h : digest d s = Ok h → h ≠ EmptyString.
Proof.
  unfold digest. destruct (argon2id_hash_raw _ _ _ _ _ _). case_decide; intros; simplify_eq.
  apply encode_hash_buffer_nonempty.
Qed.

End create.

(** *** [save_session] *)

Lemma row_set_single key sr col value w :
  pending_updates w = {[key := sr]} →
  row_set (Some key) col value w =
    (Ok tt, set_pending_updates
              {[key := staged (table_name sr) (where_column sr) (where_value sr)
                         (<[col := value]> (columns sr))]} w).
Proof.
  intros Hp. rewrite (row_set_staged key sr) by by rewrite Hp, lookup_singleton_eq.
  by rewrite Hp, insert_singleton_eq.
Qed.

Section save.
Context `{Primitives}.

End save.

(** *** Commits while other rows are staged *)

Lemma row_set_at key sr col value staged0 w :
  pending_updates w = <[key := sr]> staged0 →
  row_set (Some key) col value w =
    (Ok tt, set_pending_updates
              (<[key := staged (table_name sr) (where_column sr) (where_value sr)
                          (<[col := value]> (columns sr))]> staged0) w).
Proof.
  intros Hp. rewrite (row_set_staged key sr) by by rewrite Hp, lookup_insert_eq.
  by rewrite Hp, insert_insert_eq.
Qed.

Section staged.
Context `{Primitives} (Q : Statement → Prop).
Hypothesis Q_elsewhere : ∀ st, elsewhere st → Q st.
Hypothesis Q_optimize : Q PRAGMA_optimize.
Hypothesis Q_audit : ∀ row, Q (SqlInsert "session_audit_log" row).

Lemma commit_row_elsewhere sr w :
  table_name sr ≠ "sessions" →
  grows Q w (commit_row sr w)
  ∧ tables (commit_row sr w) !! "sessions" = tables w !! "sessions".
Proof.
  intros Hne. unfold commit_row.
  destruct (tables w !! table_name sr) as [rows|]; [|split; [by apply grows_refl|done]].
  case_decide.
  - split; [|done]. eexists [_]. split; [done|]. apply Forall_singleton. by apply Q_elsewhere.
  - split.
    + eexists [_; _]. split; [by cbn; rewrite <-(assoc_L (++))|].
      repeat constructor; by apply Q_elsewhere.
    + cbn. by rewrite lookup_insert_ne.
Qed.

Lemma commit_rows_elsewhere (l : list (string * SQLRow)) w :
  Forall (λ kr, table_name kr.2 ≠ "sessions") l →
  grows Q w (foldl (λ w kr, commit_row kr.2 w) w l)
  ∧ tables (foldl (λ w kr, commit_row kr.2 w) w l) !! "sessions" = tables w !! "sessions".
Proof.
  intros Hl. revert w. induction Hl as [|kr l Hkr _ IH]; intros w; cbn [foldl].
  - split; [by apply grows_refl|done].
  - destruct (commit_row_elsewhere kr.2 w Hkr) as [Hg Ht].
    destruct (IH (commit_row kr.2 w)) as [Hg' Ht'].
    split; [by eapply grows_trans|by rewrite Ht', Ht].
Qed.

(** A commit with one row of the sessions table staged, under [key]. *)
Lemma six_sql_commit_staged key row staged0 w :
  db_online w = true →
  pending_updates w = <[key := row]> staged0 →
  (∀ k sr, k ≠ key → staged0 !! k = Some sr → table_name sr ≠ "sessions") →
  (∀ w0, tables w0 !! "sessions" = tables w !! "sessions" → grows Q w0 (commit_row row w0)) →
  ∃ w', six_sql_commit w = (Ok tt, w') ∧ grows Q w w'.
Proof.
  clear Q_audit. intros Hon Hp Hothers Hrow. unfold six_sql_commit. rewrite Hon. cbn [negb].
  set (l := merge_sort key_le (map_to_list (pending_updates w))).
  assert (Hperm : l ≡ₚ map_to_list (pending_updates w)) by apply merge_sort_Permutation.
  assert (Hin : (key, row) ∈ l).
  { rewrite Hperm. apply elem_of_map_to_list. by rewrite Hp, lookup_insert_eq. }
  assert (Hnd : NoDup l) by (rewrite Hperm; apply NoDup_map_to_list).
  assert (Hforeign : ∀ kr, kr ∈ l → kr ≠ (key, row) → table_name kr.2 ≠ "sessions").
  { intros [k sr] Hkr Hne. rewrite Hperm in Hkr. apply elem_of_map_to_list in Hkr.
    rewrite Hp in Hkr. apply lookup_insert_Some in Hkr as [[-> ->]|[Hk Hsr]]; [done|].
    by eapply Hothers. }
  apply list_elem_of_split in Hin as (l1 & l2 & Hl).
  rewrite Hl in Hnd, Hforeign.
  apply NoDup_app in Hnd as (_ & Hnd1 & Hnd2). apply NoDup_cons in Hnd2 as [Hnd2 _].
  assert (H1 : Forall (λ kr, table_name kr.2 ≠ "sessions") l1).
  { apply Forall_forall. intros kr Hkr. apply Hforeign; [set_solver|].
    intros ->. apply (Hnd1 _ Hkr). by left. }
  assert (H2 : Forall (λ kr, table_name kr.2 ≠ "sessions") l2).
  { apply Forall_forall. intros kr Hkr. apply Hforeign; [set_solver|].
    by intros ->. }
  eexists. split; [done|].
  rewrite Hl, foldl_app. cbn [foldl snd].
  destruct (commit_rows_elsewhere l1 w H1) as [Hg1 Ht1].
  set (wa := foldl _ w l1) in *.
  pose proof (Hrow wa Ht1) as Hg2.
  destruct (commit_rows_elsewhere l2 (commit_row row wa) H2) as [Hg3 _].
  eapply grows_trans; [exact Hg1|]. eapply grows_trans; [exact Hg2|].
  eapply grows_trans; [exact Hg3|].
  eexists [_]. split; [done|]. by apply Forall_singleton.
Qed.

Lemma settles_ret {A} (a : A) : settles Q (mret a).
Proof. intros w r w' Hw. run. intros ?; simplify_eq. split; [done|by apply grows_refl]. Qed.

Lemma settles_bind {A B} (m : M A) (f : A → M B) :
  settles Q m → (∀ a, settles Q (f a)) → settles Q (m ≫= f).
Proof.
  intros Hm Hf w r w' Hw. unfold mbind, M_bind.
  destruct (m w) as [[a|e] w1] eqn:Hmw; intros Hrun.
  - destruct (Hm _ _ _ Hw Hmw) as [Hw1 Hg1].
    destruct (Hf a _ _ _ Hw1 Hrun) as [Hw' Hg']. split; [done|by eapply grows_trans].
  - simplify_eq. by eapply Hm.
Qed.

Lemma settles_row_bool row : settles Q (row_bool row).
Proof.
  intros w r w' Hw. unfold row_bool. intros ?; simplify_eq. split; [done|by apply grows_refl].
Qed.

Lemma settles_row_set row c v : settles Q (row_set row c v).
Proof.
  intros w r w' Hw. unfold row_set.
  destruct row as [key|]; [|intros ?; simplify_eq; split; [done|by apply grows_refl]].
  destruct (pending_updates w !! key) as [sr|] eqn:Hk; intros ?; simplify_eq;
    (split; [|by apply grows_refl]); [|done].
  intros k sr'. cbn. intros [[<- <-]|[? ?]]%lookup_insert_Some; cbn; by eapply Hw.
Qed.

Lemma settles_timestamp_now : settles Q timestamp_now.
Proof.
  intros w r w' Hw. rewrite timestamp_now_run. intros ?; simplify_eq.
  split; [done|by apply grows_refl].
Qed.

Lemma settles_six_sql_commit : settles Q six_sql_commit.
Proof.
  intros w r w' Hw. unfold six_sql_commit.
  destruct (db_online w); cbn [negb]; intros ?; simplify_eq;
    [|split; [done|by apply grows_refl]].
  split; [by intros k sr; cbn; rewrite lookup_empty|].
  destruct (commit_rows_elsewhere (merge_sort key_le (map_to_list (pending_updates w))) w)
    as [Hg _].
  { apply Forall_forall. intros [k sr] Hin. rewrite merge_sort_Permutation in Hin.
    apply elem_of_map_to_list in Hin. by eapply Hw. }
  eapply grows_trans; [exact Hg|]. eexists [_]. split; [done|]. by apply Forall_singleton.
Qed.

Lemma settles_log_session_event sid uid action ip ua details :
  settles Q (SessionAuditLogger.log_session_event sid uid action ip ua details).
Proof.
  intros w r w' Hw Hrun.
  destruct (log_session_event_run sid uid action ip ua details w)
    as (w1 & Hrun' & _ & _ & _ & _ & Hp & _ & _ & _ & _ & _ & Hj & _).
  rewrite Hrun' in Hrun. simplify_eq. split.
  - intros k sr. rewrite Hp. apply Hw.
  - eexists. split; [exact Hj|]. unfold insert_writes. case_match; repeat constructor; auto.
Qed.

(** A lookup in the sessions table by hash and what follows it, when the
    rest of the computation settles unless the row was found. *)
Lemma six_sql_find_by_then {A} h (rest : SQLRowRef → M A) w r w' :
  let key := pending_key "sessions" "session_id_hash" (c_str h) in
  none_staged w →
  Q (SqlSelect "sessions" "session_id_hash" (c_str h)) →
  (∀ row, settles Q (rest row)) →
  (∀ rows r0, db_online w = true → tables w !! "sessions" = Some rows →
     select_first "session_id_hash" (c_str h) rows = Some r0 →
     let w1 := set_pending_updates
                 (<[key := staged "sessions" "session_id_hash" (c_str h) r0]>
                    (pending_updates w))
                 (set_journal
                    (journal w ++ [SqlSelect "sessions" "session_id_hash" (c_str h)]) w) in
     grows Q w1 (rest (Some key) w1).2) →
  (six_sql_find_by "sessions" "session_id_hash" h ≫= rest) w = (r, w') →
  grows Q w w'.
Proof.
  intros key Hw Hsel Hrest Hfound.
  assert (Habsent : ∀ ref j, Forall Q j →
            six_sql_find_by "sessions" "session_id_hash" h w
            = (Ok ref, set_journal (journal w ++ j) w) →
            (six_sql_find_by "sessions" "session_id_hash" h ≫= rest) w = (r, w') →
            grows Q w w').
  { intros ref j Hj Hfind. erewrite bind_ok by exact Hfind. intros Hrun.
    destruct (Hrest ref (set_journal (journal w ++ j) w) _ _ Hw Hrun) as [_ Hg].
    eapply grows_trans; [|exact Hg]. by exists j. }
  destruct (db_online w) eqn:Hon.
  2:{ apply (Habsent None []); [done|]. unfold six_sql_find_by. rewrite Hon. cbn [negb].
      by rewrite set_journal_nil. }
  destruct (tables w !! "sessions") as [rows|] eqn:Ht.
  2:{ apply (Habsent None []); [done|]. unfold six_sql_find_by. rewrite Hon, Ht. cbn [negb].
      by rewrite set_journal_nil. }
  destruct (select_first "session_id_hash" (c_str h) rows) as [r0|] eqn:Hr0.
  2:{ eapply (Habsent _ [_]); [by apply Forall_singleton|].
      unfold six_sql_find_by. rewrite Hon, Ht, Hr0. cbn [negb]. done. }
  clear Habsent.
  rewrite (bind_ok _ _ _ _ _ (six_sql_find_by_found _ _ _ w rows r0 Hon Ht Hr0)).
  fold key. set (w1 := set_pending_updates _ _). intros Hrun.
  apply (grows_trans _ w w1 w').
  { eexists [_]. split; [done|by apply Forall_singleton]. }
  specialize (Hfound rows r0 eq_refl eq_refl Hr0). cbn zeta in Hfound. fold w1 in Hfound.
  by rewrite Hrun in Hfound.
Qed.

End staged.

Section save_staged.
Context `{Primitives}.

Lemma writes_elsewhere h values st :
  elsewhere st → hash_keyed st ∧ writes h values st.
Proof.
  destruct st; cbn; try done; intros Hne; (split; [done|]); intros ???? [=]; by subst.
Qed.

Lemma writes_optimize h values :
  hash_keyed PRAGMA_optimize ∧ writes h values PRAGMA_optimize.
Proof. split; [by left|by intros ???? [=]]. Qed.

Lemma writes_audit h values row :
  hash_keyed (SqlInsert "session_audit_log" row)
  ∧ writes h values (SqlInsert "session_audit_log" row).
Proof. split; [by intros [=]|by intros ???? [=]]. Qed.

Lemma writes_select h values :
  hash_keyed (SqlSelect "sessions" "session_id_hash" (c_str h))
  ∧ writes h values (SqlSelect "sessions" "session_id_hash" (c_str h)).
Proof. split; [done|by intros ???? [=]]. Qed.

Lemma saved_values_staged s w (r0 : gmap string string) :
  <["is_valid" := if is_valid s then "1" else "0"]>
    (<["last_activity" := strftime_utc (clock w (S (ticks w)))]>
       (<["updated_at" := strftime_utc (clock w (ticks w))]>
          (<["data_encrypted" := SessionEncryption.encrypt_session_data (data s)]>
             (<["user_id" := to_string (user_id s)]> r0))))
  = saved_values s w ∪ r0.
Proof.
  unfold saved_values. cbn [list_to_map foldr uncurry fst snd].
  replace (ticks w + 1)%nat with (S (ticks w)) by lia.
  apply map_eq. intros c.
  destruct (decide (c = "user_id")) as [->|]; [by simplify_map_eq|].
  destruct (decide (c = "data_encrypted")) as [->|]; [by simplify_map_eq|].
  destruct (decide (c = "updated_at")) as [->|]; [by simplify_map_eq|].
  destruct (decide (c = "last_activity")) as [->|]; [by simplify_map_eq|].
  destruct (decide (c = "is_valid")) as [->|]; [by simplify_map_eq|].
  rewrite lookup_union_r by by simplify_map_eq. by simplify_map_eq.
Qed.

Lemma dom_saved_values s w : dom (saved_values s w) ⊆ saved_columns.
Proof.
  unfold saved_values, saved_columns. cbn [list_to_map foldr uncurry fst snd].
  rewrite !dom_insert_L, dom_empty_L. set_solver.
Qed.

Ltac settle :=
  repeat first
    [ apply settles_ret
    | apply settles_row_bool
    | apply settles_row_set
    | apply settles_timestamp_now
    | apply settles_six_sql_commit; [apply writes_elsewhere|apply writes_optimize]
    | apply settles_log_session_event; [apply writes_optimize|apply writes_audit]
    | apply settles_bind; [|intros ?]
    | match goal with |- settles _ (if ?b then _ else _) => destruct b end ].

(** [save_session] with rows of other tables staged. *)
Lemma save_session_staged s w r w' :
  none_staged w → save_session s w = (r, w') →
  grows (λ st, hash_keyed st ∧ writes (session_id_hash s) (saved_values s w) st) w w'.
Proof.
  intros Hw. unfold save_session.
  set (w0 := set_session_cache (<[session_id s := s]> (session_cache w)) w).
  erewrite bind_ok by reflexivity. fold w0.
  set (Q := λ st, hash_keyed st ∧ writes (session_id_hash s) (saved_values s w) st).
  intros Hrun. change (grows Q w0 w').
  revert Hrun. apply six_sql_find_by_then; [done|apply writes_select|intros row; settle|].
  intros rows r0 Hon Ht Hr0 w1.
  apply select_first_Some in Hr0 as Hr. destruct Hr as [Hin Hrh].
  set (key := pending_key "sessions" "session_id_hash" (c_str (session_id_hash s))) in *.
  erewrite bind_ok.
  2:{ apply (row_bool_staged key
               (staged "sessions" "session_id_hash" (c_str (session_id_hash s)) r0) w1).
      - subst w1. cbn. by rewrite lookup_insert_eq.
      - cbn. intros Hempty. by rewrite Hempty in Hrh. }
  cbn [negb].
  erewrite bind_ok by (apply (row_set_at key _ _ _ (pending_updates w0) w1 eq_refl)).
  cbn [staged table_name where_column where_value columns].
  set (w2 := set_pending_updates _ w1).
  erewrite bind_ok by (apply (row_set_at key _ _ _ (pending_updates w0) w2 eq_refl)).
  cbn [staged table_name where_column where_value columns].
  set (w3 := set_pending_updates _ w2).
  erewrite bind_ok by apply timestamp_now_run.
  set (w4 := set_ticks _ w3).
  erewrite bind_ok by (apply (row_set_at key _ _ _ (pending_updates w0) w4 eq_refl)).
  cbn [staged table_name where_column where_value columns].
  set (w5 := set_pending_updates _ w4).
  erewrite bind_ok by apply timestamp_now_run.
  set (w6 := set_ticks _ w5).
  erewrite bind_ok by (apply (row_set_at key _ _ _ (pending_updates w0) w6 eq_refl)).
  cbn [staged table_name where_column where_value columns].
  set (w7 := set_pending_updates _ w6).
  erewrite bind_ok by (apply (row_set_at key _ _ _ (pending_updates w0) w7 eq_refl)).
  cbn [staged table_name where_column where_value columns].
  set (w8 := set_pending_updates _ w7).
  destruct (six_sql_commit_staged Q
              (writes_elsewhere (session_id_hash s) (saved_values s w))
              (writes_optimize (session_id_hash s) (saved_values s w))
              key (staged "sessions" "session_id_hash" (c_str (session_id_hash s))
                     (saved_values s w ∪ r0)) (pending_updates w0) w8)
    as (w9 & Hcommit & Hg); [done| | | |].
  - subst w8. cbn [pending_updates set_pending_updates]. do 2 f_equal.
    apply (saved_values_staged s w r0).
  - intros k sr _ Hk. by eapply Hw.
  - intros wa Hta.
    eapply commit_row_assigns; [|exact Hr0|done|apply dom_saved_values].
    by rewrite Hta.
  - rewrite Hcommit. cbn [snd]. exact Hg.
Qed.

(** [destroy_session] with rows of other tables staged. *)
Lemma destroy_session_staged id w r w' :
  let s := default Session_default (session_cache w !! id) in
  none_staged w → destroy_session id w = (r, w') →
  grows (λ st, hash_keyed st ∧ writes (session_id_hash s) {["is_valid" := "0"]} st) w w'.
Proof.
  intros s Hw. unfold destroy_session.
  erewrite bind_ok by reflexivity. fold s.
  set (w0 := set_session_cache (delete id (session_cache w)) w).
  erewrite bind_ok by reflexivity. fold w0.
  set (Q := λ st, hash_keyed st ∧ writes (session_id_hash s) {["is_valid" := "0"]} st).
  change (grows Q w w') with (grows Q w0 w').
  unfold try_catch.
  match goal with |- context [(?m ≫= ?f) w0] =>
    destruct ((m ≫= f) w0) as [[[]|e] wi] eqn:Hinner end;
    run; intros ?; simplify_eq; revert Hinner;
    (apply six_sql_find_by_then;
     [done|apply writes_select|intros row; settle|]);
    intros rows r0 Hon Ht Hr0 w1;
    apply select_first_Some in Hr0 as Hr; destruct Hr as [Hin Hrh];
    set (key := pending_key "sessions" "session_id_hash" (c_str (session_id_hash s))) in *.
  all: erewrite bind_ok;
    [|apply (row_bool_staged key
               (staged "sessions" "session_id_hash" (c_str (session_id_hash s)) r0) w1);
      [subst w1; cbn; by rewrite lookup_insert_eq
      |cbn; intros Hempty; by rewrite Hempty in Hrh]].
  all: cbv beta iota.
  all: erewrite bind_ok by (apply (row_set_at key _ _ _ (pending_updates w0) w1 eq_refl)).
  all: cbn [staged table_name where_column where_value columns].
  all: set (w2 := set_pending_updates _ w1).
  all: destruct (six_sql_commit_staged Q
              (writes_elsewhere (session_id_hash s) {["is_valid" := "0"]})
              (writes_optimize (session_id_hash s) {["is_valid" := "0"]})
              key (staged "sessions" "session_id_hash" (c_str (session_id_hash s))
                     ({["is_valid" := "0"]} ∪ r0)) (pending_updates w0) w2)
    as (w3 & Hcommit & Hg);
    [done
    |subst w2; cbn [pending_updates set_pending_updates]; do 2 f_equal;
     apply insert_union_singleton_l
    |intros k sr _ Hk; by eapply Hw
    |intros wa Hta; eapply commit_row_assigns; [by rewrite Hta|exact Hr0|done|];
     rewrite dom_singleton_L; unfold saved_columns; set_solver
    |].
  all: erewrite bind_ok by exact Hcommit.
  all: destruct (log_session_event_run id (user_id s) "logout" EmptyString EmptyString
              "Session destroyed - user logged out" w3)
    as (w4 & -> & _ & _ & _ & _ & _ & _ & _ & _ & _ & _ & Hj4 & _).
  all: cbn [snd]; eapply grows_trans; [exact Hg|].
  all: eexists; split; [exact Hj4|].
  all: unfold insert_writes; case_match; [|by apply Forall_nil].
  all: apply Forall_cons; split; [apply writes_audit|].
  all: apply Forall_singleton, writes_optimize.
Qed.

End save_staged.

(** ** What reaches the database *)

Section durable.
Context `{Primitives}.

Lemma hash_keyed_audit_insert row : hash_keyed (SqlInsert "session_audit_log" row).
Proof. intros [=]. Qed.

Lemma hash_keyed_session_insert s enc : hash_keyed (SqlInsert "sessions" (c_str <$> session_row s enc)).
Proof.
  intros _. rewrite dom_fmap_L. unfold session_row, session_columns.
  rewrite !dom_insert_L, dom_empty_L. set_solver.
Qed.

Lemma hash_keyed_optimize : hash_keyed PRAGMA_optimize.
Proof. by left. Qed.

Lemma hash_keyed_select value : hash_keyed (SqlSelect "sessions" "session_id_hash" value).
Proof. done. Qed.

Ltac sent :=
  first [ apply hash_keyed_session_insert | apply hash_keyed_optimize
        | apply hash_keyed_select | apply hash_keyed_audit_insert | done | auto ].

Ltac emits_step :=
  lazymatch goal with
  | |- emits _ (_ ≫= _) => apply emits_bind; [|intros ?]
  | |- emits _ (mret _) => apply emits_ret
  | |- emits _ (throw _) => apply emits_throw
  | |- emits _ (gets _) => apply emits_gets
  | |- emits _ (modify _) => apply emits_modify; intros ?; reflexivity
  | |- emits _ (try_catch _ _) => apply emits_try_catch
  | |- emits _ time_now => apply emits_time_now
  | |- emits _ (RAND_bytes _) => apply emits_RAND_bytes
  | |- emits _ (stoi _) => apply emits_stoi
  | |- emits _ (row_bool _) => apply emits_row_bool
  | |- emits _ (row_get _ _) => apply emits_row_get
  | |- emits _ (row_set _ _ _) => apply emits_row_set
  | |- emits _ (SecureSessionHash.hash_with_salt _ _) => apply emits_hash_with_salt
  | |- emits _ (six_sql_insert "sessions" _) =>
      apply emits_six_sql_insert; sent
  | |- emits _ (six_sql_find_by "sessions" "session_id_hash" _) =>
      apply emits_six_sql_find_by; sent
  | |- emits _ (SessionAuditLogger.log_session_event _ _ _ _ _ _) =>
      apply emits_log_session_event; [intros; sent|sent]
  | |- emits _ (SessionAuditLogger.detect_hijack_attempt _ _) =>
      unfold SessionAuditLogger.detect_hijack_attempt;
      apply emits_log_session_event; [intros; sent|sent]
  | |- emits _ (match ?x with _ => _ end) => destruct x
  end.

Lemma emits_is_rate_limited P ip : emits P (RateLimiter.is_rate_limited ip).
Proof. unfold RateLimiter.is_rate_limited. repeat emits_step. Qed.

Lemma emits_record_failed_attempt P ip : emits P (RateLimiter.record_failed_attempt ip).
Proof. unfold RateLimiter.record_failed_attempt. repeat emits_step. Qed.

Lemma emits_clear_failed_attempts P ip : emits P (RateLimiter.clear_failed_attempts ip).
Proof. unfold RateLimiter.clear_failed_attempts. repeat emits_step. Qed.

Lemma emits_get_unique_salt P : emits P SaltGenerator.get_unique_salt.
Proof.
  unfold SaltGenerator.get_unique_salt, SaltGenerator.generate_random_salt. repeat emits_step.
Qed.

Lemma emits_generate_secure_random_bytes P n : emits P (generate_secure_random_bytes n).
Proof. unfold generate_secure_random_bytes. repeat emits_step. Qed.

Lemma emits_timestamp_now P : emits P timestamp_now.
Proof. unfold timestamp_now. repeat emits_step. Qed.

Lemma emits_timestamp_plus_hours P h : emits P (timestamp_plus_hours h).
Proof. unfold timestamp_plus_hours. repeat emits_step. Qed.

Ltac emits_one :=
  lazymatch goal with
  | |- emits _ (RateLimiter.is_rate_limited _) => apply emits_is_rate_limited
  | |- emits _ (RateLimiter.record_failed_attempt _) => apply emits_record_failed_attempt
  | |- emits _ (RateLimiter.clear_failed_attempts _) => apply emits_clear_failed_attempts
  | |- emits _ SaltGenerator.get_unique_salt => apply emits_get_unique_salt
  | |- emits _ (generate_secure_random_bytes _) => apply emits_generate_secure_random_bytes
  | |- emits _ timestamp_now => apply emits_timestamp_now
  | |- emits _ (timestamp_plus_hours _) => apply emits_timestamp_plus_hours
  | |- _ => emits_step
  end.

Ltac emits_session := repeat emits_one.

Lemma emits_create_session uid ip ua : emits hash_keyed (create_session uid ip ua).
Proof.
  unfold create_session, generate_session_id, timestamp_plus_days. emits_session.
Qed.

(** What [load_session] sends: lookups in the sessions table by hash, and
    what [six_sql_insert] sends for the audit rows. *)
Lemma emits_load_session_of P id ip ua :
  (∀ v, P (SqlSelect "sessions" "session_id_hash" v)) →
  (∀ row, P (SqlInsert "session_audit_log" row)) → P PRAGMA_optimize →
  emits P (load_session id ip ua).
Proof.
  intros Hsel Haudit Hopt. unfold load_session, load_session_from_db. emits_session.
Qed.

Lemma emits_load_session id ip ua : emits hash_keyed (load_session id ip ua).
Proof.
  apply emits_load_session_of;
    [intros; apply hash_keyed_select|intros; apply hash_keyed_audit_insert
    |apply hash_keyed_optimize].
Qed.

Lemma emits_refresh_session id token ip ua : emits hash_keyed (refresh_session id token ip ua).
Proof.
  unfold refresh_session.
  apply emits_bind; [apply emits_load_session|]. intros s.
  destruct (negb (exists_ s)); [emits_session|].
  do 2 (apply emits_bind; [emits_session|intros ?]).
  destruct (bool_decide _); [emits_session|].
  apply emits_bind; [emits_session|intros ?].
  destruct (string_gt _ _); [emits_session|].
  apply emits_bind; [apply emits_create_session|intros ?].
  emits_session.
Qed.

(** What [revoke_all_user_sessions] sends: the UPDATE by user id, and what
    [six_sql_insert] sends for the audit row. *)
Lemma emits_revoke_all_user_sessions_of P uid reason :
  P (SqlExec (c_str (revoke_sql uid))) →
  (∀ row, P (SqlInsert "session_audit_log" row)) → P PRAGMA_optimize →
  emits P (revoke_all_user_sessions uid reason).
Proof.
  intros Hexec Haudit Hopt. unfold revoke_all_user_sessions. emits_session.
  by apply emits_six_sql_exec.
Qed.

Lemma emits_revoke_all_user_sessions uid reason :
  emits hash_keyed (revoke_all_user_sessions uid reason).
Proof.
  apply emits_revoke_all_user_sessions_of;
    [right; by exists uid|intros; apply hash_keyed_audit_insert|apply hash_keyed_optimize].
Qed.

(** *** A [create_session] that fails sends nothing *)

Lemma bind_throw_inv {A B} (m : M A) (f : A → M B) w e w' :
  (m ≫= f) w = (Throw e, w') →
  m w = (Throw e, w') ∨ ∃ a w1, m w = (Ok a, w1) ∧ f a w1 = (Throw e, w').
Proof.
  unfold mbind, M_bind. destruct (m w) as [[a|e1] w1]; intros; simplify_eq; eauto.
Qed.

Lemma quiet_run {A} (m : M A) w r w' :
  emits (λ _, False) m → m w = (r, w') → journal w' = journal w.
Proof.
  intros Hm Hrun. destruct (Hm _ _ _ Hrun) as (j & -> & Hj).
  destruct j as [|st j]; [by rewrite app_nil_r|]. by apply Forall_cons in Hj as [[] _].
Qed.

Ltac quiet_step Hrun Hj :=
  let Hstep := fresh "Hstep" in
  apply bind_throw_inv in Hrun as [Hrun|(? & ? & Hstep & Hrun)];
  [ etrans; [|exact Hj]; eapply quiet_run; [|exact Hrun]; emits_session
  | eapply quiet_run in Hstep; [|emits_session];
    apply (λ H, eq_trans H Hj) in Hstep; clear Hj; rename Hstep into Hj ].

Lemma create_session_throws uid ip ua w e w' :
  create_session uid ip ua w = (Throw e, w') → journal w' = journal w.
Proof.
  intros Hrun. unfold create_session, generate_session_id, timestamp_plus_days in Hrun.
  assert (Hj : journal w = journal w) by done.
  quiet_step Hrun Hj.
  match type of Hrun with (if ?b then _ else _) _ = _ => destruct b end.
  { revert Hrun. run. intros ?; by simplify_eq. }
  do 9 quiet_step Hrun Hj.
  apply bind_throw_inv in Hrun as [Hrun|(? & ? & _ & Hrun)]; [by revert Hrun; run|].
  apply bind_throw_inv in Hrun as [Hrun|(? & ? & _ & Hrun)].
  { rewrite try_catch_insert in Hrun.
    match type of Hrun with six_sql_insert ?t ?r ?w0 = _ =>
      destruct (six_sql_insert_run t r w0) as (? & Hins & _) end. congruence. }
  apply bind_throw_inv in Hrun as [Hrun|(? & ? & _ & Hrun)].
  { match type of Hrun with SessionAuditLogger.log_session_event ?a ?b ?c ?d ?e ?f ?w0 = _ =>
      destruct (log_session_event_run a b c d e f w0) as (? & Hlog & _) end. congruence. }
  apply bind_throw_inv in Hrun as [Hrun|(? & ? & _ & Hrun)].
  { revert Hrun. unfold RateLimiter.clear_failed_attempts. by run. }
  revert Hrun. by run.
Qed.

(** *** What [refresh_session] sends *)

Lemma looks_up_load_session id ip ua : emits looks_up (load_session id ip ua).
Proof. by apply emits_load_session_of. Qed.

Lemma refresh_session_sends id token ip ua w r w' :
  refresh_session id token ip ua w = (r, w') →
  (∀ e, r = Throw e → grows looks_up w w')
  ∧ (∀ s', r = Ok s' →
       ∃ s w1 w2 w3,
         load_session id ip ua w = (Ok s, w1)
         ∧ journal w2 = journal w1
         ∧ create_session (user_id s) ip ua w2 = (Ok s', w3)
         ∧ journal w' = journal w3 ++
             insert_writes "session_audit_log"
               (SessionAuditLogger.audit_row
                  (audit_entry id (user_id s) "refresh" ip ua
                     "Session refreshed with new ID" (clock w3 (ticks w3)))) w3).
Proof.
  intros Hrun. unfold refresh_session in Hrun.
  destruct (load_session id ip ua w) as [[s|e0] w1] eqn:Hload.
  2:{ erewrite bind_throw in Hrun by exact Hload. simplify_eq.
      split; [|done]. intros _ _. by eapply looks_up_load_session. }
  pose proof (looks_up_load_session _ _ _ _ _ _ Hload) as Hl.
  erewrite bind_ok in Hrun by exact Hload.
  assert (Hquiet : ∀ e, r = Throw e → journal w' = journal w1 → grows looks_up w w').
  { intros e _ Hj. destruct Hl as (j & Hjl & HP). exists j. by rewrite Hj. }
  destruct r as [s'|e]; (split; [|]); try done.
  - intros _ [= <-]. exists s, w1.
    destruct (negb (exists_ s)); [by revert Hrun; run; destruct (RateLimiter.record_failed_attempt _ _) as [[] ?]|].
    apply bind_ok_inv in Hrun as (? & w2 & Hstep & Hrun).
    eapply quiet_run in Hstep; [|emits_session].
    apply bind_ok_inv in Hrun as (? & w3 & Hstep3 & Hrun).
    eapply quiet_run in Hstep3; [|emits_session]. rewrite Hstep in Hstep3. clear Hstep w2.
    destruct (bool_decide _).
    { revert Hrun. run. by destruct (RateLimiter.record_failed_attempt _ _) as [[] ?]. }
    apply bind_ok_inv in Hrun as (? & w4 & Hstep4 & Hrun).
    eapply quiet_run in Hstep4; [|emits_session]. rewrite Hstep3 in Hstep4. clear Hstep3 w3.
    destruct (string_gt _ _); [by revert Hrun; run|].
    apply bind_ok_inv in Hrun as (s2 & w5 & Hcreate & Hrun).
    apply bind_ok_inv in Hrun as ([] & w6 & Hlog & Hrun).
    revert Hrun. run. intros ?; simplify_eq.
    exists w4, w5. split; [done|]. split; [done|]. split; [done|].
    destruct (log_session_event_run id (user_id s) "refresh" ip ua
                "Session refreshed with new ID" w5)
      as (w7 & Hlog' & _ & _ & _ & _ & _ & _ & _ & _ & _ & _ & Hj7 & _).
    rewrite Hlog' in Hlog. by simplify_eq.
  - intros _ _. apply (Hquiet e eq_refl). clear Hquiet Hl Hload.
    destruct (negb (exists_ s)).
    { eapply quiet_run; [|exact Hrun]. emits_session. }
    assert (Hj : journal w1 = journal w1) by done.
    do 2 quiet_step Hrun Hj.
    destruct (bool_decide _).
    { etrans; [|exact Hj]. eapply quiet_run; [|exact Hrun]. emits_session. }
    quiet_step Hrun Hj.
    destruct (string_gt _ _).
    { etrans; [|exact Hj]. eapply quiet_run; [|exact Hrun]. emits_session. }
    apply bind_throw_inv in Hrun as [Hrun|(? & ? & _ & Hrun)].
    { etrans; [|exact Hj]. by eapply create_session_throws. }
    apply bind_throw_inv in Hrun as [Hrun|(? & ? & _ & Hrun)]; [|by revert Hrun; run].
    match type of Hrun with SessionAuditLogger.log_session_event ?a ?b ?c ?d ?e ?f ?w0 = _ =>
      destruct (log_session_event_run a b c d e f w0) as (? & Hlog & _) end. congruence.
Qed.

End durable.

(** ** The audit table and the audit queue *)

Lemma audits_refl w w' :
  journal w' = journal w → log_queue w' = log_queue w → audits w w'.
Proof. intros Hj Hq. exists [], []. by rewrite !app_nil_r. Qed.

Lemma linked_mono q1 q2 q st : linked q st → linked (q1 ++ q ++ q2) st.
Proof.
  intros Hl row Hrow. destruct (Hl row Hrow) as (e & He & ->).
  exists e. split; [|done]. rewrite !elem_of_app. auto.
Qed.

Lemma audits_trans w1 w2 w3 : audits w1 w2 → audits w2 w3 → audits w1 w3.
Proof.
  intros (j1 & q1 & Hj1 & Hq1 & H1) (j2 & q2 & Hj2 & Hq2 & H2).
  exists (j1 ++ j2), (q1 ++ q2).
  split; [by rewrite Hj2, Hj1, (assoc_L (++))|].
  split; [by rewrite Hq2, Hq1, (assoc_L (++))|].
  apply Forall_app. split.
  - eapply Forall_impl; [exact H1|]. intros st Hst.
    apply (linked_mono [] q2) in Hst. exact Hst.
  - eapply Forall_impl; [exact H2|]. intros st Hst.
    apply (linked_mono q1 []) in Hst. by rewrite app_nil_r in Hst.
Qed.

Lemma audits_quiet w w' j :
  journal w' = journal w ++ j → log_queue w' = log_queue w →
  Forall (λ st, ∀ row, st ≠ SqlInsert "session_audit_log" row) j →
  audits w w'.
Proof.
  intros Hj Hq Hquiet. exists j, []. rewrite app_nil_r. split_and!; try done.
  eapply Forall_impl; [exact Hquiet|]. intros st Hst row Hrow. by destruct (Hst row).
Qed.

Lemma recorded_intro w w' : grows hash_keyed w w' → audits w w' → recorded w w'.
Proof.
  intros (j & Hj & HP) (j' & q & Hj' & Hq & HL).
  assert (j' = j) as -> by (rewrite Hj in Hj'; by apply app_inv_head in Hj').
  by exists j, q.
Qed.

Section logs.

Lemma logs_ret {A} (a : A) : logs (mret a).
Proof. intros w r w'. run. intros ?; simplify_eq. by apply audits_refl. Qed.

Lemma logs_throw {A} e : logs (throw (A:=A) e).
Proof. intros w r w'. run. intros ?; simplify_eq. by apply audits_refl. Qed.

Lemma logs_bind {A B} (m : M A) (f : A → M B) :
  logs m → (∀ a, logs (f a)) → logs (m ≫= f).
Proof.
  intros Hm Hf w r w'. unfold mbind, M_bind.
  destruct (m w) as [[a|e] w1] eqn:Hmw; intros Hrun.
  - eapply audits_trans; [by eapply Hm|by eapply Hf].
  - simplify_eq. by eapply Hm.
Qed.

Lemma logs_try_catch {A} (m h : M A) : logs m → logs h → logs (try_catch m h).
Proof.
  intros Hm Hh w r w'. unfold try_catch.
  destruct (m w) as [[a|e] w1] eqn:Hmw; intros Hrun.
  - simplify_eq. by eapply Hm.
  - eapply audits_trans; [by eapply Hm|by eapply Hh].
Qed.

Lemma logs_gets {A} (f : World → A) : logs (gets f).
Proof. intros w r w'. run. intros ?; simplify_eq. by apply audits_refl. Qed.

Lemma logs_modify (f : World → World) :
  (∀ w, journal (f w) = journal w) → (∀ w, log_queue (f w) = log_queue w) →
  logs (modify f).
Proof. intros Hj Hq w r w'. unfold modify. intros ?; simplify_eq. by apply audits_refl. Qed.

Lemma logs_time_now : logs time_now.
Proof. intros w r w'. unfold time_now. intros ?; simplify_eq. by apply audits_refl. Qed.

Lemma logs_RAND_bytes n : logs (RAND_bytes n).
Proof.
  intros w r w'. unfold RAND_bytes. case_decide; intros; simplify_eq; by apply audits_refl.
Qed.

Lemma logs_stoi s : logs (stoi s).
Proof. intros w r w' ->%stoi_pure. by apply audits_refl. Qed.

Lemma logs_row_bool row : logs (row_bool row).
Proof. intros w r w' ->%row_bool_pure. by apply audits_refl. Qed.

Lemma logs_row_get row c : logs (row_get row c).
Proof.
  intros w r w'. unfold row_get. repeat case_match; intros; simplify_eq; by apply audits_refl.
Qed.

Lemma logs_row_set row c v : logs (row_set row c v).
Proof.
  intros w r w'. unfold row_set. repeat case_match; intros; simplify_eq; by apply audits_refl.
Qed.

Lemma logs_six_sql_insert table data :
  table ≠ "session_audit_log" → logs (six_sql_insert table data).
Proof.
  intros Hne w r w' Hrun.
  destruct (six_sql_insert_run table data w) as (w1 & Hrun' & Hsame & Hj & _).
  rewrite Hrun' in Hrun. simplify_eq.
  eapply audits_quiet; [exact Hj|apply Hsame|].
  unfold insert_writes. case_match; repeat constructor; intros row [=]; done.
Qed.

Lemma logs_six_sql_find_by table column value : logs (six_sql_find_by table column value).
Proof.
  intros w r w'. unfold six_sql_find_by.
  destruct (db_online w); cbn [negb]; [|intros; simplify_eq; by apply audits_refl].
  destruct (tables w !! table); [|intros; simplify_eq; by apply audits_refl].
  intros ?; simplify_eq.
  eapply (audits_quiet _ _ [_]); [by destruct (select_first _ _ _)
                                 |by destruct (select_first _ _ _)|].
  by repeat constructor.
Qed.

Lemma commit_row_audits sr w : audits w (commit_row sr w).
Proof.
  unfold commit_row. destruct (tables w !! table_name sr); [|by apply audits_refl].
  case_decide.
  - eapply (audits_quiet _ _ [_]); [done|done|]. by repeat constructor.
  - eapply (audits_quiet _ _ [_; _]); [by cbn; rewrite <-(assoc_L (++))|done|].
    by repeat constructor.
Qed.

Lemma logs_six_sql_commit : logs six_sql_commit.
Proof.
  intros w r w'. unfold six_sql_commit.
  destruct (db_online w); cbn [negb]; [|intros; simplify_eq; by apply audits_refl].
  intros ?; simplify_eq.
  generalize (merge_sort key_le (map_to_list (pending_updates w))). intros l.
  set (w1 := foldl _ w l).
  apply (audits_trans _ w1).
  - subst w1. revert w. induction l as [|kr l IH]; intros w; [by apply audits_refl|].
    cbn [foldl]. eapply audits_trans; [apply commit_row_audits|apply IH].
  - eapply (audits_quiet _ _ [_]); [done|done|]. by repeat constructor.
Qed.

End logs.

Section logs_session.
Context `{Primitives}.

Lemma logs_six_sql_exec sql : logs (six_sql_exec sql).
Proof.
  intros w r w'. unfold six_sql_exec.
  destruct (db_online w); cbn [negb]; intros; simplify_eq; [|by apply audits_refl].
  eapply (audits_quiet _ _ [_]); [done|done|]. by repeat constructor.
Qed.

Lemma logs_hash_with_salt d s : logs (SecureSessionHash.hash_with_salt d s).
Proof. intros w r w' ->%hash_with_salt_pure. by apply audits_refl. Qed.

(** The statements on the two tables name declared columns only. *)
Lemma session_columns_declared :
  session_columns ⊆ declared_columns "sessions" ∧ saved_columns ⊆ session_columns.
Proof. split; apply (bool_decide_unpack _); vm_compute; exact I. Qed.

Lemma logged_row_declared e : dom (logged_row e) ⊆ declared_columns "session_audit_log".
Proof.
  unfold logged_row. cbn [list_to_map foldr fst snd uncurry].
  rewrite !dom_insert_L, dom_empty_L.
  apply (bool_decide_unpack _). vm_compute. exact I.
Qed.

Lemma audit_row_logged e : SessionAuditLogger.audit_row e = logged_row e.
Proof. reflexivity. Qed.

Lemma logs_log_session_event sid uid action ip ua details :
  logs (SessionAuditLogger.log_session_event sid uid action ip ua details).
Proof.
  intros w r w' Hrun.
  destruct (log_session_event_run sid uid action ip ua details w)
    as (w1 & Hrun' & _ & _ & _ & _ & _ & _ & _ & _ & _ & Hq & Hj & _).
  rewrite Hrun' in Hrun. simplify_eq.
  eexists _, [_]. split; [exact Hj|]. split; [exact Hq|].
  unfold insert_writes. case_match; repeat constructor.
  - intros row [= <-]. eexists. split; [by apply list_elem_of_singleton|].
    by rewrite audit_row_logged.
  - by intros row [=].
Qed.

Ltac logs_step :=
  lazymatch goal with
  | |- logs (_ ≫= _) => apply logs_bind; [|intros ?]
  | |- logs (mret _) => apply logs_ret
  | |- logs (throw _) => apply logs_throw
  | |- logs (gets _) => apply logs_gets
  | |- logs (modify _) => apply logs_modify; intros ?; reflexivity
  | |- logs (try_catch _ _) => apply logs_try_catch
  | |- logs time_now => apply logs_time_now
  | |- logs (RAND_bytes _) => apply logs_RAND_bytes
  | |- logs (stoi _) => apply logs_stoi
  | |- logs (row_bool _) => apply logs_row_bool
  | |- logs (row_get _ _) => apply logs_row_get
  | |- logs (row_set _ _ _) => apply logs_row_set
  | |- logs (SecureSessionHash.hash_with_salt _ _) => apply logs_hash_with_salt
  | |- logs (six_sql_insert "sessions" _) => apply logs_six_sql_insert; discriminate
  | |- logs (six_sql_find_by _ _ _) => apply logs_six_sql_find_by
  | |- logs (six_sql_exec _) => apply logs_six_sql_exec
  | |- logs six_sql_commit => apply logs_six_sql_commit
  | |- logs (SessionAuditLogger.log_session_event _ _ _ _ _ _) =>
      apply logs_log_session_event
  | |- logs (SessionAuditLogger.detect_hijack_attempt _ _) =>
      unfold SessionAuditLogger.detect_hijack_attempt; apply logs_log_session_event
  | |- logs (RateLimiter.is_rate_limited _) => unfold RateLimiter.is_rate_limited
  | |- logs (RateLimiter.record_failed_attempt _) => unfold RateLimiter.record_failed_attempt
  | |- logs (RateLimiter.clear_failed_attempts _) => unfold RateLimiter.clear_failed_attempts
  | |- logs SaltGenerator.get_unique_salt =>
      unfold SaltGenerator.get_unique_salt, SaltGenerator.generate_random_salt
  | |- logs (generate_secure_random_bytes _) => unfold generate_secure_random_bytes
  | |- logs timestamp_now => unfold timestamp_now
  | |- logs (timestamp_plus_hours _) => unfold timestamp_plus_hours
  | |- logs (match ?x with _ => _ end) => destruct x
  end.

Lemma logs_create_session uid ip ua : logs (create_session uid ip ua).
Proof.
  unfold create_session, generate_session_id, timestamp_plus_days. repeat logs_step.
Qed.

Lemma logs_load_session id ip ua : logs (load_session id ip ua).
Proof. unfold load_session, load_session_from_db. repeat logs_step. Qed.

Lemma logs_refresh_session id token ip ua : logs (refresh_session id token ip ua).
Proof.
  unfold refresh_session.
  apply logs_bind; [apply logs_load_session|]. intros s.
  destruct (negb (exists_ s)); [repeat logs_step|].
  do 2 (apply logs_bind; [repeat logs_step|intros ?]).
  destruct (bool_decide _); [repeat logs_step|].
  apply logs_bind; [repeat logs_step|intros ?].
  destruct (string_gt _ _); [repeat logs_step|].
  apply logs_bind; [apply logs_create_session|intros ?].
  repeat logs_step.
Qed.

Lemma logs_revoke_all_user_sessions uid reason : logs (revoke_all_user_sessions uid reason).
Proof. unfold revoke_all_user_sessions. repeat logs_step. Qed.

Lemma logs_save_session s : logs (save_session s).
Proof. unfold save_session. repeat logs_step. Qed.

Lemma logs_destroy_session id : logs (destroy_session id).
Proof. unfold destroy_session. repeat logs_step. Qed.

End logs_session.

(** ** Hex digests never contain a NUL *)

Lemma c_str_of_byte b s : c_str (Hex.of_byte b +:+ s) = Hex.of_byte b +:+ c_str s.
Proof. destruct b as [[] [] [] [] [] [] [] []]; reflexivity. Qed.

Lemma c_str_encode l : c_str (Hex.encode l) = Hex.encode l.
Proof.
  induction l as [|b l IH]; [done|]. cbn [Hex.encode]. by rewrite c_str_of_byte, IH.
Qed.

Section store.
Context `{Primitives}.

Lemma digest_hex d s h : digest d s = Ok h → ∃ l, h = Hex.encode l.
Proof.
  unfold digest. destruct (argon2id_hash_raw _ _ _ _ _ _). case_decide; intros; simplify_eq. eauto.
Qed.

Lemma digest_c_str d s h : digest d s = Ok h → c_str h = h.
Proof. intros [l ->]%digest_hex. apply c_str_encode. Qed.

(** *** Session rows are named by their hash *)


(** *** The lookup after a cache miss *)

(** The sessions table after [create_session]: the old rows and at most
    one new row, hashed with the salt it stores. *)
Lemma create_session_row uid ip ua w s w' :
  create_session uid ip ua w = (Ok s, w') →
  ∃ b row, length b = 16%nat ∧ hashed_with b row
           ∧ row !! "session_id_hash" ≠ Some EmptyString
           ∧ (sessions_rows w' = sessions_rows w ∨ sessions_rows w' = sessions_rows w ++ [row]).
Proof.
  intros Hrun.
  destruct (create_session_inv _ _ _ _ _ _ Hrun)
    as (_ & Hlen & Hsid & Hsalt & Hdig & _ & _ & _ & _ & _ & _ & _ & _ & _ & _ & _ & _ & _ & _ & Hrows).
  set (row := session_row s (SessionEncryption.encrypt_session_data (data s))) in *.
  assert (Hb : length (take 16 (drop 32 (entropy w))) = 16%nat)
    by (rewrite length_take, length_drop; lia).
  assert (Hh : (c_str <$> row) !! "session_id_hash" = Some (session_id_hash s)).
  { rewrite lookup_fmap. unfold row, session_row. rewrite lookup_insert_eq. cbn.
    f_equal. by eapply digest_c_str. }
  exists (take 16 (drop 32 (entropy w))), (c_str <$> row). split_and!.
  - done.
  - split; [done|]. split.
    + rewrite lookup_fmap. unfold row, session_row.
      rewrite lookup_insert_ne by done. rewrite lookup_insert_eq. cbn.
      f_equal. rewrite Hsalt. apply c_str_encode.
    + exists (session_id s), (session_id_hash s). by rewrite <-Hsalt.
  - rewrite Hh. intros [= Hempty]. by eapply digest_nonempty.
  - rewrite Hrows. unfold insert_rows. case_match; [by right|left; apply app_nil_r].
Qed.

Lemma create_session_no_empty_hash uid ip ua w s w' :
  create_session uid ip ua w = (Ok s, w') → no_empty_hash w → no_empty_hash w'.
Proof.
  intros Hrun Hno r Hr.
  destruct (create_session_row _ _ _ _ _ _ Hrun) as (b & row & _ & _ & Hne & [Hrows|Hrows]);
    rewrite Hrows in Hr; [by apply Hno|].
  apply elem_of_app in Hr as [Hr|Hr%list_elem_of_singleton]; [by apply Hno|by subst].
Qed.

(** C2.  For an id that is not in the cache, [load_session] hashes the id
    with a freshly generated salt, not with a stored one.  When different
    salts give different digests and every stored row was hashed with a
    salt other than the fresh one, the lookup finds no row and
    [load_session] returns an absent session, leaving the cache as it
    was. *)
Theorem load_session_cache_miss w id ip ua probe :
  let fresh := take 16 (entropy w) in
  session_cache w !! id = None →
  (16 ≤ length (entropy w))%nat →
  digest id (Hex.encode fresh) = Ok probe →
  salt_sensitive →
  (∀ r, r ∈ sessions_rows w → ∃ b, hashed_with b r ∧ b ≠ fresh) →
  pending_updates w !! pending_key "sessions" "session_id_hash" probe = None →
  ∃ r w', load_session id ip ua w = (Ok r, w') ∧ exists_ r = false
          ∧ session_cache w' = session_cache w
          ∧ journal w' = journal w ++ select_trace "sessions" "session_id_hash" probe w.
Proof.
  intros fresh Hmiss Hent Hprobe Hsens Hrows Hkey.
  unfold load_session. run. rewrite Hmiss.
  unfold load_session_from_db.
  erewrite bind_ok.
  2:{ unfold SaltGenerator.get_unique_salt. rewrite generate_random_salt_run.
      by rewrite decide_True by done. }
  fold fresh. erewrite bind_ok; [|by rewrite hash_with_salt_run, Hprobe].
  set (w1 := set_entropy _ w).
  pose proof (digest_c_str _ _ _ Hprobe) as Hc.
  erewrite bind_ok.
  2:{ apply six_sql_find_by_absent; rewrite Hc; [|done].
      intros rows r _ Ht Hin Hr.
      destruct (Hrows r) as (b & (Hlen & _ & d & h & Hd & Hh) & Hne).
      { unfold sessions_rows. cbn in Ht. by rewrite Ht. }
      simplify_eq. apply Hne. eapply Hsens; [done| |done..].
      unfold fresh. rewrite length_take. lia. }
  run. eexists _, _. split; [done|]. split; [done|]. split; [done|].
  unfold select_trace. cbn. done.
Qed.

(** *** The outcomes of [refresh_session] *)

Ltac open_hyps :=
  repeat match goal with
         | H : ∃ _, _ |- _ => destruct H
         | H : _ ∧ _ |- _ => destruct H
         | H : _ ∨ _ |- _ => destruct H
         end.

Ltac clause :=
  first [ done
        | by intros; exfalso; congruence
        | by intros; lia
        | tauto
        | by intros; open_hyps; first [congruence|lia]
        | by split; intros; open_hyps; first [done|congruence|lia] ].

Lemma refresh_session_loaded w sid token ip ua s w1 :
  load_session sid ip ua w = (Ok s, w1) →
  ∃ r w', refresh_session sid token ip ua w = (r, w') ∧ refreshed sid token ip ua s w1 r w'.
Proof.
  intros Hload. unfold refresh_session. erewrite bind_ok by exact Hload.
  unfold refreshed. cbn zeta.
  set (salt := Hex.encode (take 16 (entropy w1))).
  set (w2 := set_entropy (drop 16 (entropy w1)) w1).
  set (w3 := set_ticks (S (ticks w2)) w2).
  destruct (exists_ s) eqn:Hex; cbn [negb].
  2:{ run. destruct (RateLimiter.record_failed_attempt ip w1) as [[[]|e] w'] eqn:Hrec.
      2:{ by rewrite record_failed_attempt_run in Hrec. }
      eexists _, _. split; [done|]. cbn. split_and!; clause. }
  destruct (decide (16 ≤ length (entropy w1))%nat) as [Hent|Hent].
  2:{ erewrite bind_throw.
      2:{ unfold SaltGenerator.get_unique_salt. rewrite generate_random_salt_run.
          by rewrite decide_False by done. }
      eexists _, _. split; [done|]. cbn. split_and!; clause. }
  erewrite bind_ok.
  2:{ unfold SaltGenerator.get_unique_salt. rewrite generate_random_salt_run.
      by rewrite decide_True by done. }
  fold salt w2.
  destruct (digest token salt) as [h|e] eqn:Hdig.
  2:{ erewrite bind_throw by (by rewrite hash_with_salt_run, Hdig).
      eexists _, _. split; [done|]. cbn. split_and!; clause. }
  erewrite bind_ok by (by rewrite hash_with_salt_run, Hdig).
  case_bool_decide as Hmis.
  { run. destruct (RateLimiter.record_failed_attempt ip w2) as [[[]|e] w'] eqn:Hrec.
    2:{ by rewrite record_failed_attempt_run in Hrec. }
    eexists _, _. split; [done|]. cbn. split_and!; try clause.
    split; [intros _; do 3 right; left; by exists h|done]. }
  subst h.
  erewrite bind_ok by apply timestamp_now_run. fold (now_of w2) w3.
  destruct (string_gt (now_of w2) (refresh_expires_at s)) eqn:Hexp.
  { run. eexists _, _. split; [done|]. cbn. split_and!; clause. }
  destruct (create_session (user_id s) ip ua w3) as [[s'|e] w4] eqn:Hcreate.
  - erewrite bind_ok by exact Hcreate.
    destruct (log_session_event_run sid (user_id s) "refresh" ip ua
                "Session refreshed with new ID" w4) as (w5 & Hlog & _).
    erewrite bind_ok by exact Hlog. run.
    eexists _, _. split; [done|]. cbn. split_and!; try clause.
    + intros _ _ _ _. split; [intros ?? [=]|].
      intros Hthr. destruct (create_session_throttled (user_id s) ip ua w3 Hthr) as [w6 Hw6].
      congruence.
    + intros s0 Hs0. split_and!; try done; [lia|]. by rewrite Hlog.
  - erewrite bind_throw by exact Hcreate.
    eexists _, _. split; [done|]. cbn. split_and!; try clause.
    intros _ _ _ _. split; [by intros ?? [= <- <-]|].
    intros Hthr. destruct (create_session_throttled (user_id s) ip ua w3 Hthr) as [w6 Hw6].
    congruence.
Qed.

(** C3 (amended).  [refresh_session] fails exactly when [load_session]
    fails, whose error it passes on, or returns a session [s] that is
    absent ("Invalid session", after recording a failed attempt for the IP
    address), or the random source does not give the 16 bytes of the fresh
    salt ("Failed to generate salt"), or hashing the token fails, or the
    token hashed with the fresh salt differs from the stored hash ("Invalid
    refresh token", after recording a failed attempt), or the refresh token
    is expired, or the call of [create_session] fails, as it does when the
    IP address is rate limited.  When it succeeds the result is the session
    [create_session] minted, and the refresh is logged. *)
Theorem refresh_session_outcome w sid token ip ua :
  ∃ r w', refresh_session sid token ip ua w = (r, w')
    ∧ (∀ e w1, load_session sid ip ua w = (Throw e, w1) → r = Throw e ∧ w' = w1)
    ∧ (∀ s w1, load_session sid ip ua w = (Ok s, w1) → refreshed sid token ip ua s w1 r w').
Proof.
  destruct (load_session sid ip ua w) as [[s|e] w1] eqn:Hload.
  - destruct (refresh_session_loaded w sid token ip ua s w1 Hload) as (r & w' & Hrun & Hr).
    exists r, w'. split; [done|]. split; [by intros|]. by intros ?? [= <- <-].
  - exists (Throw e), w1. split.
    + unfold refresh_session. by erewrite bind_throw by exact Hload.
    + split; [by intros ?? [= <- <-]|by intros].
Qed.

End store.

(** ** The authorization guards *)

Section guards.

Lemma require_auth_spec w :
  require_auth w =
    if CurrentUser.is_authenticated (current_user w) then (Ok true, w)
    else (Ok false, set_g_current_response (respond_error 401 "Unauthorized" <$> g_current_response w) w).
Proof. unfold require_auth. run. by destruct (CurrentUser.is_authenticated _). Qed.

Lemma require_admin_spec w :
  require_admin w =
    if CurrentUser.is_authenticated (current_user w) then
      if bool_decide (CurrentUser.get (current_user w) "role" = "admin") then (Ok true, w)
      else (Ok false, set_g_current_response (respond_error 403 "Forbidden" <$> g_current_response w) w)
    else (Ok false, set_g_current_response (respond_error 401 "Unauthorized" <$> g_current_response w) w).
Proof.
  unfold require_admin. run. destruct (CurrentUser.is_authenticated _); cbn [negb]; [|done].
  rewrite bool_decide_not. by destruct (bool_decide _).
Qed.

Lemma get_role_admin u : CurrentUser.get u "role" = "admin" ↔ is_admin u.
Proof.
  unfold CurrentUser.get, is_admin. destruct (CurrentUser.data u !! "role"); split; intros; simplify_eq; done.
Qed.

(** C9.  [require_auth] returns true, changing nothing, when the current
    user is authenticated; otherwise it returns false and the response, if
    there is one, gets status 401 and a JSON error body.  [require_admin]
    does the same for an unauthenticated user, returns false with status
    403 and a JSON error body when the user is authenticated and the role
    is not admin, and returns true only for an authenticated admin. *)
Theorem guards_spec w :
  let u := current_user w in
  (CurrentUser.is_authenticated u = true → require_auth w = (Ok true, w))
  ∧ (CurrentUser.is_authenticated u = false →
       ∃ w', require_auth w = (Ok false, w')
             ∧ (∀ r, g_current_response w = Some r →
                  ∃ r', g_current_response w' = Some r' ∧ json_error 401 "Unauthorized" r'))
  ∧ (CurrentUser.is_authenticated u = false →
       ∃ w', require_admin w = (Ok false, w')
             ∧ (∀ r, g_current_response w = Some r →
                  ∃ r', g_current_response w' = Some r' ∧ json_error 401 "Unauthorized" r'))
  ∧ (CurrentUser.is_authenticated u = true → ¬ is_admin u →
       ∃ w', require_admin w = (Ok false, w')
             ∧ (∀ r, g_current_response w = Some r →
                  ∃ r', g_current_response w' = Some r' ∧ json_error 403 "Forbidden" r'))
  ∧ (CurrentUser.is_authenticated u = true → is_admin u → require_admin w = (Ok true, w))
  ∧ (∀ w', require_admin w = (Ok true, w') → CurrentUser.is_authenticated u = true ∧ is_admin u).
Proof.
  cbn zeta. rewrite require_auth_spec, require_admin_spec.
  destruct (CurrentUser.is_authenticated (current_user w)) eqn:Ha.
  - case_bool_decide as Hr; rewrite get_role_admin in Hr.
    + repeat split; try done. 
    + repeat split; try done.
      intros _ _. eexists; split; [done|]. intros r ->. eexists; split; [done|].
      repeat split. cbn. by rewrite lookup_insert_eq.
  - repeat split; try done.
    + intros _. eexists; split; [done|]. intros r ->. eexists; split; [done|].
      repeat split. cbn. by rewrite lookup_insert_eq.
    + intros _. eexists; split; [done|]. intros r ->. eexists; split; [done|].
      repeat split. cbn. by rewrite lookup_insert_eq.
Qed.
End guards.

(** ** The properties on the concrete runs *)

Module Examples.
Import Reference Scenario.

#[local] Existing Instance primitives.

Example login_session :
  login.1 = Ok session ∧ session_id session = sid ∧ refresh_token session = refresh.
Proof. vm_compute. done. Qed.

Lemma xor_cipher_is_block b :
  is_block b → is_block (xor_cipher SessionEncryption.MASTER_KEY b).
Proof. intros Hb. unfold xor_cipher. apply xor_block_is_block; [done|reflexivity]. Qed.

Lemma xor_cipher_involutive b :
  is_block b →
  xor_cipher SessionEncryption.MASTER_KEY (xor_cipher SessionEncryption.MASTER_KEY b) = b.
Proof.
  intros Hb. unfold xor_cipher. apply xor_block_cancel.
  unfold is_block in Hb. rewrite Hb. reflexivity.
Qed.

Lemma decrypt_encrypt_session_data_witness :
  (∀ b, is_block b → is_block (AES_encrypt SessionEncryption.MASTER_KEY b))
  ∧ (∀ b, is_block b →
       AES_decrypt SessionEncryption.MASTER_KEY (AES_encrypt SessionEncryption.MASTER_KEY b) = b)
  ∧ SessionEncryption.decrypt_session_data (SessionEncryption.encrypt_session_data payload)
    = payload
  ∧ SessionEncryption.decrypt_session_data (SessionEncryption.encrypt_session_data EmptyString)
    = EmptyString.
Proof.
  split; [exact xor_cipher_is_block|]. split; [exact xor_cipher_involutive|].
  split; apply decrypt_encrypt_session_data;
    solve [exact xor_cipher_is_block | exact xor_cipher_involutive].
Defined.

(** Five failures inside one minute from an address that was not seen
    before, then the check; and the same with four. *)
Lemma rate_limit_window_witness :
  let ip := "203.0.113.5" in
  let w := fresh_world in
  (∃ w', RateLimiter.is_rate_limited ip (fail_n ip 5 w) = (Ok true, w'))
  ∧ (∃ w', RateLimiter.is_rate_limited ip (fail_n ip 4 w) = (Ok false, w')).
Proof.
  cbn zeta. split.
  - destruct (rate_limit_window "203.0.113.5" fresh_world 5) as [(w' & Hrun & _) _].
    + lia.
    + vm_compute. discriminate.
    + vm_compute. discriminate.
    + intros i Hi. change (1700000000 + Z.of_nat (0 + i) ≤ 1700000000 + 60). lia.
    + exists w'. exact Hrun.
  - destruct (rate_limit_window "203.0.113.5" fresh_world 4) as [(w' & Hrun & _) _].
    + lia.
    + vm_compute. discriminate.
    + vm_compute. discriminate.
    + intros i Hi. change (1700000000 + Z.of_nat (0 + i) ≤ 1700000000 + 60). lia.
    + exists w'. exact Hrun.
Defined.

(** C6, as stated, fails: [is_rate_limited] opens a window, as it does at
    the start of every [create_session]; 58 seconds later five failed
    attempts are recorded within five seconds, the window ends between the
    third and the fourth, and the check that follows answers false, with
    two failures on the counter. *)
Lemma five_failures_across_windows :
  let ip := "203.0.113.5" in
  let w1 := (RateLimiter.is_rate_limited ip long_first_second).2 in
  let w2 := fail_n ip 5 w1 in
  clock w1 (ticks w1 + 5) - clock w1 (ticks w1) ≤ 60
  ∧ RateLimiter.is_rate_limited ip w2
    = (Ok false, (RateLimiter.is_rate_limited ip w2).2)
  ∧ attempts (RateLimiter.entry_of ip w2) = 2.
Proof.
  cbn zeta. split; [vm_compute; discriminate|]. split; [|vm_compute; reflexivity].
  assert (Hres : (RateLimiter.is_rate_limited "203.0.113.5"
                    (fail_n "203.0.113.5" 5
                       (RateLimiter.is_rate_limited "203.0.113.5" long_first_second).2)).1
                 = Ok false) by (vm_compute; reflexivity).
  destruct (RateLimiter.is_rate_limited _ _) as [r w']. cbn [fst snd] in *. by subst r.
Qed.

Lemma logged_in_session : session_cache logged_in !! sid = Some session.
Proof. vm_compute. reflexivity. Qed.

Lemma load_session_hijack_witness :
  ∃ r w', load_session sid "10.0.0.2" "B" logged_in = (Ok r, w')
    ∧ exists_ r = false
    ∧ log_queue w' = log_queue logged_in ++ [hijack_entry sid "10.0.0.2" 1700000005].
Proof.
  destruct (load_session_hijack logged_in sid "10.0.0.2" "B" session)
    as (r & w' & Hrun & Hex & Hlog & _).
  - exact logged_in_session.
  - left. vm_compute. discriminate.
  - exists r, w'. split; [exact Hrun|]. split; [exact Hex|]. exact Hlog.
Defined.

Lemma load_session_hijack_frame_witness :
  ∃ r w', load_session sid "10.0.0.2" "A" logged_in = (Ok r, w')
    ∧ session_cache w' = session_cache logged_in
    ∧ ∃ r2 w3, load_session sid "10.0.0.1" "A" w' = (Ok r2, w3)
               ∧ r2 = session ∧ exists_ r2 = true.
Proof.
  destruct (load_session_hijack_frame logged_in sid "10.0.0.2" "A" session)
    as (r & w' & Hrun & Hcache & Hnext).
  - exact logged_in_session.
  - left. vm_compute. discriminate.
  - vm_compute. reflexivity.
  - exists r, w'. split; [exact Hrun|]. split; [exact Hcache|].
    apply (Hnext w').
    + rewrite Hcache. exact logged_in_session.
    + assert (Hw' : w' = (load_session sid "10.0.0.2" "A" logged_in).2) by (by rewrite Hrun).
      rewrite Hw'. vm_compute. discriminate.
Defined.

(** C5, as stated, fails: two hours after the login the session has expired,
    and a load from another address leaves it in the cache. *)
Lemma expired_session_stays_cached :
  let w := later 7200 logged_in in
  session_cache w !! sid = Some session
  ∧ expired_at w session
  ∧ session_cache (load_session sid "10.0.0.2" "A" w).2 !! sid ≠ None.
Proof. cbn zeta. split_and!; vm_compute; [reflexivity|reflexivity|discriminate]. Qed.


Lemma no_empty_hash_logged_in : no_empty_hash logged_in.
Proof.
  intros r Hr. 
  assert (Hrows : sessions_rows logged_in =
    [c_str <$> session_row session (SessionEncryption.encrypt_session_data (data session))])
    by (vm_compute; reflexivity).
  rewrite Hrows in Hr. apply list_elem_of_singleton in Hr. subst r.
  vm_compute. discriminate.
Qed.

Lemma destroy_session_idempotent_witness :
  (∃ w', destroy_session "no such session" logged_in = (Ok tt, w')
         ∧ session_cache w' = session_cache logged_in ∧ tables w' = tables logged_in
         ∧ log_queue w' = log_queue logged_in)
  ∧ (∃ w1 w2, destroy_session sid logged_in = (Ok tt, w1)
         ∧ destroy_session sid w1 = (Ok tt, w2)
         ∧ session_cache w2 = session_cache w1 ∧ tables w2 = tables w1
         ∧ log_queue w2 = log_queue w1).
Proof.
  destruct (destroy_session_idempotent "no such session" logged_in no_empty_hash_logged_in)
    as (Hunknown & _ & _).
  destruct (destroy_session_idempotent sid logged_in no_empty_hash_logged_in)
    as (_ & Htwice & _).
  split.
  - destruct Hunknown as (w' & Hrun & Hsame & Htab & _).
    + vm_compute. reflexivity.
    + vm_compute. reflexivity.
    + exists w'. unfold same_process in Hsame. intuition.
  - destruct Htwice as (w1 & w2 & Hrun1 & Hrun2 & Hsame & Htab & _).
    + vm_compute. reflexivity.
    + exists w1, w2. unfold same_process in Hsame. intuition.
Defined.

Lemma reference_digest d b :
  digest d (Hex.encode b)
  = Ok (Hex.encode (SecureSessionHash.hash_buffer (take 32 (b ++ list_ascii_of_string d)))).
Proof. unfold digest. cbn. by rewrite decode_encode. Qed.

Lemma hash_buffer_salt b rest :
  length b = 16%nat → take 16 (SecureSessionHash.hash_buffer (take 32 (b ++ rest))) = b.
Proof.
  intros Hb. unfold SecureSessionHash.hash_buffer.
  rewrite take_take. change (16 `min` 32)%nat with 16%nat.
  rewrite take_app_le by (rewrite length_take, length_app; lia).
  rewrite take_take. change (16 `min` 32)%nat with 16%nat.
  by rewrite take_app_length'.
Qed.

Lemma reference_salt_sensitive : salt_sensitive.
Proof.
  intros d1 d2 b1 b2 h Hl1 Hl2. rewrite !reference_digest. intros H1 H2.
  rewrite <-H2 in H1. injection H1 as H1.
  apply (f_equal Hex.decode) in H1. rewrite !decode_encode in H1.
  apply (f_equal (take 16)) in H1. by rewrite !hash_buffer_salt in H1.
Qed.

(** After a restart the session of the login is in the database, the caller
    presents the right id from the right address, and the lookup misses. *)
Lemma load_session_cache_miss_witness :
  ∃ r w', load_session sid "10.0.0.1" "A" restarted = (Ok r, w') ∧ exists_ r = false.
Proof.
  destruct (load_session_cache_miss restarted sid "10.0.0.1" "A"
              "606162636465666768696a6b6c6d6e6f30303031303230333034303530363037")
    as (r & w' & Hrun & Hex & _).
  - vm_compute. reflexivity.
  - vm_compute. lia.
  - vm_compute. reflexivity.
  - exact reference_salt_sensitive.
  - intros r Hr.
    assert (Hrows : sessions_rows restarted =
      [c_str <$> session_row session (SessionEncryption.encrypt_session_data (data session))])
      by (vm_compute; reflexivity).
    rewrite Hrows in Hr. apply list_elem_of_singleton in Hr. subst r.
    exists (ascii_of_nat <$> seq 32 16). split.
    + split; [reflexivity|]. split; [vm_compute; reflexivity|].
      exists sid, (session_id_hash session). split; vm_compute; reflexivity.
    + vm_compute. discriminate.
  - vm_compute. reflexivity.
  - exists r, w'. split; [exact Hrun|exact Hex].
Defined.

Lemma refresh_load :
  load_session sid "10.0.0.1" "A" logged_in
  = (Ok session, (load_session sid "10.0.0.1" "A" logged_in).2).
Proof.
  assert (Hres : (load_session sid "10.0.0.1" "A" logged_in).1 = Ok session)
    by (vm_compute; reflexivity).
  destruct (load_session sid "10.0.0.1" "A" logged_in) as [r w'].
  cbn [fst snd] in *. by subst r.
Qed.

(** Right after the login the right refresh token is turned down: the salt
    of the comparison is new. *)
Lemma refresh_session_outcome_witness :
  ∃ w', refresh_session sid refresh "10.0.0.1" "A" logged_in
        = (Throw "Invalid refresh token", w').
Proof.
  destruct (refresh_session_outcome logged_in sid refresh "10.0.0.1" "A")
    as (r & w' & Hrun & _ & Hloaded).
  destruct (Hloaded session _ refresh_load) as (_ & _ & _ & _ & Hmismatch & _).
  destruct Hmismatch as [Hr _].
  - vm_compute. discriminate.
  - vm_compute. lia.
  - exists "606162636465666768696a6b6c6d6e6f33303331333233333334333533363337".
    split; [vm_compute; reflexivity|vm_compute; discriminate].
  - exists w'. rewrite <-Hr. exact Hrun.
Defined.

(** C3, as stated, fails.  First run: the session is present, the hash of
    the token matches, the token has not expired, and [refresh_session]
    fails all the same, turned away by the rate limiter inside
    [create_session].  Second run: the session is present and the token has
    not expired, the random source gives no bytes for the fresh salt, and
    [refresh_session] fails with an error that is none of the three of the
    claim, without recording a failed attempt. *)
Lemma refresh_session_throttled :
  (let w := throttled_replay in
   let loaded := load_session sid "10.0.0.1" "A" w in
   loaded.1 = Ok session
   ∧ exists_ session = true
   ∧ digest refresh (Hex.encode (take 16 (entropy loaded.2))) = Ok (refresh_token_hash session)
   ∧ string_gt (now_of loaded.2) (refresh_expires_at session) = false
   ∧ (refresh_session sid refresh "10.0.0.1" "A" w).1
     = Throw "Too many login attempts. Try again later.")
  ∧ (let w := set_entropy [] logged_in in
     let loaded := load_session sid "10.0.0.1" "A" w in
     let refused := refresh_session sid refresh "10.0.0.1" "A" w in
     loaded.1 = Ok session
     ∧ exists_ session = true
     ∧ string_gt (now_of loaded.2) (refresh_expires_at session) = false
     ∧ refused.1 = Throw "Failed to generate salt"
     ∧ ip_attempts refused.2 = ip_attempts w).
Proof. cbn zeta. split_and!; vm_compute; reflexivity. Qed.

(** The guards on the request of an administrator, of a plain user and of
    nobody; the body of the 401 response, byte by byte. *)
Example guards_on_requests :
  (require_admin (request_of true "admin")).1 = Ok true
  ∧ (require_admin (request_of true "user")).1 = Ok false
  ∧ (http_response.status <$> g_current_response (require_admin (request_of true "user")).2)
    = Some 403
  ∧ (require_auth (request_of false "admin")).1 = Ok false
  ∧ (http_response.status <$> g_current_response (require_auth (request_of false "admin")).2)
    = Some 401
  ∧ ((λ r, nat_of_ascii <$> list_ascii_of_string (http_response.body r))
       <$> g_current_response (require_auth (request_of false "admin")).2)
    = Some [123; 34; 101; 114; 114; 111; 114; 34; 58; 32; 34; 85; 110; 97; 117; 116;
            104; 111; 114; 105; 122; 101; 100; 34; 125]%nat.
Proof. split_and!; vm_compute; reflexivity. Qed.

End Examples.

(** * More of the code

    ** Text: [find] and [substr] *)

Lemma append_cons c (s t : string) : String c s +:+ t = String c (s +:+ t).
Proof. reflexivity. Qed.

Lemma append_nil (t : string) : EmptyString +:+ t = t.
Proof. reflexivity. Qed.

Lemma length_append (s t : string) :
  String.length (s +:+ t) = (String.length s + String.length t)%nat.
Proof.
  induction s as [|c s IH]; [done|]. rewrite append_cons. cbn [String.length]. by rewrite IH.
Qed.

Lemma substring_append_skip (p s : string) n :
  String.substring (String.length p) n (p +:+ s) = String.substring 0 n s.
Proof. induction p as [|c p IH]; [done|]. rewrite append_cons. exact IH. Qed.

Lemma substring_prefix (v rest : string) :
  String.substring 0 (String.length v) (v +:+ rest) = v.
Proof.
  induction v as [|c v IH].
  - rewrite append_nil. by destruct rest.
  - rewrite append_cons. cbn [String.length String.substring]. by rewrite IH.
Qed.

Lemma substring_middle (p v rest : string) :
  substr (p +:+ v +:+ rest) (String.length p) (String.length v) = v.
Proof. unfold substr. by rewrite substring_append_skip, substring_prefix. Qed.

Lemma index_skip (p s needle : string) n :
  String.index (String.length p + n) needle (p +:+ s)
  = (λ m, (String.length p + m)%nat) <$> String.index n needle s.
Proof.
  induction p as [|c p IH].
  - rewrite append_nil. change (String.length EmptyString + n)%nat with n.
    by destruct (String.index n needle s).
  - rewrite append_cons. change (String.length (String c p) + n)%nat with (S (String.length p + n)).
    cbn [String.index]. rewrite IH. by destruct (String.index n needle s).
Qed.

(** Where a one-character needle is first found. *)
Lemma index_char_here c (v rest : string) :
  ¬ has_char c v →
  String.index 0 (String c EmptyString) (v +:+ String c rest) = Some (String.length v).
Proof.
  unfold has_char. induction v as [|a v IH]; intros Hno.
  - rewrite append_nil. cbn. destruct (ascii_dec c c); [|done]. by destruct rest.
  - rewrite append_cons. cbn [list_ascii_of_string] in Hno.
    apply not_elem_of_cons in Hno as [Hne Hno].
    cbn [String.index String.prefix String.length]. destruct (ascii_dec c a); [by subst|].
    by rewrite IH.
Qed.

Lemma index_char_none c (v : string) :
  ¬ has_char c v → String.index 0 (String c EmptyString) v = None.
Proof.
  unfold has_char. induction v as [|a v IH]; intros Hno; [done|].
  cbn [list_ascii_of_string] in Hno. apply not_elem_of_cons in Hno as [Hne Hno].
  cbn [String.index String.prefix]. destruct (ascii_dec c a); [by subst|].
  by rewrite IH.
Qed.

(** The first place at which a needle stands is the place [find] returns. *)
Lemma find_first (needle s : string) (m : nat) :
  needle ≠ EmptyString →
  occurs_at needle s m →
  (∀ i, (i < m)%nat → ¬ occurs_at needle s i) →
  find s needle 0 = Some m.
Proof.
  unfold find, occurs_at, substr. intros Hne Hm Hfirst.
  destruct (String.index 0 needle s) as [k|] eqn:Hk.
  - f_equal. destruct (Nat.lt_trichotomy k m) as [Hlt|[->|Hgt]]; [|done|].
    + exfalso. apply (Hfirst k Hlt). by eapply String.index_correct1.
    + exfalso. eapply (String.index_correct2 0 k needle s Hk m); [lia|done|done].
  - exfalso. eapply (String.index_correct3 0 m needle s Hk); [done|lia|done].
Qed.

Lemma append_assoc (s t u : string) : (s +:+ t) +:+ u = s +:+ t +:+ u.
Proof. induction s as [|c s IH]; [done|]. rewrite !append_cons. by rewrite IH. Qed.

Lemma append_empty_r (s : string) : s +:+ EmptyString = s.
Proof. induction s as [|c s IH]; [done|]. rewrite append_cons. by rewrite IH. Qed.

Lemma substring_whole (v : string) : String.substring 0 (String.length v) v = v.
Proof. rewrite <-(append_empty_r v) at 2. apply substring_prefix. Qed.

(** From a place on, up to the next [c] or the end. *)
Lemma scan_value c (pn v rest : string) :
  ¬ has_char c v →
  rest = EmptyString ∨ (∃ r, rest = String c r) →
  let s := pn +:+ v +:+ rest in
  let pos := String.length pn in
  substr s pos (default (String.length s) (find s (String c EmptyString) pos) - pos) = v.
Proof.
  intros Hv Hrest s pos. unfold find, s, pos.
  assert (Hidx : String.index (String.length pn) (String c EmptyString) (pn +:+ v +:+ rest)
                 = (λ m, (String.length pn + m)%nat)
                     <$> String.index 0 (String c EmptyString) (v +:+ rest)).
  { rewrite <-(index_skip pn (v +:+ rest) _ 0). by rewrite Nat.add_0_r. }
  rewrite Hidx. clear Hidx.
  destruct Hrest as [->|[r ->]].
  - rewrite !(append_empty_r v), index_char_none by done.
    cbn [fmap option_fmap option_map default]. rewrite length_append.
    replace (String.length pn + String.length v - String.length pn)%nat
      with (String.length v) by lia.
    unfold substr. rewrite substring_append_skip. apply substring_whole.
  - rewrite (index_char_here c v r) by done.
    cbn [fmap option_fmap option_map default]. unfold id.
    replace (String.length pn + String.length v - String.length pn)%nat
      with (String.length v) by lia.
    apply substring_middle.
Qed.

(** The scan both cookie readers make: from the first place the name
    stands at, up to the next semicolon or the end. *)
Lemma cookie_scan (name p v rest : string) :
  let cookies := p +:+ name +:+ v +:+ rest in
  name ≠ EmptyString →
  (∀ i, (i < String.length p)%nat → ¬ occurs_at name cookies i) →
  ¬ has_char ";" v →
  rest = EmptyString ∨ (∃ r, rest = String ";" r) →
  match find cookies name 0 with
  | None => EmptyString
  | Some pos =>
      let pos := (pos + String.length name)%nat in
      let end_ := default (String.length cookies) (find cookies ";" pos) in
      substr cookies pos (end_ - pos)
  end = v.
Proof.
  intros cookies Hname Hfirst Hv Hrest.
  rewrite (find_first name cookies (String.length p)); [|done| |done].
  2:{ unfold occurs_at, cookies. apply substring_middle. }
  cbn zeta.
  assert (Hcookies : cookies = (p +:+ name) +:+ v +:+ rest)
    by (unfold cookies; by rewrite append_assoc).
  rewrite <-length_append, Hcookies.
  by apply (scan_value ";" (p +:+ name) v rest).
Qed.

(** ** six_login.h: the cookies and the address of a request *)

(** X1.  The two cookie readers return the value that follows the first
    place the name of the cookie stands at in the Cookie header, wherever
    that is, up to the next semicolon or the end of the header. *)
Theorem cookies_read_back req cookies :
  http_request.headers req !! "Cookie" = Some cookies →
  (∀ p v rest,
     cookies = p +:+ "session_id=" +:+ v +:+ rest →
     (∀ i, (i < String.length p)%nat → ¬ occurs_at "session_id=" cookies i) →
     ¬ has_char ";" v →
     rest = EmptyString ∨ (∃ r, rest = String ";" r) →
     get_session_id_from_request req = v)
  ∧ (∀ p v rest,
       cookies = p +:+ "refresh_token=" +:+ v +:+ rest →
       (∀ i, (i < String.length p)%nat → ¬ occurs_at "refresh_token=" cookies i) →
       ¬ has_char ";" v →
       rest = EmptyString ∨ (∃ r, rest = String ";" r) →
       get_refresh_token_from_request req = v).
Proof.
  intros Hcookie. split; intros p v rest -> Hfirst Hv Hrest.
  - unfold get_session_id_from_request. rewrite Hcookie.
    by apply (cookie_scan "session_id=" p v rest).
  - unfold get_refresh_token_from_request. rewrite Hcookie.
    by apply (cookie_scan "refresh_token=" p v rest).
Qed.

(** X2.  The address of the client is the first entry of X-Forwarded-For,
    when the request has that header, whatever X-Real-IP says; without it
    the value of X-Real-IP; without both 127.0.0.1. *)
Theorem get_client_ip_from_request_spec req :
  (∀ ip rest,
     http_request.headers req !! "X-Forwarded-For" = Some (ip +:+ rest) →
     ¬ has_char "," ip →
     rest = EmptyString ∨ (∃ r, rest = String "," r) →
     get_client_ip_from_request req = ip)
  ∧ (http_request.headers req !! "X-Forwarded-For" = None →
     get_client_ip_from_request req
     = default "127.0.0.1" (http_request.headers req !! "X-Real-IP")).
Proof.
  unfold get_client_ip_from_request. split.
  - intros ip rest -> Hip [->|[r ->]]; unfold find.
    + by rewrite append_empty_r, index_char_none.
    + rewrite (index_char_here "," ip r) by done.
      apply (substring_middle EmptyString ip (String "," r)).
  - intros ->. by destruct (http_request.headers req !! "X-Real-IP").
Qed.

(** ** six_sql.h: staged rows *)

Lemma select_first_app column value rows rows' :
  select_first column value (rows ++ rows')
  = match select_first column value rows with
    | Some r => Some r
    | None => select_first column value rows'
    end.
Proof.
  unfold select_first. induction rows as [|r rows IH]; [done|].
  cbn. by destruct (bool_decide _).
Qed.

Lemma select_first_here column value r rows :
  r !! column = Some value → select_first column value (r :: rows) = Some r.
Proof. intros Hr. unfold select_first. cbn. by rewrite bool_decide_true. Qed.

(** The first row a WHERE clause selects, after an UPDATE with that clause
    which does not assign the column of the clause. *)
Lemma select_first_updated column value assignments rows :
  assignments !! column = None →
  select_first column value (updated column value assignments <$> rows)
  = (assignments ∪.) <$> select_first column value rows.
Proof.
  intros Hnone. unfold select_first, updated.
  induction rows as [|r rows IH]; [done|]. cbn [fmap list_fmap List.find].
  destruct (decide (row_matches column value r)) as [Hr|Hr].
  - rewrite !bool_decide_true; [done|done|].
    unfold row_matches in *. rewrite lookup_union_r; done.
  - rewrite !bool_decide_false by done. apply IH.
Qed.

Lemma commit_row_tables sr w rows r0 :
  tables w !! table_name sr = Some rows →
  select_first (where_column sr) (where_value sr) rows = Some r0 →
  let changed := changed_columns (columns sr) r0 in
  tables (commit_row sr w) =
    if decide (changed = ∅) then tables w
    else <[table_name sr :=
             updated (where_column sr) (where_value sr) (c_str <$> changed) <$> rows]> (tables w).
Proof.
  intros Ht Hsel changed. unfold commit_row. rewrite Ht, Hsel. cbn [default]. unfold id.
  fold changed. by destruct (decide (changed = ∅)).
Qed.

Lemma changed_columns_nothing r : changed_columns r r = ∅.
Proof.
  apply map_eq. intros c. rewrite lookup_empty, changed_columns_lookup.
  destruct (r !! c) as [x|] eqn:Hr; cbn; [|done]. by rewrite decide_False by (intros []; done).
Qed.

(** The value a column has after the commit of a staged row, for a value
    that reads the same as a C string. *)
Lemma committed_column row r0 c x :
  row !! c = Some x → c_str x = x →
  default EmptyString (((c_str <$> changed_columns row r0) ∪ r0) !! c) = x.
Proof.
  intros Hrow Hx.
  destruct (decide (default EmptyString (r0 !! c) ≠ x)) as [Hne|Heq].
  - rewrite (lookup_union_Some_l _ _ _ (c_str x)); [done|].
    rewrite lookup_fmap, changed_columns_lookup, Hrow. cbn. by rewrite decide_True.
  - rewrite lookup_union_r.
    + apply dec_stable in Heq. done.
    + rewrite lookup_fmap, changed_columns_lookup, Hrow. cbn. by rewrite decide_False.
Qed.

(** X4.  A lookup followed by a commit, with nothing assigned in between and
    nothing staged before, writes no row: the tables are as they were, and
    the statements run are SELECTs and the PRAGMA that ends the commit. *)
Theorem six_sql_commit_unchanged table column v w :
  pending_updates w = ∅ →
  ∃ row w1 w2,
    six_sql_find_by table column v w = (Ok row, w1)
    ∧ six_sql_commit w1 = (Ok tt, w2)
    ∧ same_process w w2 ∧ tables w2 = tables w
    ∧ grows reads w w2.
Proof.
  intros Hp.
  assert (Hmiss : ∀ j, Forall reads j → 
            six_sql_find_by table column v w = (Ok None, set_journal (journal w ++ j) w) →
            ∃ row w1 w2,
              six_sql_find_by table column v w = (Ok row, w1)
              ∧ six_sql_commit w1 = (Ok tt, w2)
              ∧ same_process w w2 ∧ tables w2 = tables w ∧ grows reads w w2).
  { intros j Hj Hrun.
    destruct (db_online w) eqn:Hon; eexists _, _, _; (split; [exact Hrun|]);
      unfold six_sql_commit; cbn [db_online set_journal pending_updates]; rewrite Hon;
      cbn [negb].
    - rewrite Hp, map_to_list_empty. cbn. split; [done|].
      split; [by unfold same_process; cbn; rewrite Hp|]. split; [done|].
      exists (j ++ [PRAGMA_optimize]). split; [by rewrite (assoc_L (++))|].
      apply Forall_app. split; [done|]. by repeat constructor.
    - split; [done|]. split; [done|]. split; [done|]. by exists j. }
  unfold six_sql_find_by in *.
  destruct (db_online w) eqn:Hon; cbn [negb] in *.
  2:{ apply (Hmiss []); [constructor|]. by rewrite set_journal_nil. }
  destruct (tables w !! table) as [rows|] eqn:Ht.
  2:{ apply (Hmiss []); [constructor|]. by rewrite set_journal_nil. }
  destruct (select_first column (c_str v) rows) as [r|] eqn:Hsel.
  2:{ apply (Hmiss [SqlSelect table column (c_str v)]); [by repeat constructor|].
      cbn [pending_updates set_journal]. rewrite Hp, lookup_empty.
      by rewrite decide_False by (by intros [??]). }
  clear Hmiss. cbn [pending_updates set_pending_updates set_journal].
  rewrite lookup_insert_eq, decide_True by done.
  set (key := pending_key table column (c_str v)).
  set (sr := {| columns := r; table_name := table; where_column := column;
                where_value := c_str v |}).
  set (w1 := set_pending_updates _ _).
  eexists _, w1, _. split; [done|].
  rewrite (six_sql_commit_singleton key sr w1); [|done|by subst w1; cbn; rewrite Hp, insert_empty].
  split; [done|].
  assert (Ht1 : tables w1 !! table_name sr = Some rows) by done.
  assert (Hsel1 : select_first (where_column sr) (where_value sr) rows = Some r) by done.
  pose proof (commit_row_tables sr w1 rows r Ht1 Hsel1) as Htab.
  pose proof (commit_row_journal sr w1 rows r Ht1 Hsel1) as Hjou.
  cbn zeta in Htab, Hjou. cbn [columns sr] in Htab, Hjou.
  rewrite changed_columns_nothing in Htab, Hjou.
  rewrite decide_True in Htab by done. rewrite decide_True in Hjou by done.
  destruct (commit_row_process sr w1) as (Hc & Hk & He & Hd & _ & Hi & Hl & Hs & Hu & Hg).
  split; [|split].
  - unfold same_process. cbn. by rewrite Hc, Hk, He, Hd, Hi, Hl, Hs, Hu, Hg, Hp.
  - cbn. by rewrite Htab.
  - eexists [_; _; _]. split.
    + cbn [journal set_pending_updates optimized set_journal]. rewrite Hjou. subst w1. cbn.
      by rewrite <-!(assoc_L (++)).
    + by repeat constructor.
Qed.

Lemma changed_columns_insert r0 col x :
  changed_columns (<[col := x]> r0) r0
  = if decide (default EmptyString (r0 !! col) ≠ x) then {[col := x]} else ∅.
Proof.
  apply map_eq. intros c. rewrite changed_columns_lookup.
  destruct (decide (c = col)) as [->|Hc].
  - rewrite lookup_insert_eq. cbn. destruct (decide (_ ≠ x)).
    + by rewrite lookup_singleton_eq.
    + by rewrite lookup_empty.
  - rewrite lookup_insert_ne by done.
    transitivity (@None string).
    + destruct (r0 !! c) as [y|] eqn:Hy; cbn; [|done].
      by rewrite decide_False by (intros []; done).
    + destruct (decide (_ ≠ x)); [by rewrite lookup_singleton_ne|by rewrite lookup_empty].
Qed.

Lemma committed_other row r0 c :
  row !! c = r0 !! c → ((c_str <$> changed_columns row r0) ∪ r0) !! c = r0 !! c.
Proof.
  intros Hsame. rewrite lookup_union_r; [done|].
  by rewrite lookup_fmap, changed_columns_same.
Qed.

(** The table after the commit of one staged row that kept the column of its
    WHERE clause: the first row the clause selects is the row of before with
    the changed columns written over. *)
Lemma commit_row_first sr w rows r0 :
  tables w !! table_name sr = Some rows →
  select_first (where_column sr) (where_value sr) rows = Some r0 →
  columns sr !! where_column sr = r0 !! where_column sr →
  ∃ rows',
    tables (commit_row sr w) !! table_name sr = Some rows'
    ∧ select_first (where_column sr) (where_value sr) rows'
      = Some ((c_str <$> changed_columns (columns sr) r0) ∪ r0)
    ∧ ∀ t, t ≠ table_name sr → tables (commit_row sr w) !! t = tables w !! t.
Proof.
  intros Ht Hsel Hkey. rewrite (commit_row_tables sr w rows r0 Ht Hsel). cbn zeta.
  destruct (decide (changed_columns (columns sr) r0 = ∅)) as [Hnone|Hsome].
  - exists rows. rewrite Hnone, fmap_empty, (left_id_L ∅ (∪)). done.
  - eexists. rewrite lookup_insert_eq. split; [done|]. split.
    + rewrite select_first_updated, Hsel; [done|].
      by rewrite lookup_fmap, changed_columns_same.
    + intros t Hne. by rewrite lookup_insert_ne.
Qed.

(** ** What a computation leaves alone

    A frame is a relation between the world before and the world after
    that does not look at the clock, the entropy source, the database, the
    staged rows, the rate limiter or the audit queue.  The functions of
    six_sql.h, the rate limiter and the audit logger keep every frame. *)

#[global] Instance same_visitor_frame : Frame same_visitor.
Proof.
  split; try done. split; [done|].
  intros w1 w2 w3 [H1 H2] [H3 H4]. split; congruence.
Qed.

#[global] Instance same_cache_frame : Frame same_cache.
Proof.
  split; try done. split; [done|].
  intros w1 w2 w3 H1 H2. unfold same_cache in *. congruence.
Qed.

Section keeps.
Context (R : relation World) `{!Frame R}.

Lemma keeps_ret {A} (a : A) : keeps R (mret a).
Proof. intros w r w'. run. intros ?; by simplify_eq. Qed.

Lemma keeps_throw {A} e : keeps R (throw (A:=A) e).
Proof. intros w r w'. run. intros ?; by simplify_eq. Qed.

Lemma keeps_gets {A} (f : World → A) : keeps R (gets f).
Proof. intros w r w'. run. intros ?; by simplify_eq. Qed.

Lemma keeps_modify (f : World → World) : (∀ w, R w (f w)) → keeps R (modify f).
Proof. intros Hf w r w'. unfold modify. intros ?; simplify_eq. apply Hf. Qed.

Lemma keeps_bind {A B} (m : M A) (f : A → M B) :
  keeps R m → (∀ a, keeps R (f a)) → keeps R (m ≫= f).
Proof.
  intros Hm Hf w r w'. unfold mbind, M_bind.
  destruct (m w) as [[a|e] w1] eqn:Hmw; intros Hrun.
  - etrans; [by eapply Hm|by eapply Hf].
  - simplify_eq. by eapply Hm.
Qed.

Lemma keeps_try_catch {A} (m h : M A) : keeps R m → keeps R h → keeps R (try_catch m h).
Proof.
  intros Hm Hh w r w'. unfold try_catch.
  destruct (m w) as [[a|e] w1] eqn:Hmw; intros Hrun.
  - simplify_eq. by eapply Hm.
  - etrans; [by eapply Hm|by eapply Hh].
Qed.

Lemma keeps_time_now : keeps R time_now.
Proof. intros w r w'. unfold time_now. intros ?; simplify_eq. apply frame_ticks. Qed.

Lemma keeps_RAND_bytes n : keeps R (RAND_bytes n).
Proof.
  intros w r w'. unfold RAND_bytes. case_decide; intros; simplify_eq; [apply frame_entropy|done].
Qed.

Lemma keeps_stoi s : keeps R (stoi s).
Proof. by intros w r w' ->%stoi_pure. Qed.

Lemma keeps_row_bool row : keeps R (row_bool row).
Proof. by intros w r w' ->%row_bool_pure. Qed.

Lemma keeps_row_get row c : keeps R (row_get row c).
Proof.
  intros w r w'. unfold row_get.
  repeat case_match; intros; simplify_eq; try done; apply frame_pending_updates.
Qed.

Lemma keeps_row_set row c v : keeps R (row_set row c v).
Proof.
  intros w r w'. unfold row_set.
  repeat case_match; intros; simplify_eq; try done; apply frame_pending_updates.
Qed.

Lemma keeps_row_columns row : keeps R (row_columns row).
Proof. apply keeps_gets. Qed.

Lemma keeps_six_sql_insert table data : keeps R (six_sql_insert table data).
Proof.
  intros w r w'. unfold six_sql_insert. repeat case_match; intros; simplify_eq; try done.
  etrans; [apply frame_tables|apply frame_journal].
Qed.

Lemma keeps_six_sql_find_by table column value : keeps R (six_sql_find_by table column value).
Proof.
  intros w r w'. unfold six_sql_find_by.
  destruct (db_online w); cbn [negb]; [|by intros; simplify_eq].
  destruct (tables w !! table); [|by intros; simplify_eq].
  intros ?; simplify_eq. destruct (select_first _ _ _).
  - etrans; [apply frame_journal|apply frame_pending_updates].
  - apply frame_journal.
Qed.

Lemma keeps_six_sql_find_by_readonly table column value :
  keeps R (six_sql_find_by_readonly table column value).
Proof.
  intros w r w'. unfold six_sql_find_by_readonly.
  repeat case_match; intros; simplify_eq; try done. apply frame_journal.
Qed.

Lemma commit_row_frame sr w : R w (commit_row sr w).
Proof.
  unfold commit_row. destruct (tables w !! table_name sr); [|done].
  case_decide; [apply frame_journal|].
  etrans; [apply frame_journal|]. etrans; [apply frame_tables|apply frame_journal].
Qed.

Lemma commit_rows_frame (l : list (string * SQLRow)) w :
  R w (foldl (λ w kr, commit_row kr.2 w) w l).
Proof.
  revert w. induction l as [|kr l IH]; intros w; [done|]. cbn [foldl].
  etrans; [apply commit_row_frame|apply IH].
Qed.

Lemma keeps_six_sql_commit : keeps R six_sql_commit.
Proof.
  intros w r w'. unfold six_sql_commit.
  destruct (db_online w); cbn [negb]; intros; simplify_eq; [|done].
  etrans; [apply commit_rows_frame|]. etrans; [apply frame_journal|apply frame_pending_updates].
Qed.

Lemma keeps_is_rate_limited ip : keeps R (RateLimiter.is_rate_limited ip).
Proof.
  unfold RateLimiter.is_rate_limited.
  apply keeps_bind; [apply keeps_gets|]. intros e.
  apply keeps_bind; [apply keeps_time_now|]. intros now.
  apply keeps_bind; [apply keeps_modify; intros; apply frame_ip_attempts|]. intros _.
  case_match; apply keeps_ret.
Qed.

Lemma keeps_record_failed_attempt ip : keeps R (RateLimiter.record_failed_attempt ip).
Proof.
  unfold RateLimiter.record_failed_attempt.
  apply keeps_bind; [apply keeps_gets|]. intros e.
  apply keeps_bind; [apply keeps_time_now|]. intros now.
  apply keeps_modify; intros; apply frame_ip_attempts.
Qed.

Lemma keeps_clear_failed_attempts ip : keeps R (RateLimiter.clear_failed_attempts ip).
Proof.
  unfold RateLimiter.clear_failed_attempts.
  apply keeps_bind; [apply keeps_gets|]. intros e.
  apply keeps_modify; intros; apply frame_ip_attempts.
Qed.

Lemma keeps_generate_random_salt n : keeps R (SaltGenerator.generate_random_salt n).
Proof.
  unfold SaltGenerator.generate_random_salt.
  apply keeps_bind; [apply keeps_RAND_bytes|]. intros [b|]; [apply keeps_ret|apply keeps_throw].
Qed.

Section with_primitives.
Context `{Primitives}.

Lemma keeps_six_sql_exec sql : keeps R (six_sql_exec sql).
Proof.
  intros w r w'. unfold six_sql_exec.
  destruct (db_online w); cbn [negb]; intros; simplify_eq; [|done].
  etrans; [apply frame_tables|apply frame_journal].
Qed.

Lemma keeps_hash_with_salt d s : keeps R (SecureSessionHash.hash_with_salt d s).
Proof. by intros w r w' ->%hash_with_salt_pure. Qed.

Lemma keeps_generate_secure_random_bytes n : keeps R (generate_secure_random_bytes n).
Proof.
  unfold generate_secure_random_bytes.
  apply keeps_bind; [apply keeps_RAND_bytes|]. intros [b|]; [apply keeps_ret|apply keeps_throw].
Qed.

Lemma keeps_timestamp_now : keeps R timestamp_now.
Proof.
  unfold timestamp_now. apply keeps_bind; [apply keeps_time_now|]. intros; apply keeps_ret.
Qed.

Lemma keeps_timestamp_plus_hours h : keeps R (timestamp_plus_hours h).
Proof.
  unfold timestamp_plus_hours. apply keeps_bind; [apply keeps_time_now|].
  intros; apply keeps_ret.
Qed.

Lemma keeps_log_session_event sid uid action ip ua details :
  keeps R (SessionAuditLogger.log_session_event sid uid action ip ua details).
Proof.
  unfold SessionAuditLogger.log_session_event, SessionAuditLogger.write_audit_log_to_db.
  apply keeps_bind; [apply keeps_time_now|]. intros t.
  apply keeps_bind; [apply keeps_modify; intros; apply frame_log_queue|]. intros _.
  apply keeps_try_catch; [apply keeps_six_sql_insert|apply keeps_ret].
Qed.

End with_primitives.
End keeps.

(** One step of a proof that a computation keeps a frame. *)
Ltac keeps_step :=
  lazymatch goal with
  | |- keeps ?R (_ ≫= _) => apply (keeps_bind R); [|intros ?]
  | |- keeps ?R (mret _) => apply (keeps_ret R)
  | |- keeps ?R (throw _) => apply (keeps_throw R)
  | |- keeps ?R (gets _) => apply (keeps_gets R)
  | |- keeps ?R (try_catch _ _) => apply (keeps_try_catch R)
  | |- keeps ?R time_now => apply (keeps_time_now R)
  | |- keeps ?R (RAND_bytes _) => apply (keeps_RAND_bytes R)
  | |- keeps ?R (stoi _) => apply (keeps_stoi R)
  | |- keeps ?R (row_bool _) => apply (keeps_row_bool R)
  | |- keeps ?R (row_get _ _) => apply (keeps_row_get R)
  | |- keeps ?R (row_set _ _ _) => apply (keeps_row_set R)
  | |- keeps ?R (row_columns _) => apply (keeps_row_columns R)
  | |- keeps ?R (six_sql_insert _ _) => apply (keeps_six_sql_insert R)
  | |- keeps ?R (six_sql_find_by _ _ _) => apply (keeps_six_sql_find_by R)
  | |- keeps ?R (six_sql_find_by_readonly _ _ _) => apply (keeps_six_sql_find_by_readonly R)
  | |- keeps ?R six_sql_commit => apply (keeps_six_sql_commit R)
  | |- keeps ?R (six_sql_exec _) => apply (keeps_six_sql_exec R)
  | |- keeps ?R (RateLimiter.is_rate_limited _) => apply (keeps_is_rate_limited R)
  | |- keeps ?R (RateLimiter.record_failed_attempt _) => apply (keeps_record_failed_attempt R)
  | |- keeps ?R (RateLimiter.clear_failed_attempts _) => apply (keeps_clear_failed_attempts R)
  | |- keeps ?R SaltGenerator.get_unique_salt =>
      unfold SaltGenerator.get_unique_salt; apply (keeps_generate_random_salt R)
  | |- keeps ?R (generate_secure_random_bytes _) =>
      apply (keeps_generate_secure_random_bytes R)
  | |- keeps ?R timestamp_now => apply (keeps_timestamp_now R)
  | |- keeps ?R (timestamp_plus_hours _) => apply (keeps_timestamp_plus_hours R)
  | |- keeps ?R (SecureSessionHash.hash_with_salt _ _) => apply (keeps_hash_with_salt R)
  | |- keeps ?R (SessionAuditLogger.log_session_event _ _ _ _ _ _) =>
      apply (keeps_log_session_event R)
  | |- keeps ?R (SessionAuditLogger.detect_hijack_attempt _ _) =>
      unfold SessionAuditLogger.detect_hijack_attempt; apply (keeps_log_session_event R)
  | |- keeps _ (match ?x with _ => _ end) => destruct x
  end.

Section keeps_session.
Context `{Primitives}.

(** The session operations leave the current user and the response alone. *)
Lemma keeps_create_session uid ip ua : keeps same_visitor (create_session uid ip ua).
Proof.
  unfold create_session, generate_session_id, timestamp_plus_days.
  repeat first [keeps_step | by apply (keeps_modify same_visitor)].
Qed.

Lemma keeps_load_session id ip ua : keeps same_visitor (load_session id ip ua).
Proof.
  unfold load_session, load_session_from_db.
  repeat first [keeps_step | by apply (keeps_modify same_visitor)].
Qed.

Lemma keeps_refresh_session id token ip ua :
  keeps same_visitor (refresh_session id token ip ua).
Proof.
  unfold refresh_session.
  apply (keeps_bind same_visitor); [apply keeps_load_session|]. intros s.
  destruct (negb (exists_ s)); [repeat keeps_step|].
  keeps_step; [keeps_step|]. keeps_step; [keeps_step|].
  destruct (bool_decide _); [repeat keeps_step|].
  keeps_step; [keeps_step|].
  destruct (string_gt _ _); [repeat keeps_step|].
  apply (keeps_bind same_visitor); [apply keeps_create_session|]. intros s'.
  repeat keeps_step.
Qed.

Lemma keeps_save_session s : keeps same_visitor (save_session s).
Proof. unfold save_session. repeat first [keeps_step | by apply (keeps_modify same_visitor)]. Qed.

Lemma keeps_destroy_session id : keeps same_visitor (destroy_session id).
Proof. unfold destroy_session. repeat first [keeps_step | by apply (keeps_modify same_visitor)]. Qed.

Lemma keeps_revoke_all_user_sessions uid reason :
  keeps same_visitor (revoke_all_user_sessions uid reason).
Proof.
  unfold revoke_all_user_sessions. repeat first [keeps_step | by apply (keeps_modify same_visitor)].
Qed.

(** What [destroy_session] does to the cache is to take the id out. *)
Lemma destroy_session_cache id w :
  ∃ w', destroy_session id w = (Ok tt, w')
        ∧ session_cache w' = delete id (session_cache w).
Proof.
  unfold destroy_session.
  erewrite bind_ok by reflexivity. erewrite bind_ok by reflexivity.
  set (w0 := set_session_cache (delete id (session_cache w)) w).
  match goal with |- context [try_catch ?m _ w0] => assert (Hk : keeps same_cache m) end.
  { repeat keeps_step. }
  unfold try_catch.
  match goal with |- context [let (_, _) := ?m w0 in _] =>
    destruct (m w0) as [[[]|e] w1] eqn:Hrun end;
    apply Hk in Hrun; eexists; (split; [done|]); by rewrite Hrun.
Qed.

End keeps_session.

(** ** six_sessions.h: the rate limiter *)

Import RateLimiter.

Lemma clear_failed_attempts_run ip w :
  clear_failed_attempts ip w =
    (Ok tt, set_ip_attempts
              (<[ip := {| attempts := 0; reset_time := reset_time (entry_of ip w) |}]>
                 (ip_attempts w)) w).
Proof. reflexivity. Qed.

Lemma roll_window_cleared now e : attempts e = 0 → attempts (roll_window now e) = 0.
Proof. unfold roll_window. by destruct (now >? reset_time e). Qed.

Lemma entry_of_other ip ip' e m w :
  ip ≠ ip' → entry_of ip' (set_ip_attempts (<[ip := e]> m) w) = default RateLimitEntry_default (m !! ip').
Proof. intros Hne. unfold entry_of. cbn. by rewrite lookup_insert_ne. Qed.

(** X6.  After [clear_failed_attempts] the address is not rate limited,
    however many failures were counted and whenever the question is asked;
    the counters of other addresses are not touched. *)
Theorem clear_failed_attempts_unlocks ip w :
  ∃ w1, clear_failed_attempts ip w = (Ok tt, w1)
    ∧ attempts (entry_of ip w1) = 0
    ∧ (∀ ip', ip' ≠ ip → entry_of ip' w1 = entry_of ip' w)
    ∧ ∀ v, entry_of ip v = entry_of ip w1 → ∃ v', is_rate_limited ip v = (Ok false, v').
Proof.
  rewrite clear_failed_attempts_run. eexists. split; [done|].
  split; [by rewrite entry_of_insert|]. split.
  { intros ip' Hne. by rewrite entry_of_other. }
  intros v Hv. rewrite is_rate_limited_run. eexists. f_equal. f_equal.
  apply bool_decide_false. unfold MAX_ATTEMPTS.
  rewrite roll_window_cleared; [lia|]. by rewrite Hv, entry_of_insert.
Qed.

(** X7.  Failures are counted per address: those of one address never change
    the counter of another. *)
Theorem failed_attempts_per_address ip ip' n w :
  ip ≠ ip' → entry_of ip' (fail_n ip n w) = entry_of ip' w.
Proof.
  intros Hne. induction n as [|n IH]; [done|].
  rewrite fail_n_S, record_failed_attempt_run. cbn [snd].
  rewrite entry_of_other by done. exact IH.
Qed.

(** ** six_sessions.h: [create_session] *)

Section create_more.
Context `{Primitives}.

(** X8.  A session that was created is the one [load_session] returns for
    its id, to a caller with the address and the agent it was created for,
    until it expires. *)
Theorem create_session_then_load uid ip ua w s w1 :
  create_session uid ip ua w = (Ok s, w1) →
  ¬ expired_at w1 s →
  session_cache w1 !! session_id s = Some s
  ∧ load_session (session_id s) ip ua w1 = (Ok s, set_ticks (S (ticks w1)) w1).
Proof.
  intros Hrun Hfresh.
  destruct (create_session_inv _ _ _ _ _ _ Hrun)
    as (_ & _ & _ & _ & _ & _ & _ & _ & Hip & Hua & _ & _ & _ & _ & Hcache & _).
  assert (Hs : session_cache w1 !! session_id s = Some s)
    by (by rewrite Hcache, lookup_insert_eq).
  split; [done|]. rewrite <-Hip, <-Hua.
  rewrite (load_session_match_run w1 _ s Hs).
  unfold expired_at in Hfresh. by destruct (string_gt _ _).
Qed.

Lemma create_session_throttled_run uid ip ua w :
  throttled ip w →
  create_session uid ip ua w
  = (Throw "Too many login attempts. Try again later.",
     set_ip_attempts (<[ip := roll_window (clock w (ticks w)) (entry_of ip w)]>
                        (ip_attempts w)) (set_ticks (S (ticks w)) w)).
Proof.
  intros Hthr. unfold create_session.
  erewrite bind_ok; [|apply is_rate_limited_run].
  rewrite bool_decide_true by done. by run.
Qed.

(** X9.  A caller whose address is rate limited is turned away before
    anything is made: no session is cached or stored, no random bytes are
    drawn, nothing is logged, and the refusal is not counted as a failure. *)
Theorem create_session_refused uid ip ua w :
  throttled ip w →
  ∃ w', create_session uid ip ua w = (Throw "Too many login attempts. Try again later.", w')
    ∧ session_cache w' = session_cache w ∧ tables w' = tables w ∧ journal w' = journal w
    ∧ entropy w' = entropy w ∧ log_queue w' = log_queue w
    ∧ entry_of ip w' = roll_window (clock w (ticks w)) (entry_of ip w).
Proof.
  intros Hthr. rewrite (create_session_throttled_run _ _ _ _ Hthr).
  eexists. split; [done|].
  split_and!; try done. by rewrite entry_of_insert.
Qed.

Lemma create_session_last uid ip ua w s w' :
  create_session uid ip ua w = (Ok s, w') →
  ∃ w0, clear_failed_attempts ip w0 = (Ok tt, w').
Proof.
  intros Hrun. unfold create_session in Hrun.
  apply bind_ok_inv in Hrun as (limited & w1 & _ & Hrun).
  destruct limited; [by revert Hrun; run|].
  do 12 (apply bind_ok_inv in Hrun as (? & ? & _ & Hrun)).
  apply bind_ok_inv in Hrun as ([] & w14 & Hclr & Hrun).
  revert Hrun. run. intros ?; simplify_eq. eauto.
Qed.

(** X10.  A session that is created takes the counted failures of the
    address with it: right after, the address is not rate limited. *)
Theorem create_session_resets_limiter uid ip ua w s w' :
  create_session uid ip ua w = (Ok s, w') →
  attempts (entry_of ip w') = 0
  ∧ ∃ w2, is_rate_limited ip w' = (Ok false, w2).
Proof.
  intros (w0 & Hclr)%create_session_last.
  rewrite clear_failed_attempts_run in Hclr. simplify_eq.
  rewrite entry_of_insert. split; [done|].
  rewrite is_rate_limited_run. eexists. f_equal. f_equal.
  apply bool_decide_false. unfold MAX_ATTEMPTS.
  rewrite roll_window_cleared; [lia|]. by rewrite entry_of_insert.
Qed.

End create_more.

(** ** Hexadecimal text *)

Lemma hex_text_append s t : hex_text s → hex_text t → hex_text (s +:+ t).
Proof.
  unfold hex_text. induction s as [|c s IH]; [done|]. rewrite append_cons.
  cbn [list_ascii_of_string]. intros [Hc Hs]%Forall_cons Ht. constructor; [done|by apply IH].
Qed.

Lemma hex_text_of_byte b : hex_text (Hex.of_byte b).
Proof. destruct b as [[] [] [] [] [] [] [] []]; by repeat constructor. Qed.

Lemma length_of_byte b : String.length (Hex.of_byte b) = 2%nat.
Proof. reflexivity. Qed.

Lemma hex_text_encode l : hex_text (Hex.encode l).
Proof.
  induction l as [|b l IH]; [constructor|]. cbn [Hex.encode].
  apply hex_text_append; [apply hex_text_of_byte|done].
Qed.

Lemma length_encode l : String.length (Hex.encode l) = (2 * length l)%nat.
Proof.
  induction l as [|b l IH]; [done|]. cbn [Hex.encode length].
  rewrite length_append, length_of_byte, IH. lia.
Qed.

Lemma hex_text_no_char c s : is_hex_digit c = false → hex_text s → ¬ has_char c s.
Proof.
  unfold hex_text, has_char. intros Hc Hs Hin.
  rewrite Forall_forall in Hs. apply Hs in Hin. congruence.
Qed.

Section ids.
Context `{Primitives}.

(** X11.  The ids [create_session] hands out: the session id and the refresh
    token are 64 hexadecimal digits made of the next 32 bytes of the entropy
    source each, the salt is 32 digits and the hash 64; none of them
    contains a NUL, a semicolon or a comma. *)
Theorem create_session_ids uid ip ua w s w' :
  create_session uid ip ua w = (Ok s, w') →
  (String.length (session_id s) = 64 ∧ hex_text (session_id s))%nat
  ∧ (String.length (refresh_token s) = 64 ∧ hex_text (refresh_token s))%nat
  ∧ (String.length (session_salt s) = 32 ∧ hex_text (session_salt s))%nat
  ∧ (String.length (session_id_hash s) = 64 ∧ hex_text (session_id_hash s))%nat
  ∧ Hex.decode (session_id s) = take 32 (entropy w)
  ∧ Hex.decode (refresh_token s) = take 32 (drop 48 (entropy w))
  ∧ entropy w' = drop 96 (entropy w).
Proof.
  intros Hrun.
  destruct (create_session_inv _ _ _ _ _ _ Hrun)
    as (_ & Hlen & Hsid & Hsalt & Hdig & Hrt & _).
  cbn zeta in *.
  assert (Hent : entropy w' = drop 96 (entropy w)).
  { clear -Hrun. unfold create_session in Hrun.
    apply bind_ok_inv in Hrun as (limited & w1 & Hlim & Hrun).
    rewrite is_rate_limited_run in Hlim. simplify_eq.
    destruct (bool_decide _); [by revert Hrun; run|].
    apply bind_ok_inv in Hrun as (sid & w2 & Hsid & Hrun).
    unfold generate_session_id in Hsid. rewrite generate_secure_random_bytes_run in Hsid.
    case_decide; simplify_eq.
    apply bind_ok_inv in Hrun as (salt & w3 & Hsalt & Hrun).
    unfold SaltGenerator.get_unique_salt in Hsalt. rewrite generate_random_salt_run in Hsalt.
    case_decide; simplify_eq.
    apply bind_ok_inv in Hrun as (sid_hash & w4 & ->%hash_with_salt_pure & Hrun).
    apply bind_ok_inv in Hrun as (created & w5 & Hcr & Hrun).
    rewrite timestamp_now_run in Hcr. simplify_eq.
    apply bind_ok_inv in Hrun as (expires & w6 & Hex & Hrun).
    rewrite timestamp_plus_hours_run in Hex. simplify_eq.
    apply bind_ok_inv in Hrun as (refresh & w7 & Hrf & Hrun).
    rewrite generate_secure_random_bytes_run in Hrf.
    case_decide; simplify_eq.
    apply bind_ok_inv in Hrun as (rsalt & w8 & Hrsalt & Hrun).
    unfold SaltGenerator.get_unique_salt in Hrsalt. rewrite generate_random_salt_run in Hrsalt.
    case_decide; simplify_eq.
    apply bind_ok_inv in Hrun as (refresh_hash & w9 & ->%hash_with_salt_pure & Hrun).
    apply bind_ok_inv in Hrun as (rexp & w10 & Hrexp & Hrun).
    unfold timestamp_plus_days in Hrexp. rewrite timestamp_plus_hours_run in Hrexp. simplify_eq.
    apply bind_ok_inv in Hrun as ([] & w11 & Hmod & Hrun).
    revert Hmod. run. intros Hmod. simplify_eq.
    apply bind_ok_inv in Hrun as ([] & w12 & Hins & Hrun).
    rewrite try_catch_insert in Hins.
    match type of Hins with six_sql_insert ?t ?r ?w0 = _ =>
      destruct (six_sql_insert_run t r w0) as (? & Hins' & (_ & _ & He12 & _) & _) end.
    rewrite Hins' in Hins. simplify_eq.
    apply bind_ok_inv in Hrun as ([] & w13 & Hlog & Hrun).
    match type of Hlog with SessionAuditLogger.log_session_event ?a ?b ?c ?d ?e ?f ?w0 = _ =>
      destruct (log_session_event_run a b c d e f w0) as (? & Hlog' & _ & _ & He13 & _) end.
    rewrite Hlog' in Hlog. simplify_eq.
    apply bind_ok_inv in Hrun as ([] & w14 & Hclr & Hrun).
    rewrite clear_failed_attempts_run in Hclr. simplify_eq.
    revert Hrun. run. intros ?; simplify_eq. cbn [entropy set_ip_attempts].
    rewrite He13, He12. cbn. rewrite !drop_drop. done. }
  destruct (digest_hex _ _ _ Hdig) as [l Hl].
  assert (Hhash : length l = 32%nat).
  { clear -Hdig Hl. unfold digest in Hdig.
    destruct (argon2id_hash_raw _ _ _ _ _ _) as [res written]. case_decide; [done|].
    injection Hdig as Hdig. rewrite Hl in Hdig.
    apply (f_equal Hex.decode) in Hdig. rewrite !decode_encode in Hdig. subst l.
    unfold SecureSessionHash.hash_buffer.
    rewrite length_take, length_app, length_replicate. lia. }
  rewrite Hsid, Hrt, Hsalt, Hl, !length_encode, !decode_encode, Hhash,
    !length_take, !length_drop.
  split_and!; try apply hex_text_encode; try done; lia.
Qed.

End ids.

(** ** six_sessions.h: revoking, saving and destroying *)

Section revoke.
Context `{Primitives}.

Lemma six_sql_exec_run sql w :
  ∃ w', six_sql_exec sql w = (Ok tt, w')
        ∧ clock w' = clock w ∧ ticks w' = ticks w ∧ entropy w' = entropy w
        ∧ db_online w' = db_online w ∧ pending_updates w' = pending_updates w
        ∧ ip_attempts w' = ip_attempts w ∧ log_queue w' = log_queue w
        ∧ session_cache w' = session_cache w
        ∧ journal w' = journal w ++ (if db_online w then [SqlExec (c_str sql)] else []).
Proof.
  unfold six_sql_exec. destruct (db_online w) eqn:Hon; cbn [negb]; eexists; split; try done;
    cbn; rewrite ?app_nil_r; by repeat split.
Qed.

Lemma revoke_all_user_sessions_run uid reason w :
  ∃ w', revoke_all_user_sessions uid reason w = (Ok tt, w')
        ∧ session_cache w' = filter (λ kv, user_id kv.2 ≠ uid) (session_cache w).
Proof.
  unfold revoke_all_user_sessions. erewrite bind_ok by reflexivity.
  set (w0 := set_session_cache _ w).
  destruct (six_sql_exec_run ("UPDATE sessions SET is_valid = 0 WHERE user_id = " +:+ to_string uid) w0)
    as (w1 & Hexec & _ & _ & _ & _ & _ & _ & _ & Hs1 & _).
  destruct (log_session_event_run EmptyString uid "revoke_all" EmptyString EmptyString
              ("All sessions revoked: " +:+ reason) w1)
    as (w2 & Hlog & _ & _ & _ & _ & _ & _ & Hs2 & _).
  exists w2. split; [|by rewrite Hs2, Hs1].
  erewrite bind_ok; [exact Hlog|]. unfold try_catch. by rewrite Hexec.
Qed.

(** X12.  [revoke_all_user_sessions] never throws.  It takes every session
    of the user out of the cache and leaves the sessions of other users in
    it, queues one audit entry, which names no session, and sends to the
    database the one UPDATE by user id and then what [six_sql_insert] sends
    for the row of that entry: the INSERT into session_audit_log and the
    PRAGMA optimize after it, or nothing when the database cannot be opened
    or the insert cannot be prepared. *)
Theorem revoke_all_user_sessions_cache uid reason w :
  let entry := audit_entry EmptyString uid "revoke_all" EmptyString EmptyString
                 ("All sessions revoked: " +:+ reason) (clock w (ticks w)) in
  ∃ w', revoke_all_user_sessions uid reason w = (Ok tt, w')
    ∧ (∀ id s, session_cache w' !! id = Some s
               ↔ session_cache w !! id = Some s ∧ user_id s ≠ uid)
    ∧ log_queue w' = log_queue w ++ [entry]
    ∧ ∃ j, journal w' = journal w
             ++ (if db_online w then [SqlExec (c_str (revoke_sql uid))] else []) ++ j
           ∧ (j = [] ∨ j = [SqlInsert "session_audit_log" (c_str <$> logged_row entry);
                            PRAGMA_optimize]).
Proof.
  intros entry. unfold revoke_all_user_sessions.
  set (w0 := set_session_cache (filter (λ kv, user_id kv.2 ≠ uid) (session_cache w)) w).
  destruct (six_sql_exec_run ("UPDATE sessions SET is_valid = 0 WHERE user_id = " +:+ to_string uid) w0)
    as (w1 & Hexec & Hc1 & Ht1 & He1 & Hd1 & Hp1 & Hi1 & Hl1 & Hs1 & Hj1).
  destruct (log_session_event_run EmptyString uid "revoke_all" EmptyString EmptyString
              ("All sessions revoked: " +:+ reason) w1)
    as (w2 & Hlog & Hc2 & Ht2 & He2 & Hd2 & Hp2 & Hi2 & Hs2 & Hu2 & Hr2 & Hl2 & Hj2 & _).
  exists w2. split.
  { run. fold w0. rewrite Hexec. exact Hlog. }
  split; [|split].
  - intros id s. rewrite Hs2, Hs1. subst w0. cbn [session_cache set_session_cache].
    rewrite map_lookup_filter_Some. done.
  - rewrite Hl2, Hl1, Hc1, Ht1. done.
  - eexists. split; [by rewrite Hj2, Hj1, <-(assoc_L (++))|].
    unfold insert_writes. rewrite Hc1, Ht1, audit_row_logged.
    destruct (_ && _ && _); [by right|by left].
Qed.

End revoke.

Section persist.
Context `{Primitives}.

Lemma c_str_encrypt_session_data p :
  c_str (SessionEncryption.encrypt_session_data p) = SessionEncryption.encrypt_session_data p.
Proof.
  unfold SessionEncryption.encrypt_session_data.
  destruct (EVP.EncryptUpdate _ _). apply c_str_encode.
Qed.

(** X13.  [save_session] on a session whose row is in the database: the
    session is in the cache under its id, and the row found by its hash then
    reads the encrypted data of the session and its validity; the columns
    the function does not assign are as before, and nothing is left staged. *)
Theorem save_session_persists s w rows r0 :
  let h := c_str (session_id_hash s) in
  db_online w = true → pending_updates w = ∅ →
  tables w !! "sessions" = Some rows →
  select_first "session_id_hash" h rows = Some r0 →
  ∃ w' rows' r',
    save_session s w = (Ok tt, w')
    ∧ session_cache w' = <[session_id s := s]> (session_cache w)
    ∧ pending_updates w' = ∅
    ∧ tables w' !! "sessions" = Some rows'
    ∧ select_first "session_id_hash" h rows' = Some r'
    ∧ default EmptyString (r' !! "data_encrypted")
      = SessionEncryption.encrypt_session_data (data s)
    ∧ default EmptyString (r' !! "is_valid") = (if is_valid s then "1" else "0")
    ∧ ∀ c, c ∉ ["user_id"; "data_encrypted"; "updated_at"; "last_activity"; "is_valid"] →
           r' !! c = r0 !! c.
Proof.
  intros h Hon Hp Ht Hsel.
  apply select_first_Some in Hsel as Hr0. destruct Hr0 as [_ Hr0].
  set (key := pending_key "sessions" "session_id_hash" h).
  set (w0 := set_session_cache (<[session_id s := s]> (session_cache w)) w).
  unfold save_session. run. fold w0.
  rewrite (six_sql_find_by_found _ _ _ w0 rows r0) by done. fold h key.
  set (w1 := set_pending_updates _ _).
  assert (Hp1 : pending_updates w1 = {[key := staged "sessions" "session_id_hash" h r0]})
    by (subst w1 w0; cbn; by rewrite Hp, insert_empty).
  rewrite (row_bool_staged key (staged "sessions" "session_id_hash" h r0) w1).
  2:{ by rewrite Hp1, lookup_singleton_eq. }
  2:{ cbn. intros Hempty. by rewrite Hempty in Hr0. }
  cbn [negb].
  rewrite (row_set_single key _ _ _ w1 Hp1).
  cbn [table_name where_column where_value columns staged].
  set (w2 := set_pending_updates _ w1).
  rewrite (row_set_single key _ _ _ w2) by done.
  cbn [table_name where_column where_value columns staged].
  set (w3 := set_pending_updates _ w2).
  rewrite timestamp_now_run.
  set (w4 := set_ticks _ w3).
  rewrite (row_set_single key _ _ _ w4) by done.
  cbn [table_name where_column where_value columns staged].
  set (w5 := set_pending_updates _ w4).
  rewrite timestamp_now_run.
  set (w6 := set_ticks _ w5).
  rewrite (row_set_single key _ _ _ w6) by done.
  cbn [table_name where_column where_value columns staged].
  set (w7 := set_pending_updates _ w6).
  rewrite (row_set_single key _ _ _ w7) by done.
  cbn [table_name where_column where_value columns staged].
  match goal with |- context [set_pending_updates {[key := ?r]} w7] => set (sr := r) end.
  set (w8 := set_pending_updates _ w7).
  rewrite (six_sql_commit_singleton key sr w8) by done.
  assert (Hkey : columns sr !! where_column sr = r0 !! where_column sr)
    by (cbn; by repeat (rewrite lookup_insert_ne by done)).
  destruct (commit_row_first sr w8 rows r0 Ht Hsel Hkey) as (rows' & Ht' & Hsel' & _).
  destruct (commit_row_process sr w8) as (_ & _ & _ & _ & _ & _ & _ & Hs & _).
  eexists _, rows', _. split; [done|]. split; [by cbn; rewrite Hs|]. split; [done|].
  split; [exact Ht'|]. split; [exact Hsel'|]. split_and!.
  - apply committed_column; [|apply c_str_encrypt_session_data]. cbn.
    by repeat (rewrite ?lookup_insert_eq; rewrite ?lookup_insert_ne by done).
  - apply committed_column; [|by destruct (is_valid s)]. cbn. by rewrite lookup_insert_eq.
  - intros c Hc. apply committed_other. cbn.
    repeat (rewrite lookup_insert_ne; [|intros <-; apply Hc; set_solver]). done.
Qed.

(** X14.  [destroy_session] on a cached session whose row is in the
    database: the session leaves the cache, the row found by its hash reads
    0 in is_valid and is as before in its other columns, and one logout
    entry is queued. *)
Theorem destroy_session_invalidates id s w rows r0 :
  let h := c_str (session_id_hash s) in
  session_cache w !! id = Some s →
  db_online w = true → pending_updates w = ∅ →
  tables w !! "sessions" = Some rows →
  select_first "session_id_hash" h rows = Some r0 →
  ∃ w' rows' r',
    destroy_session id w = (Ok tt, w')
    ∧ session_cache w' = delete id (session_cache w)
    ∧ pending_updates w' = ∅
    ∧ tables w' !! "sessions" = Some rows'
    ∧ select_first "session_id_hash" h rows' = Some r'
    ∧ r' !! "is_valid" = Some "0"
    ∧ (∀ c, c ≠ "is_valid" → r' !! c = r0 !! c)
    ∧ log_queue w' = log_queue w ++
        [audit_entry id (user_id s) "logout" EmptyString EmptyString
           "Session destroyed - user logged out" (clock w (ticks w))].
Proof.
  intros h Hs Hon Hp Ht Hsel.
  apply select_first_Some in Hsel as Hr0. destruct Hr0 as [_ Hr0].
  set (key := pending_key "sessions" "session_id_hash" h).
  set (w0 := set_session_cache (delete id (session_cache w)) w).
  unfold destroy_session. run. rewrite Hs. cbn [default]. unfold Datatypes.id. fold w0.
  rewrite (six_sql_find_by_found _ _ _ w0 rows r0) by done. fold h key.
  set (w1 := set_pending_updates _ _).
  assert (Hp1 : pending_updates w1 = {[key := staged "sessions" "session_id_hash" h r0]})
    by (subst w1 w0; cbn; by rewrite Hp, insert_empty).
  rewrite (row_bool_staged key (staged "sessions" "session_id_hash" h r0) w1).
  2:{ by rewrite Hp1, lookup_singleton_eq. }
  2:{ cbn. intros Hempty. by rewrite Hempty in Hr0. }
  rewrite (row_set_single key _ _ _ w1 Hp1).
  cbn [table_name where_column where_value columns staged].
  match goal with |- context [set_pending_updates {[key := ?r]} w1] => set (sr := r) end.
  set (w2 := set_pending_updates _ w1).
  rewrite (six_sql_commit_singleton key sr w2) by done.
  set (w3 := set_pending_updates ∅ (optimized (commit_row sr w2))).
  assert (Hkey : columns sr !! where_column sr = r0 !! where_column sr)
    by (cbn; by rewrite lookup_insert_ne).
  destruct (commit_row_first sr w2 rows r0 Ht Hsel Hkey) as (rows' & Ht' & Hsel' & _).
  destruct (commit_row_process sr w2) as (Hc3 & Hk3 & _ & _ & _ & _ & Hl3 & Hs3 & _).
  destruct (log_session_event_run id (user_id s) "logout" EmptyString EmptyString
              "Session destroyed - user logged out" w3)
    as (w4 & -> & Hc4 & Hk4 & He4 & Hd4 & Hp4 & Hi4 & Hs4 & Hu4 & Hr4 & Hl4 & Hj4 & Htab4 & _).
  exists w4, rows', ((c_str <$> changed_columns (columns sr) r0) ∪ r0).
  split; [done|]. split; [by rewrite Hs4; cbn; rewrite Hs3|]. split; [by rewrite Hp4|].
  split; [by rewrite Htab4|]. split; [exact Hsel'|]. split_and!.
  - cbn [columns sr staged]. rewrite changed_columns_insert.
    destruct (decide (default EmptyString (r0 !! "is_valid") ≠ "0")) as [Hne|Heq].
    + rewrite map_fmap_singleton. apply lookup_union_Some_l, lookup_singleton_eq.
    + apply dec_stable in Heq. rewrite fmap_empty, (left_id_L ∅ (∪)).
      destruct (r0 !! "is_valid"); cbn in Heq; by subst.
  - intros c Hc. apply committed_other. cbn. by rewrite lookup_insert_ne.
  - rewrite Hl4. cbn [w3 log_queue clock ticks set_pending_updates optimized set_journal].
    by rewrite Hl3, Hc3, Hk3.
Qed.

End persist.

(** ** six_sessions.h: [refresh_session] and the salt *)

Section refresh.
Context `{Primitives}.

(** X15.  [refresh_session] compares the stored hash of the refresh token
    with a hash made with a new salt.  When different salts give different
    hashes, no token is accepted for a session whose stored hash was made
    with another salt, not even the token the session was created with: the
    call throws, without making a session. *)
Theorem refresh_session_rejects w sid ip ua s w1 :
  salt_sensitive →
  load_session sid ip ua w = (Ok s, w1) →
  salted_otherwise s w1 →
  ∀ token, ∃ e w',
    refresh_session sid token ip ua w = (Throw e, w')
    ∧ session_cache w' = session_cache w1
    ∧ (exists_ s = true → (16 ≤ length (entropy w1))%nat →
       ∀ h, digest token (Hex.encode (take 16 (entropy w1))) = Ok h →
            e = "Invalid refresh token"
            ∧ w' = (RateLimiter.record_failed_attempt ip
                      (set_entropy (drop 16 (entropy w1)) w1)).2).
Proof.
  intros Hsens Hload (d & b & Hb & Hne & Hstored) token.
  unfold refresh_session. erewrite bind_ok by exact Hload.
  destruct (exists_ s) eqn:Hex; cbn [negb].
  2:{ erewrite bind_ok by apply record_failed_attempt_run. run.
      eexists _, _. split; [done|]. by split. }
  unfold SaltGenerator.get_unique_salt.
  destruct (decide (16 ≤ length (entropy w1))%nat) as [Hent|Hent].
  2:{ erewrite bind_throw.
      2:{ rewrite generate_random_salt_run. by rewrite decide_False by done. }
      eexists _, _. split; [done|]. split; [done|]. intros _ Hlen. by destruct Hent. }
  erewrite bind_ok.
  2:{ rewrite generate_random_salt_run. by rewrite decide_True by done. }
  set (w2 := set_entropy _ w1).
  destruct (digest token (Hex.encode (take 16 (entropy w1)))) as [h|e] eqn:Hdig.
  2:{ erewrite bind_throw by (by rewrite hash_with_salt_run, Hdig).
      eexists _, _. split; [done|]. split; [done|]. by intros _ _ h Hh. }
  erewrite bind_ok by (by rewrite hash_with_salt_run, Hdig).
  rewrite bool_decide_true.
  2:{ intros ->. apply Hne. symmetry. eapply Hsens; [|done|exact Hdig|exact Hstored].
      rewrite length_take. lia. }
  erewrite bind_ok by apply record_failed_attempt_run. run.
  eexists _, _. split; [done|]. split; [done|]. intros _ _ h' Hh'. split; [done|].
  by rewrite record_failed_attempt_run.
Qed.

End refresh.

(** ** six_sessions.h: the size of what [SessionEncryption] returns *)

Lemma length_list_ascii_of_string (s : string) :
  length (list_ascii_of_string s) = String.length s.
Proof. induction s as [|c s IH]; [done|]. cbn. by rewrite IH. Qed.

Lemma length_string_of_list_ascii (l : list ascii) :
  String.length (string_of_list_ascii l) = length l.
Proof. induction l as [|c l IH]; [done|]. cbn. by rewrite IH. Qed.

Lemma last_fmap {A B} (f : A → B) (l : list A) d :
  List.last (f <$> l) (f d) = f (List.last l d).
Proof.
  revert d. induction l as [|a l IH]; intros d; [done|].
  rewrite fmap_cons, !last_cons. apply IH.
Qed.

Lemma last_is_block (bs : list (list ascii)) d :
  Forall is_block bs → is_block d → is_block (List.last bs d).
Proof.
  intros Hbs. revert d. induction Hbs as [|b bs Hb _ IH]; intros d Hd; [done|].
  rewrite last_cons. by apply IH.
Qed.

Section sizes.
Context `{Primitives}.
Import EVP.

Lemma length_cbc_encrypt key prev bs : length (cbc_encrypt key prev bs) = length bs.
Proof. revert prev. induction bs as [|b bs IH]; intros prev; [done|]. cbn. by rewrite IH. Qed.

Lemma length_cbc_decrypt key prev cs : length (cbc_decrypt key prev cs) = length cs.
Proof. revert prev. induction cs as [|c cs IH]; intros prev; [done|]. cbn. by rewrite IH. Qed.

(** X16.  The encrypted session data is as many blocks as the plain text has
    whole blocks, and one more for the padding, written as hexadecimal
    digits: never empty, and free of NUL bytes. *)
Theorem encrypt_session_data_length (p : string) :
  (∀ b, is_block b → is_block (AES_encrypt SessionEncryption.MASTER_KEY b)) →
  String.length (SessionEncryption.encrypt_session_data p)
  = (32 * (String.length p / 16 + 1))%nat
  ∧ hex_text (SessionEncryption.encrypt_session_data p).
Proof.
  intros HAES. unfold SessionEncryption.encrypt_session_data, EncryptUpdate, EncryptFinal_ex.
  cbn [Init_ex ctx_buf ctx_key ctx_iv app].
  split; [|apply hex_text_encode].
  set (data := list_ascii_of_string p).
  set (n := (length data / block_size)%nat).
  assert (Hn : (n * block_size ≤ length data)%nat).
  { unfold n. rewrite Nat.mul_comm. apply Nat.Div0.mul_div_le. }
  assert (Hout : Forall is_block
                   (cbc_encrypt SessionEncryption.MASTER_KEY SessionEncryption.MASTER_IV
                      (blocks n data))).
  { apply cbc_encrypt_is_block; [done|apply MASTER_IV_is_block|by apply blocks_is_block]. }
  rewrite length_encode, length_app, (length_concat_blocks _ Hout), length_cbc_encrypt,
    length_blocks.
  assert (Hlast : is_block (AES_encrypt SessionEncryption.MASTER_KEY
            (xor_block
               (drop (n * block_size) data ++
                replicate (block_size - length (drop (n * block_size) data))
                  (ascii_of_nat (block_size - length (drop (n * block_size) data))))
               (List.last
                  (cbc_encrypt SessionEncryption.MASTER_KEY SessionEncryption.MASTER_IV
                     (blocks n data)) SessionEncryption.MASTER_IV)))).
  { apply HAES, xor_block_is_block; [|by apply last_is_block, MASTER_IV_is_block].
    unfold is_block. rewrite length_app, length_replicate, length_drop.
    assert (length data - n * block_size < block_size)%nat; [|lia].
    unfold n, block_size.
    pose proof (Nat.div_mod_eq (length data) 16).
    pose proof (Nat.mod_upper_bound (length data) 16). lia. }
  unfold is_block in Hlast. rewrite Hlast.
  unfold n, data, block_size. rewrite length_list_ascii_of_string. lia.
Qed.

Lemma length_decode_pair (s : string) :
  length (Hex.decode s) = (String.length s / 2)%nat
  ∧ ∀ c, length (Hex.decode (String c s)) = (S (String.length s) / 2)%nat.
Proof.
  induction s as [|a s [IH1 IH2]].
  - split; [done|]. intros c. done.
  - split; [apply IH2|]. intros c. cbn [Hex.decode length String.length]. rewrite IH1.
    change (S (S (String.length s))) with (1 * 2 + String.length s)%nat.
    rewrite Nat.div_add_l by done. lia.
Qed.

Lemma length_decode (s : string) : length (Hex.decode s) = (String.length s / 2)%nat.
Proof. apply length_decode_pair. Qed.

Lemma length_xor_block x y : (length (xor_block x y) ≤ length y)%nat.
Proof. unfold xor_block. rewrite length_zip_with. lia. Qed.

Lemma cbc_decrypt_bound key prev cs :
  is_block prev → Forall is_block cs →
  Forall (λ b, (length b ≤ block_size)%nat) (cbc_decrypt key prev cs).
Proof.
  intros Hp Hcs. revert prev Hp. induction Hcs as [|c cs Hc _ IH]; intros prev Hp; cbn; [done|].
  constructor; [|by apply IH]. rewrite <-Hp. apply length_xor_block.
Qed.

Lemma length_concat_bound (bs : list (list ascii)) :
  Forall (λ b, (length b ≤ block_size)%nat) bs →
  (length (concat bs) ≤ length bs * block_size)%nat.
Proof.
  induction 1 as [|b bs Hb _ IH]; [done|]. cbn [concat length]. rewrite length_app. lia.
Qed.

(** X17.  Given a text of an even number of characters, hexadecimal digits
    or not, [decrypt_session_data] returns at most half as many bytes as the
    text has characters: what it writes fits in the buffer it allocates,
    which has as many bytes as the text has characters. *)
Theorem decrypt_session_data_bound (c : string) :
  Nat.even (String.length c) = true →
  (String.length (SessionEncryption.decrypt_session_data c) ≤ String.length c / 2)%nat.
Proof.
  intros _.
  unfold SessionEncryption.decrypt_session_data. rewrite <-length_decode.
  set (input := Hex.decode c). unfold DecryptUpdate.
  destruct input as [|a input'] eqn:Hin; [cbn; lia|]. rewrite <-Hin. clear Hin.
  cbn [Init_ex ctx_buf ctx_key ctx_iv ctx_final app from_option].
  set (n := (length input / block_size)%nat).
  assert (Hn : (n * block_size ≤ length input)%nat).
  { unfold n. rewrite Nat.mul_comm. apply Nat.Div0.mul_div_le. }
  set (out := cbc_decrypt SessionEncryption.MASTER_KEY SessionEncryption.MASTER_IV
                (blocks n input)).
  assert (Hout : Forall (λ b, (length b ≤ block_size)%nat) out).
  { apply cbc_decrypt_bound; [apply MASTER_IV_is_block|by apply blocks_is_block]. }
  assert (Hlen : length out = n) by (unfold out; by rewrite length_cbc_decrypt, length_blocks).
  pose proof (length_concat_bound out Hout) as Hall. rewrite Hlen in Hall.
  destruct (drop (n * block_size) input) as [|r rest] eqn:Hrest.
  - rewrite length_string_of_list_ascii, length_app.
    unfold DecryptFinal_ex. cbn [ctx_buf ctx_final].
    destruct (decide (out = [])) as [->|Hne]; [cbn; lia|].
    rewrite (app_removelast_last [] Hne) in Hall at 1.
    rewrite concat_app, length_app in Hall. cbn [concat] in Hall. rewrite app_nil_r in Hall.
    assert (Hlast : List.last (Some <$> out) None = Some (List.last out [])).
    { clear -Hne. destruct out as [|b out]; [done|].
      rewrite fmap_cons, !last_cons. apply last_fmap. }
    rewrite Hlast.
    match goal with |- (_ + length ?x ≤ _)%nat =>
      assert (Hfin : (length x ≤ length (List.last out []))%nat)
        by (case_bool_decide; [rewrite length_take; lia|cbn [length]; lia]) end.
    unfold block_size in *. lia.
  - rewrite length_string_of_list_ascii, length_app.
    unfold DecryptFinal_ex. cbn [ctx_buf ctx_final length]. lia.
Qed.

End sizes.

(** ** six_login.h: logging in and out *)

Lemma set_header_run key value w :
  ∃ w', set_header key value w = (Ok tt, w')
        ∧ same_but_response w w'
        ∧ status_and_body w' = status_and_body w
        ∧ (is_Some (g_current_response w') ↔ is_Some (g_current_response w))
        ∧ ∀ k, header w' k = if decide (k = key) then (λ _, value) <$> g_current_response w
                             else header w k.
Proof.
  eexists. split; [reflexivity|]. unfold same_but_response, status_and_body, header, same_process.
  cbn. destruct (g_current_response w) as [r|]; cbn.
  - split_and!; try done.
    intros k. destruct (decide (k = key)) as [->|Hne];
      [by rewrite lookup_insert_eq|by rewrite lookup_insert_ne].
  - split_and!; try done. intros k. by destruct (decide _).
Qed.

Lemma same_but_response_refl w : same_but_response w w.
Proof. unfold same_but_response, same_process. by destruct w. Qed.

Lemma same_but_response_trans w1 w2 w3 :
  same_but_response w1 w2 → same_but_response w2 w3 → same_but_response w1 w3.
Proof.
  unfold same_but_response, same_process. cbn.
  intros ((?&?&?&?&?&?&?&?&?&?)&?&?) ((?&?&?&?&?&?&?&?&?&?)&?&?).
  split_and!; congruence.
Qed.

Section logout.
Context `{Primitives}.

(** The try block of [logout_user]. *)
Lemma logout_block_run sid uid ip ua w :
  ∃ w1 w2,
    try_catch
      (destroy_session sid;;
       SessionAuditLogger.log_session_event sid uid "logout" ip ua "User logged out")
      (mret tt) w = (Ok tt, w2)
    ∧ destroy_session sid w = (Ok tt, w1)
    ∧ SessionAuditLogger.log_session_event sid uid "logout" ip ua "User logged out" w1
      = (Ok tt, w2)
    ∧ same_visitor w w2
    ∧ session_cache w2 = delete sid (session_cache w)
    ∧ log_queue w2 = log_queue w1 ++
        [audit_entry sid uid "logout" ip ua "User logged out" (clock w1 (ticks w1))].
Proof.
  destruct (destroy_session_cache sid w) as (w1 & Hdestroy & Hcache).
  destruct (log_session_event_run sid uid "logout" ip ua "User logged out" w1)
    as (w2 & Hlog & _ & _ & _ & _ & _ & _ & Hs2 & Hu2 & Hr2 & Hl2 & _).
  exists w1, w2. split.
  { unfold try_catch. erewrite bind_ok by exact Hdestroy. by rewrite Hlog. }
  split; [done|]. split; [done|].
  apply keeps_destroy_session in Hdestroy as [Hu1 Hr1].
  split; [split; congruence|]. split; [congruence|done].
Qed.

Lemma logout_user_run w :
  let u := current_user w in
  let sid := CurrentUser.session_id u in
  ∃ w', logout_user w = (Ok tt, w')
    ∧ current_user w' = CurrentUser.initial
    ∧ session_cache w' =
        (if decide (sid = EmptyString) then session_cache w else delete sid (session_cache w))
    ∧ (is_Some (g_current_response w) →
         header w' "Set-Cookie"
           = Some "session_id=; Path=/; Max-Age=0; HttpOnly; Secure; SameSite=Strict"
         ∧ header w' "X-Clear-Refresh-Token" = Some "true"
         ∧ header w' "Cache-Control" = Some "no-store, no-cache, must-revalidate")
    ∧ status_and_body w' = status_and_body w
    ∧ (sid ≠ EmptyString →
         ∃ q t, log_queue w' = q ++
           [audit_entry sid (CurrentUser.id u) "logout" (CurrentUser.ip_address u)
              (CurrentUser.user_agent u) "User logged out" t]).
Proof.
  intros u sid. unfold logout_user. erewrite bind_ok by reflexivity. fold u sid.
  assert (Hblock : ∃ wb,
    (if bool_decide (sid ≠ EmptyString)
     then try_catch
            (destroy_session sid;;
             SessionAuditLogger.log_session_event sid (CurrentUser.id u) "logout"
               (CurrentUser.ip_address u) (CurrentUser.user_agent u) "User logged out")
            (mret tt)
     else mret tt) w = (Ok tt, wb)
    ∧ same_visitor w wb
    ∧ session_cache wb =
        (if decide (sid = EmptyString) then session_cache w else delete sid (session_cache w))
    ∧ (sid ≠ EmptyString →
         ∃ q t, log_queue wb = q ++
           [audit_entry sid (CurrentUser.id u) "logout" (CurrentUser.ip_address u)
              (CurrentUser.user_agent u) "User logged out" t])).
  { destruct (decide (sid = EmptyString)) as [Hsid|Hsid].
    - rewrite bool_decide_false by (by intros []). exists w. by split_and!.
    - rewrite bool_decide_true by done.
      destruct (logout_block_run sid (CurrentUser.id u) (CurrentUser.ip_address u)
                  (CurrentUser.user_agent u) w) as (w1 & w2 & Hrun & _ & _ & Hv & Hc & Hl).
      exists w2. split_and!; try done. intros _. by eexists _, _. }
  destruct Hblock as (wb & Hblock & [Hub Hrb] & Hcb & Hlb).
  erewrite bind_ok by exact Hblock.
  destruct (set_header_run "Set-Cookie"
              "session_id=; Path=/; Max-Age=0; HttpOnly; Secure; SameSite=Strict" wb)
    as (w3 & Hrun3 & Hsame3 & Hsb3 & Hsome3 & Hh3).
  erewrite bind_ok by exact Hrun3.
  destruct (set_header_run "X-Clear-Refresh-Token" "true" w3)
    as (w4 & Hrun4 & Hsame4 & Hsb4 & Hsome4 & Hh4).
  erewrite bind_ok by exact Hrun4.
  destruct (set_header_run "Cache-Control" "no-store, no-cache, must-revalidate" w4)
    as (w5 & Hrun5 & Hsame5 & Hsb5 & Hsome5 & Hh5).
  erewrite bind_ok by exact Hrun5.
  pose proof (same_but_response_trans _ _ _ (same_but_response_trans _ _ _ Hsame3 Hsame4) Hsame5)
    as ((_ & _ & _ & _ & _ & _ & Hl5 & Hs5 & _) & _).
  cbn in Hl5, Hs5.
  eexists. split; [reflexivity|]. cbn [current_user set_current_user].
  split; [done|]. split; [cbn; congruence|]. split; [|split].
  - intros Hresp. unfold header in *. cbn [g_current_response set_current_user].
    assert (Hb : is_Some (g_current_response wb)) by (by rewrite Hrb).
    assert (H3 : is_Some (g_current_response w3)) by (by apply Hsome3).
    assert (H4 : is_Some (g_current_response w4)) by (by apply Hsome4).
    destruct Hb as [rb Hb], H3 as [r3 H3], H4 as [r4 H4].
    rewrite !Hh5, !Hh4, !Hh3, H4, H3, Hb. cbn. done.
  - unfold status_and_body in *. cbn [g_current_response set_current_user].
    by rewrite Hsb5, Hsb4, Hsb3, Hrb.
  - intros Hsid. destruct (Hlb Hsid) as (q & t & Hq). exists q, t.
    cbn [log_queue set_current_user]. congruence.
Qed.

(** X18.  [logout_user] never throws.  It leaves no current user, takes the
    session of the current user out of the cache, queues a logout entry for
    it, and sets the headers that make the browser drop the cookie; status
    and body of the response are not touched.  After it [require_auth]
    answers false. *)
Theorem logout_user_clears w :
  let u := current_user w in
  let sid := CurrentUser.session_id u in
  ∃ w', logout_user w = (Ok tt, w')
    ∧ current_user w' = CurrentUser.initial
    ∧ session_cache w' =
        (if decide (sid = EmptyString) then session_cache w else delete sid (session_cache w))
    ∧ (is_Some (g_current_response w) →
         header w' "Set-Cookie"
           = Some "session_id=; Path=/; Max-Age=0; HttpOnly; Secure; SameSite=Strict"
         ∧ header w' "X-Clear-Refresh-Token" = Some "true"
         ∧ header w' "Cache-Control" = Some "no-store, no-cache, must-revalidate")
    ∧ status_and_body w' = status_and_body w
    ∧ (sid ≠ EmptyString →
         ∃ q t, log_queue w' = q ++
           [audit_entry sid (CurrentUser.id u) "logout" (CurrentUser.ip_address u)
              (CurrentUser.user_agent u) "User logged out" t])
    ∧ (require_auth w').1 = Ok false.
Proof.
  intros u sid.
  destruct (logout_user_run w) as (w' & Hrun & Hu & Hcache & Hheaders & Hbody & Hlog).
  exists w'. split_and!; try done.
  by rewrite require_auth_spec, Hu.
Qed.

End logout.

Lemma row_get_present key sr c v w :
  pending_updates w !! key = Some sr → columns sr !! c = Some v →
  row_get (Some key) c w = (Ok v, w).
Proof. intros Hp Hc. unfold row_get. by rewrite Hp, Hc. Qed.

Lemma same_but_response_fields w w' :
  same_but_response w w' →
  clock w' = clock w ∧ ticks w' = ticks w ∧ pending_updates w' = pending_updates w
  ∧ ip_attempts w' = ip_attempts w ∧ log_queue w' = log_queue w
  ∧ session_cache w' = session_cache w ∧ current_user w' = current_user w.
Proof. intros ((?&?&?&?&?&?&?&?&?&?)&?&?). cbn in *. by split_and!. Qed.

Section login_user.
Context `{Primitives}.

(** X19.  [login_user] for a user row that was looked up, with its id and
    name, when [create_session] succeeds for the address and the agent of
    the request: the current user is that user, authenticated and bound to
    the new session; the response carries the session cookie and the refresh
    token, also through a [redirect]; the session is in the cache, a login
    entry is queued, the failures counted for the address are forgotten, and
    [require_auth] answers true. *)
Theorem login_user_success req key sr id_text name uid s w w1 :
  let ip := get_client_ip_from_request req in
  let ua := get_user_agent_from_request req in
  is_Some (g_current_response w) →
  pending_updates w !! key = Some sr →
  columns sr !! "id" = Some id_text → columns sr !! "username" = Some name →
  stoi id_text w = (Ok uid, w) →
  create_session uid ip ua w = (Ok s, w1) →
  ∃ w', login_user (Some req) (Some key) w = (Ok tt, w')
    ∧ current_user w' =
        {| CurrentUser.is_authenticated := true; CurrentUser.id := uid;
           CurrentUser.data := columns sr ∪ CurrentUser.data (current_user w);
           CurrentUser.session_id := session_id s;
           CurrentUser.ip_address := ip; CurrentUser.user_agent := ua;
           CurrentUser.refresh_token := refresh_token s |}
    ∧ header w' "Set-Cookie" = Some (session_cookie (session_id s))
    ∧ header w' "X-Refresh-Token" = Some (refresh_token s)
    ∧ session_cache w' = <[session_id s := s]> (session_cache w)
    ∧ (∃ t, log_queue w' = log_queue w1 ++
              [audit_entry (session_id s) uid "login" ip ua
                 ("User " +:+ name +:+ " logged in") t])
    ∧ attempts (RateLimiter.entry_of ip w') = 0
    ∧ require_auth w' = (Ok true, w')
    ∧ ∀ url, ∃ r, redirect url w' = (Ok r, w')
        ∧ http_response.status r = 302 ∧ http_response.location r = url
        ∧ http_response.headers r !! "Set-Cookie" = Some (session_cookie (session_id s)).
Proof.
  intros ip ua Hresp Hkey Hid Hname Hstoi Hcreate.
  destruct (create_session_inv _ _ _ _ _ _ Hcreate)
    as (_ & _ & _ & _ & _ & _ & _ & _ & _ & _ & _ & _ & _ & _ & Hcache1 & _ & _ & Hp1 & _).
  apply keeps_create_session in Hcreate as Hv1. destruct Hv1 as [Hu1 Hr1].
  unfold login_user.
  erewrite bind_ok.
  2:{ apply (row_bool_staged key sr w Hkey). intros Hempty. by rewrite Hempty in Hid. }
  erewrite bind_ok by reflexivity.
  destruct Hresp as [resp Hresp]. rewrite Hresp. cbn [negb].
  assert (Hbody : ∃ w',
    (id_text ← row_get (Some key) "id";
     user_id ← stoi id_text;
     let client_ip := get_client_ip_from_request req in
     let user_agent := get_user_agent_from_request req in
     session ← create_session user_id client_ip user_agent;
     set_header "Set-Cookie"
       ("session_id=" +:+ session_id session +:+
        "; Path=/; Max-Age=3600; HttpOnly; Secure; SameSite=Strict");;
     set_header "X-Refresh-Token" (refresh_token session);;
     set_header "X-Refresh-Max-Age" (to_string (30 * 24 * 3600));;
     set_header "Strict-Transport-Security" "max-age=31536000; includeSubDomains; preload";;
     set_header "X-Frame-Options" "DENY";;
     set_header "X-Content-Type-Options" "nosniff";;
     set_header "X-XSS-Protection" "1; mode=block";;
     username ← row_get (Some key) "username";
     SessionAuditLogger.log_session_event (session_id session) user_id "login"
       client_ip user_agent ("User " +:+ username +:+ " logged in");;
     RateLimiter.clear_failed_attempts client_ip;;
     update_current_user (λ u,
       {| CurrentUser.is_authenticated := true;
          CurrentUser.id := user_id;
          CurrentUser.data := CurrentUser.data u;
          CurrentUser.session_id := session_id session;
          CurrentUser.ip_address := client_ip;
          CurrentUser.user_agent := user_agent;
          CurrentUser.refresh_token := refresh_token session |});;
     cols ← row_columns (Some key);
     update_current_user (λ u,
       {| CurrentUser.is_authenticated := CurrentUser.is_authenticated u;
          CurrentUser.id := CurrentUser.id u;
          CurrentUser.data := cols ∪ CurrentUser.data u;
          CurrentUser.session_id := CurrentUser.session_id u;
          CurrentUser.ip_address := CurrentUser.ip_address u;
          CurrentUser.user_agent := CurrentUser.user_agent u;
          CurrentUser.refresh_token := CurrentUser.refresh_token u |})) w = (Ok tt, w')
    ∧ current_user w' =
        {| CurrentUser.is_authenticated := true; CurrentUser.id := uid;
           CurrentUser.data := columns sr ∪ CurrentUser.data (current_user w);
           CurrentUser.session_id := session_id s;
           CurrentUser.ip_address := ip; CurrentUser.user_agent := ua;
           CurrentUser.refresh_token := refresh_token s |}
    ∧ header w' "Set-Cookie" = Some (session_cookie (session_id s))
    ∧ header w' "X-Refresh-Token" = Some (refresh_token s)
    ∧ session_cache w' = session_cache w1
    ∧ (∃ t, log_queue w' = log_queue w1 ++
              [audit_entry (session_id s) uid "login" ip ua
                 ("User " +:+ name +:+ " logged in") t])
    ∧ attempts (RateLimiter.entry_of ip w') = 0).
  { erewrite bind_ok by (by apply (row_get_present key sr)).
    erewrite bind_ok by exact Hstoi. cbn zeta. fold ip ua.
    erewrite bind_ok by exact Hcreate.
    destruct (set_header_run "Set-Cookie" (session_cookie (session_id s)) w1)
      as (w2 & Hrun2 & Hsame2 & _ & Hsome2 & Hh2).
    erewrite bind_ok by exact Hrun2.
    destruct (set_header_run "X-Refresh-Token" (refresh_token s) w2)
      as (w3 & Hrun3 & Hsame3 & _ & Hsome3 & Hh3).
    erewrite bind_ok by exact Hrun3.
    destruct (set_header_run "X-Refresh-Max-Age" (to_string (30 * 24 * 3600)) w3)
      as (w4 & Hrun4 & Hsame4 & _ & Hsome4 & Hh4).
    erewrite bind_ok by exact Hrun4.
    destruct (set_header_run "Strict-Transport-Security"
                "max-age=31536000; includeSubDomains; preload" w4)
      as (w5 & Hrun5 & Hsame5 & _ & Hsome5 & Hh5).
    erewrite bind_ok by exact Hrun5.
    destruct (set_header_run "X-Frame-Options" "DENY" w5)
      as (w6 & Hrun6 & Hsame6 & _ & Hsome6 & Hh6).
    erewrite bind_ok by exact Hrun6.
    destruct (set_header_run "X-Content-Type-Options" "nosniff" w6)
      as (w7 & Hrun7 & Hsame7 & _ & Hsome7 & Hh7).
    erewrite bind_ok by exact Hrun7.
    destruct (set_header_run "X-XSS-Protection" "1; mode=block" w7)
      as (w8 & Hrun8 & Hsame8 & _ & Hsome8 & Hh8).
    erewrite bind_ok by exact Hrun8.
    assert (Hsame : same_but_response w1 w8)
      by (repeat (eapply same_but_response_trans; [|eassumption]); apply same_but_response_refl).
    apply same_but_response_fields in Hsame as (Hc8 & Hk8 & Hp8 & Hi8 & Hl8 & Hs8 & Hu8).
    erewrite bind_ok by (apply (row_get_present key sr); [congruence|done]).
    destruct (log_session_event_run (session_id s) uid "login" ip ua
                ("User " +:+ name +:+ " logged in") w8)
      as (w9 & Hlog & Hc9 & Hk9 & He9 & Hd9 & Hp9 & Hi9 & Hs9 & Hu9 & Hr9 & Hl9 & _).
    erewrite bind_ok by exact Hlog.
    erewrite bind_ok by apply clear_failed_attempts_run.
    erewrite bind_ok by reflexivity.
    erewrite bind_ok.
    2:{ unfold row_columns, gets. cbn [pending_updates set_current_user set_ip_attempts].
        rewrite Hp9, Hp8, Hp1, Hkey. reflexivity. }
    eexists. split; [reflexivity|].
    cbn [current_user set_current_user set_ip_attempts
         CurrentUser.is_authenticated CurrentUser.id CurrentUser.data
         CurrentUser.session_id CurrentUser.ip_address CurrentUser.user_agent
         CurrentUser.refresh_token].
    split; [by rewrite Hu9, Hu8, Hu1|].
    assert (Hr8 : is_Some (g_current_response w1)) by (by rewrite Hr1, Hresp).
    assert (H2 : is_Some (g_current_response w2)) by (by apply Hsome2).
    destruct Hr8 as [r1 Hr8], H2 as [r2 H2].
    split; [|split].
    - unfold header in *. cbn [g_current_response set_current_user set_ip_attempts].
      rewrite Hr9. rewrite Hh8, Hh7, Hh6, Hh5, Hh4, Hh3, Hh2, Hr8.
      repeat (rewrite decide_False by done). by rewrite decide_True by done.
    - unfold header in *. cbn [g_current_response set_current_user set_ip_attempts].
      rewrite Hr9. rewrite Hh8, Hh7, Hh6, Hh5, Hh4, Hh3, H2.
      repeat (rewrite decide_False by done). by rewrite decide_True by done.
    - cbn [session_cache log_queue set_current_user set_ip_attempts].
      split; [congruence|]. split; [exists (clock w8 (ticks w8)); congruence|].
      unfold RateLimiter.entry_of. cbn [ip_attempts set_current_user set_ip_attempts].
      by rewrite lookup_insert_eq. }
  destruct Hbody as (w' & Hrun & Hu' & Hcookie & Hrefresh & Hcache' & Hlog' & Hlim').
  exists w'. split.
  { unfold try_catch.
    match goal with |- context [let (_, _) := ?m w in _] =>
      pose proof (Hrun : m w = (Ok tt, w')) as Hrun' end.
    by rewrite Hrun'. }
  split; [done|]. split; [done|]. split; [done|]. split; [congruence|].
  split; [done|]. split; [done|]. split.
  - by rewrite require_auth_spec, Hu'.
  - intros url. unfold header in Hcookie.
    destruct (g_current_response w') as [r'|] eqn:Hr'; [|done].
    eexists. split; [unfold redirect; erewrite bind_ok by reflexivity; by rewrite Hr'|].
    done.
Qed.

End login_user.

Lemma row_get_fields row c w :
  ∃ v w', row_get row c w = (Ok v, w')
          ∧ same_visitor w w' ∧ same_cache w w'
          ∧ clock w' = clock w ∧ ticks w' = ticks w ∧ ip_attempts w' = ip_attempts w
          ∧ log_queue w' = log_queue w ∧ tables w' = tables w ∧ journal w' = journal w
          ∧ entropy w' = entropy w.
Proof.
  unfold row_get. repeat case_match; eexists _, _; (split; [reflexivity|]); by split_and!.
Qed.

Section login_refused.
Context `{Primitives}.

(** X20.  [login_user] never throws, and it does nothing at all without a
    request, a response or a user row.  For a caller whose address is rate
    limited nobody is logged in: the current user, the response, the cache,
    the audit queue and the tables stay as they are. *)
Theorem login_user_refused req user w :
  (∃ w', login_user req user w = (Ok tt, w'))
  ∧ (req = None ∨ g_current_response w = None ∨ row_bool user w = (Ok false, w) →
     login_user req user w = (Ok tt, w))
  ∧ (∀ r, req = Some r → throttled (get_client_ip_from_request r) w →
     ∃ w', login_user req user w = (Ok tt, w')
           ∧ same_visitor w w' ∧ session_cache w' = session_cache w
           ∧ log_queue w' = log_queue w ∧ tables w' = tables w).
Proof.
  assert (Hnever : ∃ w', login_user req user w = (Ok tt, w')).
  { unfold login_user. destruct (row_bool user w) as [[found|e] w0] eqn:Hfound.
    2:{ unfold row_bool in Hfound. simplify_eq. }
    apply row_bool_pure in Hfound as Hw0. subst w0.
    erewrite bind_ok by exact Hfound. erewrite bind_ok by reflexivity.
    destruct req as [r|], (g_current_response w) as [resp|]; try (by eexists).
    destruct found; cbn [negb]; [|by eexists].
    unfold try_catch. match goal with |- context [let (_, _) := ?m in _] => destruct m as [[[]|e] w'] end;
      by eexists. }
  split; [done|]. split.
  - intros Hnone. unfold login_user.
    destruct (row_bool user w) as [[found|e] w0] eqn:Hfound.
    2:{ unfold row_bool in Hfound. simplify_eq. }
    apply row_bool_pure in Hfound as Hw0. subst w0.
    erewrite bind_ok by exact Hfound. erewrite bind_ok by reflexivity.
    destruct Hnone as [->|[->|?]]; [done|by destruct req|].
    simplify_eq. by destruct req, (g_current_response w).
  - intros r -> Hthr. unfold login_user.
    destruct (row_bool user w) as [[found|e] w0] eqn:Hfound.
    2:{ unfold row_bool in Hfound. simplify_eq. }
    apply row_bool_pure in Hfound as Hw0. subst w0.
    erewrite bind_ok by exact Hfound. erewrite bind_ok by reflexivity.
    destruct (g_current_response w) as [resp|] eqn:Hresp; [|by eexists].
    destruct found; cbn [negb]; [|by eexists].
    destruct (row_get_fields user "id" w)
      as (id_text & w0 & Hget & Hv0 & Hs0 & Hc0 & Hk0 & Hi0 & Hl0 & Ht0 & Hj0 & He0).
    unfold try_catch. erewrite bind_ok by exact Hget.
    destruct (stoi id_text w0) as [[uid|e] w0'] eqn:Hstoi.
    2:{ apply stoi_pure in Hstoi as Hw0'. subst w0'. erewrite bind_throw by exact Hstoi.
        eexists. split; [done|]. unfold same_cache in Hs0. by split_and!. }
    apply stoi_pure in Hstoi as Hw0'. subst w0'.
    erewrite bind_ok by exact Hstoi. cbn zeta.
    assert (Hthr0 : throttled (get_client_ip_from_request r) w0)
      by (unfold throttled, RateLimiter.entry_of in *; by rewrite Hc0, Hk0, Hi0).
    pose proof (create_session_throttled_run uid _ (get_user_agent_from_request r) _ Hthr0)
      as Hcreate.
    set (w1 := set_ip_attempts _ _) in Hcreate.
    assert (session_cache w1 = session_cache w0 ∧ tables w1 = tables w0
            ∧ journal w1 = journal w0 ∧ entropy w1 = entropy w0
            ∧ log_queue w1 = log_queue w0) as (Hs1 & Ht1 & Hj1 & He1 & Hl1) by done.
    clearbody w1.
    apply keeps_create_session in Hcreate as Hv1.
    erewrite bind_throw by exact Hcreate.
    eexists. split; [done|]. destruct Hv0, Hv1. unfold same_cache in Hs0.
    split; [split; congruence|]. split_and!; congruence.
Qed.

End login_refused.

(** ** six_login.h: the current user of a request *)

Section present.
Context `{Primitives}.

(** A session [load_session] returns as present is in the cache under the
    id, and is bound to the address and the agent of the caller. *)
Lemma load_session_present id ip ua w s w1 :
  load_session id ip ua w = (Ok s, w1) → exists_ s = true →
  session_cache w1 !! id = Some s ∧ ip_address s = ip ∧ user_agent s = ua.
Proof.
  intros Hrun Hex. destruct (session_cache w !! id) as [s0|] eqn:Hs.
  - destruct (decide (binding_mismatch s0 ip ua)) as [Hm|Hm].
    + rewrite (load_session_mismatch_run _ _ _ _ _ Hs Hm) in Hrun. by simplify_eq.
    + assert (ip = ip_address s0 ∧ ua = user_agent s0) as [-> ->].
      { unfold binding_mismatch in Hm. split; apply dec_stable; naive_solver. }
      rewrite (load_session_match_run _ _ _ Hs) in Hrun.
      destruct (string_gt _ _) eqn:Hgt; by simplify_eq.
  - revert Hrun. unfold load_session. run. rewrite Hs. unfold load_session_from_db.
    intros Hrun.
    apply bind_ok_inv in Hrun as (salt & w2 & _ & Hrun).
    apply bind_ok_inv in Hrun as (hash & w3 & _ & Hrun).
    apply bind_ok_inv in Hrun as (row & w4 & _ & Hrun).
    apply bind_ok_inv in Hrun as (found & w5 & _ & Hrun).
    destruct found; cbn [negb] in Hrun; [|by revert Hrun; run; intros; simplify_eq].
    repeat match type of Hrun with
    | (row_get _ _ ≫= _) _ = _ => apply bind_ok_inv in Hrun as (? & ? & _ & Hrun)
    | (stoi _ ≫= _) _ = _ => apply bind_ok_inv in Hrun as (? & ? & _ & Hrun)
    | (try_catch _ _ ≫= _) _ = _ => apply bind_ok_inv in Hrun as (? & ? & _ & Hrun)
    end.
    destruct (_ || _) eqn:Hbind.
    { apply bind_ok_inv in Hrun as (? & ? & _ & Hrun). revert Hrun; run; intros; by simplify_eq. }
    apply orb_false_elim in Hbind as [Hip%bool_decide_eq_false Hua%bool_decide_eq_false].
    apply dec_stable in Hip, Hua.
    apply bind_ok_inv in Hrun as (now & w6 & _ & Hrun).
    destruct (string_gt now _); [by revert Hrun; run; intros; simplify_eq|].
    apply bind_ok_inv in Hrun as ([] & w7 & Hmod & Hrun).
    apply bind_ok_inv in Hrun as ([] & w8 & Hlog & Hrun).
    apply (keeps_log_session_event same_cache) in Hlog.
    revert Hmod Hrun. run. intros; simplify_eq. cbn.
    split; [|done]. rewrite Hlog. cbn. by rewrite lookup_insert_eq.
Qed.

(** X21.  [load_session] hands a present session only to a caller that has
    the address and the agent the session is bound to, from the cache or
    from the database alike; the session is then in the cache under the id
    asked for, and had not expired when the call was made. *)
Theorem load_session_bound id ip ua w s w1 :
  load_session id ip ua w = (Ok s, w1) → exists_ s = true →
  ip_address s = ip ∧ user_agent s = ua
  ∧ session_cache w1 !! id = Some s
  ∧ ¬ expired_at w s.
Proof.
  intros Hrun Hex. destruct (load_session_present _ _ _ _ _ _ Hrun Hex) as (Hc & Hip & Hua).
  split_and!; try done. unfold expired_at.
  destruct (session_cache w !! id) as [s0|] eqn:Hs.
  - destruct (decide (binding_mismatch s0 ip ua)) as [Hm|Hm].
    + rewrite (load_session_mismatch_run _ _ _ _ _ Hs Hm) in Hrun. by simplify_eq.
    + assert (ip = ip_address s0 ∧ ua = user_agent s0) as [-> ->].
      { unfold binding_mismatch in Hm. split; apply dec_stable; naive_solver. }
      rewrite (load_session_match_run _ _ _ Hs) in Hrun.
      destruct (string_gt _ _) eqn:Hgt; simplify_eq. by rewrite Hgt.
  - revert Hrun. unfold load_session. run. rewrite Hs. intros Hrun.
    by rewrite (load_session_from_db_fresh _ _ _ _ _ _ Hrun Hex).
Qed.

End present.

Lemma six_sql_find_by_readonly_run table column value w :
  ∃ user w', six_sql_find_by_readonly table column value w = (Ok user, w')
    ∧ same_visitor w w' ∧ same_cache w w' ∧ tables w' = tables w
    ∧ (user ≠ ∅ → ∃ rows, tables w !! table = Some rows
                          ∧ select_first column (c_str value) rows = Some user).
Proof.
  unfold six_sql_find_by_readonly. destruct (db_online w); cbn [negb].
  2:{ eexists _, _. split; [done|]. by split_and!. }
  destruct (tables w !! table) as [rows|].
  2:{ eexists _, _. split; [done|]. by split_and!. }
  eexists _, _. split; [done|]. split_and!; try done.
  intros Hne. exists rows. split; [done|]. by destruct (select_first _ _ _).
Qed.

Section load_from_request.
Context `{Primitives}.

(** X22.  [CurrentUser::load_from_request] never throws and leaves the
    response alone.  It authenticates the current user only when the cache
    then holds, under the id of the session cookie, a valid session of a
    user other than 0 that is bound to the address and the agent of the
    request, and the users table has a row for that user, which becomes the
    data of the current user.  Otherwise the current user has id 0 and no
    data. *)
Theorem load_from_request_sound req w :
  let sid := get_session_id_from_request req in
  let ip := get_client_ip_from_request req in
  let ua := get_user_agent_from_request req in
  ∃ w', CurrentUser_load_from_request req w = (Ok tt, w')
    ∧ g_current_response w' = g_current_response w
    ∧ CurrentUser.session_id (current_user w') = sid
    ∧ (CurrentUser.is_authenticated (current_user w') = false →
         CurrentUser.id (current_user w') = 0 ∧ CurrentUser.data (current_user w') = ∅)
    ∧ (CurrentUser.is_authenticated (current_user w') = true →
         ∃ s rows,
           session_cache w' !! sid = Some s
           ∧ ip_address s = ip ∧ user_agent s = ua
           ∧ is_valid s = true ∧ user_id s ≠ 0
           ∧ CurrentUser.id (current_user w') = user_id s
           ∧ tables w' !! "users" = Some rows
           ∧ select_first "id" (c_str (to_string (user_id s))) rows
             = Some (CurrentUser.data (current_user w'))
           ∧ CurrentUser.data (current_user w') ≠ ∅).
Proof.
  intros sid ip ua. unfold CurrentUser_load_from_request.
  erewrite bind_ok by reflexivity. cbn zeta. fold sid ip ua.
  erewrite bind_ok by reflexivity.
  case_bool_decide as Hsid.
  { eexists. split; [reflexivity|]. cbn. by split_and!. }
  erewrite bind_ok by reflexivity.
  set (w0 := set_current_user _ _).
  assert (Hu0 : CurrentUser.is_authenticated (current_user w0) = false
                ∧ CurrentUser.id (current_user w0) = 0
                ∧ CurrentUser.data (current_user w0) = ∅
                ∧ CurrentUser.session_id (current_user w0) = sid) by done.
  assert (Hr0 : g_current_response w0 = g_current_response w) by done.
  clearbody w0. destruct Hu0 as (Ha0 & Hi0 & Hd0 & Hs0).
  unfold try_catch.
  destruct (load_session sid ip ua w0) as [[s|e] w1] eqn:Hload.
  2:{ erewrite bind_throw by exact Hload.
      apply keeps_load_session in Hload as [Hu1 Hr1].
      eexists. split; [reflexivity|]. cbn. rewrite Hu1. split_and!; try done; congruence. }
  erewrite bind_ok by exact Hload.
  apply keeps_load_session in Hload as Hv1. destruct Hv1 as [Hu1 Hr1].
  destruct (negb (exists_ s) || negb (is_valid s) || bool_decide (user_id s = 0)) eqn:Hcond.
  { eexists. split; [reflexivity|]. rewrite Hu1. split_and!; try done; congruence. }
  apply orb_false_elim in Hcond as [Hcond Huid%bool_decide_eq_false].
  apply orb_false_elim in Hcond as [Hex%negb_false_iff Hvalid%negb_false_iff].
  destruct (load_session_present _ _ _ _ _ _ Hload Hex) as (Hcache & Hip & Hua).
  destruct (six_sql_find_by_readonly_run "users" "id" (to_string (user_id s)) w1)
    as (user & w2 & Hfind & [Hu2 Hr2] & Hs2 & Ht2 & Hrow).
  erewrite bind_ok by exact Hfind.
  case_bool_decide as Huser.
  { eexists. split; [reflexivity|]. rewrite Hu2, Hu1. split_and!; try done; congruence. }
  eexists. split; [reflexivity|]. cbn. rewrite Hu2, Hu1, Hd0, Hs0, (right_id_L ∅ (∪)).
  split; [congruence|]. split; [done|]. split; [done|]. intros _.
  destruct (Hrow Huser) as (rows & Hrows & Hsel).
  exists s, rows. unfold same_cache in Hs2. split_and!; try done; congruence.
Qed.

End load_from_request.

Section authenticates.
Context `{Primitives}.

(** X23.  The converse for a session in the cache: a request that carries
    its id in the session cookie and comes with the address and the agent
    the session is bound to is authenticated as the user of the session, as
    long as the session is valid and not expired, the user is not 0 and the
    users table has a row for the user; then [require_auth] answers true. *)
Theorem cached_session_authenticates req w s rows user :
  let sid := get_session_id_from_request req in
  sid ≠ EmptyString →
  session_cache w !! sid = Some s →
  get_client_ip_from_request req = ip_address s →
  get_user_agent_from_request req = user_agent s →
  ¬ expired_at w s →
  exists_ s = true → is_valid s = true → user_id s ≠ 0 →
  db_online w = true → tables w !! "users" = Some rows →
  select_first "id" (c_str (to_string (user_id s))) rows = Some user → user ≠ ∅ →
  ∃ w', CurrentUser_load_from_request req w = (Ok tt, w')
    ∧ current_user w' =
        {| CurrentUser.is_authenticated := true; CurrentUser.id := user_id s;
           CurrentUser.data := user; CurrentUser.session_id := sid;
           CurrentUser.ip_address := ip_address s; CurrentUser.user_agent := user_agent s;
           CurrentUser.refresh_token := get_refresh_token_from_request req |}
    ∧ session_cache w' = session_cache w
    ∧ require_auth w' = (Ok true, w').
Proof.
  intros sid Hsid Hcache Hip Hua Hfresh Hex Hvalid Huid Hon Hrows Hsel Huser.
  unfold CurrentUser_load_from_request.
  erewrite bind_ok by reflexivity. cbn zeta. fold sid.
  erewrite bind_ok by reflexivity.
  rewrite bool_decide_false by done.
  erewrite bind_ok by reflexivity. rewrite Hip, Hua.
  set (w0 := set_current_user _ _).
  assert (Hload : load_session sid (ip_address s) (user_agent s) w0
                  = (Ok s, set_ticks (S (ticks w0)) w0)).
  { rewrite (load_session_match_run w0 sid s) by done.
    unfold expired_at in Hfresh. change (now_of w0) with (now_of w).
    by destruct (string_gt _ _). }
  unfold try_catch. erewrite bind_ok by exact Hload.
  rewrite Hex, Hvalid, bool_decide_false by done. cbn [negb orb].
  erewrite bind_ok.
  2:{ unfold six_sql_find_by_readonly. cbn [db_online tables set_ticks].
      change (db_online w0) with (db_online w). change (tables w0) with (tables w).
      rewrite Hon, Hrows, Hsel. reflexivity. }
  rewrite bool_decide_false by done.
  eexists. split; [reflexivity|]. cbn. rewrite (right_id_L ∅ (∪)).
  split; [done|]. split; [done|]. by rewrite require_auth_spec.
Qed.

End authenticates.

Section reauthentication.
Context `{Primitives}.

(** X24.  [require_reauthentication] does not look at the password: for an
    authenticated user it answers whether the users table has a row for the
    user, whatever password is given; for anybody else it answers false.  It
    never throws and stages nothing. *)
Theorem require_reauthentication_any_password password w :
  let u := current_user w in
  ∃ b w', require_reauthentication password w = (Ok b, w')
    ∧ same_visitor w w' ∧ pending_updates w' = pending_updates w ∧ tables w' = tables w
    ∧ (b = true ↔
       CurrentUser.is_authenticated u = true ∧ db_online w = true
       ∧ ∃ rows user, tables w !! "users" = Some rows
           ∧ select_first "id" (c_str (to_string (CurrentUser.id u))) rows = Some user
           ∧ user ≠ ∅).
Proof.
  intros u. unfold require_reauthentication. run. fold u.
  destruct (CurrentUser.is_authenticated u) eqn:Hauth; cbn [negb].
  2:{ eexists _, _. split; [reflexivity|]. split_and!; try done. split; [done|].
      by intros (? & _). }
  unfold six_sql_find_by_readonly.
  destruct (db_online w) eqn:Hon; cbn [negb].
  2:{ rewrite bool_decide_true by done.
      eexists _, _. split; [reflexivity|]. split_and!; try done. split; [done|].
      by intros (_ & ? & _). }
  destruct (tables w !! "users") as [rows|] eqn:Hrows.
  2:{ rewrite bool_decide_true by done.
      eexists _, _. split; [reflexivity|]. split_and!; try done. split; [done|].
      by intros (_ & _ & ? & ? & ? & _). }
  destruct (select_first "id" _ rows) as [user|] eqn:Hsel; cbn [default].
  - case_bool_decide as Huser.
    + eexists _, _. split; [reflexivity|]. split_and!; try done. split; [done|].
      intros (_ & _ & rows' & user' & ? & ? & ?). simplify_eq.
    + eexists _, _. split; [reflexivity|]. split_and!; try done. split; [|done].
      intros _. split_and!; try done. by exists rows, user.
  - rewrite bool_decide_true by done.
    eexists _, _. split; [reflexivity|]. split_and!; try done. split; [done|].
    intros (_ & _ & rows' & user' & ? & ? & ?). simplify_eq.
Qed.

End reauthentication.

(** ** six_login.h: refreshing, and revoking on a critical event *)

Section refresh_token.
Context `{Primitives}.

(** X25.  [refresh_session_token] for a request that carries both cookies,
    with a response at hand.  When [refresh_session] returns a session the
    answer is true, the response carries the cookie and the refresh token of
    the new session and the current user is moved to it.  When
    [refresh_session] throws the answer is false and the user is logged out:
    no current user is left, the session the current user had is out of the
    cache, and the response tells the browser to drop the cookie. *)
Theorem refresh_session_token_outcome req w :
  let sid := get_session_id_from_request req in
  let token := get_refresh_token_from_request req in
  let ip := get_client_ip_from_request req in
  let ua := get_user_agent_from_request req in
  let old := CurrentUser.session_id (current_user w) in
  is_Some (g_current_response w) →
  sid ≠ EmptyString → token ≠ EmptyString →
  (∀ s' w1, refresh_session sid token ip ua w = (Ok s', w1) →
     ∃ w', refresh_session_token (Some req) w = (Ok true, w')
       ∧ header w' "Set-Cookie" = Some (session_cookie (session_id s'))
       ∧ header w' "X-Refresh-Token" = Some (refresh_token s')
       ∧ CurrentUser.session_id (current_user w') = session_id s'
       ∧ CurrentUser.refresh_token (current_user w') = refresh_token s'
       ∧ CurrentUser.is_authenticated (current_user w')
         = CurrentUser.is_authenticated (current_user w)
       ∧ session_cache w' = session_cache w1)
  ∧ (∀ e w1, refresh_session sid token ip ua w = (Throw e, w1) →
     ∃ w', refresh_session_token (Some req) w = (Ok false, w')
       ∧ current_user w' = CurrentUser.initial
       ∧ header w' "Set-Cookie"
         = Some "session_id=; Path=/; Max-Age=0; HttpOnly; Secure; SameSite=Strict"
       ∧ session_cache w' =
           (if decide (old = EmptyString) then session_cache w1
            else delete old (session_cache w1))).
Proof.
  intros sid token ip ua old [resp Hresp] Hsid Htoken.
  unfold refresh_session_token. erewrite bind_ok by reflexivity. rewrite Hresp.
  cbn zeta. fold sid token ip ua. rewrite !bool_decide_false by done. cbn [orb].
  unfold try_catch. split.
  - intros s' w1 Hrun. erewrite bind_ok by exact Hrun.
    apply keeps_refresh_session in Hrun as [Hu1 Hr1].
    destruct (set_header_run "Set-Cookie" (session_cookie (session_id s')) w1)
      as (w2 & Hrun2 & Hsame2 & _ & Hsome2 & Hh2).
    unfold session_cookie in Hrun2. erewrite bind_ok by exact Hrun2.
    destruct (set_header_run "X-Refresh-Token" (refresh_token s') w2)
      as (w3 & Hrun3 & Hsame3 & _ & Hsome3 & Hh3).
    erewrite bind_ok by exact Hrun3.
    erewrite bind_ok by reflexivity.
    eexists. split; [reflexivity|].
    apply same_but_response_fields in Hsame2 as (_ & _ & _ & _ & _ & Hs2 & Hu2).
    apply same_but_response_fields in Hsame3 as (_ & _ & _ & _ & _ & Hs3 & Hu3).
    assert (H1 : is_Some (g_current_response w1)) by (by rewrite Hr1, Hresp).
    assert (H2 : is_Some (g_current_response w2)) by (by apply Hsome2).
    destruct H1 as [r1 H1], H2 as [r2 H2].
    unfold header in *. cbn. rewrite Hh3, Hh2, H1, Hh3, H2, Hu3, Hu2, Hu1.
    rewrite decide_False by done. rewrite !decide_True by done.
    split_and!; try done. congruence.
  - intros e w1 Hrun. erewrite bind_throw by exact Hrun.
    apply keeps_refresh_session in Hrun as [Hu1 Hr1].
    destruct (logout_user_run w1) as (w' & Hout & Hu' & Hcache' & Hheaders & _).
    erewrite bind_ok by exact Hout.
    eexists. split; [reflexivity|]. split; [done|].
    split; [apply Hheaders; by rewrite Hr1, Hresp|].
    rewrite Hcache', Hu1. done.
Qed.

(** X26.  [on_password_changed] and [on_account_compromised] never throw.
    After them the cache holds no session of the user; the sessions of other
    users are still there, the one of the current user apart when it is the
    user concerned, who is then logged out. *)
Theorem critical_event_revokes uid reason w :
  let u := current_user w in
  ∃ w', revoke_all_user_sessions_on_critical_event uid reason w = (Ok tt, w')
    ∧ (∀ id s, session_cache w' !! id = Some s →
               session_cache w !! id = Some s ∧ user_id s ≠ uid)
    ∧ (∀ id s, session_cache w !! id = Some s → user_id s ≠ uid →
               CurrentUser.id u = uid → id ≠ CurrentUser.session_id u →
               session_cache w' !! id = Some s)
    ∧ (CurrentUser.id u = uid → current_user w' = CurrentUser.initial)
    ∧ (CurrentUser.id u ≠ uid →
         current_user w' = u
         ∧ ∀ id s, session_cache w !! id = Some s → user_id s ≠ uid →
                   session_cache w' !! id = Some s)
    ∧ on_password_changed uid w
      = revoke_all_user_sessions_on_critical_event uid "Password changed" w
    ∧ on_account_compromised uid w
      = revoke_all_user_sessions_on_critical_event uid
          "Account compromised - security alert triggered" w.
Proof.
  intros u. unfold revoke_all_user_sessions_on_critical_event.
  destruct (revoke_all_user_sessions_run uid reason w) as (w1 & Hrevoke & Hcache1).
  apply keeps_revoke_all_user_sessions in Hrevoke as Hv1. destruct Hv1 as [Hu1 Hr1].
  unfold try_catch. erewrite bind_ok by exact Hrevoke. erewrite bind_ok by reflexivity.
  rewrite Hu1. fold u.
  assert (Hfilter : ∀ id s, session_cache w1 !! id = Some s
                            ↔ session_cache w !! id = Some s ∧ user_id s ≠ uid).
  { intros id s. rewrite Hcache1. apply map_lookup_filter_Some. }
  case_bool_decide as Hid.
  - destruct (logout_user_run w1) as (w' & Hout & Hu' & Hcache' & _).
    rewrite Hout. exists w'. split; [done|]. rewrite Hu1 in Hcache'. fold u in Hcache'.
    split_and!; try done.
    + intros id s. rewrite Hcache'. case_decide.
      * apply Hfilter.
      * intros [_ Hs]%lookup_delete_Some. by apply Hfilter.
    + intros id s Hs Hne _ Hid'. rewrite Hcache'. case_decide.
      * by apply Hfilter.
      * rewrite lookup_delete_ne by done. by apply Hfilter.
  - exists w1. split; [done|]. split_and!; try done.
    + intros id s. apply Hfilter.
    + split; [done|]. intros id s Hs Hne. by apply Hfilter.
Qed.

End refresh_token.

(** ** The properties on the visit *)

Module Visits.
Import Reference Scenario Visit RateLimiter.

#[local] Existing Instance primitives.

Ltac by_computation := apply (bool_decide_unpack _); vm_compute; exact I.

Lemma found_ann :
  ∃ sr, pending_updates found.2 !! ann_key = Some sr ∧ columns sr = ann.
Proof. eexists. split; vm_compute; reflexivity. Qed.

(** Both cookies are read out of the header of the request, whatever
    stands before and between them. *)
Lemma cookies_read_back_witness :
  get_session_id_from_request (request cookies) = sid
  ∧ get_refresh_token_from_request (request cookies) = refresh.
Proof.
  destruct (cookies_read_back (request cookies) cookies) as [Hid Htoken]; [reflexivity|].
  split.
  - apply (Hid "lang=en; " sid ("; refresh_token=" +:+ refresh)).
    + vm_compute. reflexivity.
    + intros i Hi. do 9 (destruct i as [|i]; [vm_compute; discriminate|]).
      cbn in Hi. lia.
    + unfold has_char. apply (bool_decide_unpack (¬ _)). vm_compute. exact I.
    + right. eexists. vm_compute. reflexivity.
  - apply (Htoken ("lang=en; session_id=" +:+ sid +:+ "; ") refresh EmptyString).
    + vm_compute. reflexivity.
    + intros i Hi. do 86 (destruct i as [|i]; [vm_compute; discriminate|]).
      change (String.length _) with 86%nat in Hi. lia.
    + unfold has_char. apply (bool_decide_unpack (¬ _)). vm_compute. exact I.
    + by left.
Defined.

Lemma login_run :
  create_session 42 "10.0.0.1" "A" fresh_world = (Ok session, logged_in).
Proof.
  assert (Hres : login.1 = Ok session) by (vm_compute; reflexivity).
  change (login = (Ok session, login.2)).
  destruct login as [r w']. cbn [fst snd] in *. by subst r.
Qed.

(** Looking ann up and committing at once leaves the users table alone. *)
Lemma six_sql_commit_unchanged_witness :
  ∃ row w1 w2,
    six_sql_find_by "users" "username" "ann" site = (Ok row, w1)
    ∧ six_sql_commit w1 = (Ok tt, w2)
    ∧ tables w2 = tables site.
Proof.
  destruct (six_sql_commit_unchanged "users" "username" "ann" site)
    as (row & w1 & w2 & Hfind & Hcommit & _ & Htables & _).
  - vm_compute. reflexivity.
  - exists row, w1, w2. split; [exact Hfind|]. split; [exact Hcommit|exact Htables].
Defined.

(** Failures from 10.0.0.1 are not counted against 10.0.0.2. *)
Lemma failed_attempts_per_address_witness :
  entry_of "10.0.0.2" (fail_n "10.0.0.1" 5 logged_in) = entry_of "10.0.0.2" logged_in.
Proof. apply (failed_attempts_per_address "10.0.0.1" "10.0.0.2" 5 logged_in). discriminate. Defined.

(** The session of the login is loaded from the cache by its owner. *)
Lemma create_session_then_load_witness :
  session_cache logged_in !! session_id session = Some session
  ∧ load_session (session_id session) "10.0.0.1" "A" logged_in
    = (Ok session, set_ticks (S (ticks logged_in)) logged_in).
Proof.
  apply (create_session_then_load 42 "10.0.0.1" "A" fresh_world session logged_in).
  - exact login_run.
  - vm_compute. discriminate.
Defined.

(** After five failures no session is made for 10.0.0.1. *)
Lemma create_session_refused_witness :
  ∃ w', create_session 42 "10.0.0.1" "A" (fail_n "10.0.0.1" 5 fresh_world)
        = (Throw "Too many login attempts. Try again later.", w')
    ∧ session_cache w' = ∅.
Proof.
  destruct (create_session_refused 42 "10.0.0.1" "A" (fail_n "10.0.0.1" 5 fresh_world))
    as (w' & Hrun & Hcache & _).
  - vm_compute. discriminate.
  - exists w'. split; [exact Hrun|]. rewrite Hcache. vm_compute. reflexivity.
Defined.

(** The login leaves 10.0.0.1 with no failure on its count. *)
Lemma create_session_resets_limiter_witness :
  attempts (entry_of "10.0.0.1" logged_in) = 0
  ∧ ∃ w2, is_rate_limited "10.0.0.1" logged_in = (Ok false, w2).
Proof.
  apply (create_session_resets_limiter 42 "10.0.0.1" "A" fresh_world session logged_in).
  exact login_run.
Defined.

(** The identifiers of the session of the login. *)
Lemma create_session_ids_witness :
  String.length (session_id session) = 64%nat
  ∧ Hex.decode (session_id session) = ascii_of_nat <$> seq 0 32
  ∧ Hex.decode (refresh_token session) = ascii_of_nat <$> seq 48 32.
Proof.
  destruct (create_session_ids 42 "10.0.0.1" "A" fresh_world session logged_in)
    as ([Hlen _] & _ & _ & _ & Hid & Htoken & _).
  - exact login_run.
  - split; [exact Hlen|]. split; [exact Hid|exact Htoken].
Defined.

(** Saving the session of the login writes its row. *)
Lemma save_session_persists_witness :
  ∃ w' rows' r',
    save_session session logged_in = (Ok tt, w')
    ∧ tables w' !! "sessions" = Some rows'
    ∧ select_first "session_id_hash" (c_str (session_id_hash session)) rows' = Some r'
    ∧ default EmptyString (r' !! "is_valid") = "1".
Proof.
  destruct (save_session_persists session logged_in stored stored_row)
    as (w' & rows' & r' & Hrun & _ & _ & Hrows & Hrow & _ & Hvalid & _).
  - by_computation.
  - by_computation.
  - by_computation.
  - by_computation.
  - exists w', rows', r'. split; [exact Hrun|]. split; [exact Hrows|].
    split; [exact Hrow|exact Hvalid].
Defined.

(** Logging out marks the row of the session. *)
Lemma destroy_session_invalidates_witness :
  ∃ w' rows' r',
    destroy_session sid logged_in = (Ok tt, w')
    ∧ session_cache w' = delete sid (session_cache logged_in)
    ∧ tables w' !! "sessions" = Some rows'
    ∧ select_first "session_id_hash" (c_str (session_id_hash session)) rows' = Some r'
    ∧ r' !! "is_valid" = Some "0".
Proof.
  destruct (destroy_session_invalidates sid session logged_in stored stored_row)
    as (w' & rows' & r' & Hrun & Hcache & _ & Hrows & Hrow & Hvalid & _).
  - exact Examples.logged_in_session.
  - by_computation.
  - by_computation.
  - by_computation.
  - by_computation.
  - exists w', rows', r'. split; [exact Hrun|]. split; [exact Hcache|].
    split; [exact Hrows|]. split; [exact Hrow|exact Hvalid].
Defined.

(** Not even the refresh token of the login is accepted for its session. *)
Lemma refresh_session_rejects_witness :
  ∃ e w', refresh_session sid refresh "10.0.0.1" "A" logged_in = (Throw e, w').
Proof.
  destruct (refresh_session_rejects logged_in sid "10.0.0.1" "A" session
              (load_session sid "10.0.0.1" "A" logged_in).2
              Examples.reference_salt_sensitive Examples.refresh_load) with (token := refresh)
    as (e & w' & Hrun & _).
  - exists refresh, (ascii_of_nat <$> seq 80 16). split; [reflexivity|].
    split; [vm_compute; discriminate|]. vm_compute. reflexivity.
  - exists e, w'. exact Hrun.
Defined.

(** A short payload is one block, 32 hexadecimal digits. *)
Lemma encrypt_session_data_length_witness :
  String.length (SessionEncryption.encrypt_session_data "cart=3") = 32%nat
  ∧ hex_text (SessionEncryption.encrypt_session_data "cart=3").
Proof.
  destruct (encrypt_session_data_length (H := primitives) "cart=3"
              Examples.xor_cipher_is_block)
    as [Hlen Hhex].
  split; [exact Hlen|exact Hhex].
Defined.

Lemma visit_login :
  ∃ s, create_session 42 (get_client_ip_from_request (request "lang=en"))
         (get_user_agent_from_request (request "lang=en")) found.2
       = (Ok s, (create_session 42 (get_client_ip_from_request (request "lang=en"))
                   (get_user_agent_from_request (request "lang=en")) found.2).2)
     ∧ session_id s = sid.
Proof.
  assert (Hres : ∃ s, (create_session 42 (get_client_ip_from_request (request "lang=en"))
                         (get_user_agent_from_request (request "lang=en")) found.2).1 = Ok s
                      ∧ session_id s = sid)
    by (eexists; split; vm_compute; reflexivity).
  destruct Hres as (s & Hres & Hsid). exists s. split; [|done].
  destruct (create_session _ _ _ _) as [r w']. cbn [fst snd] in *. by subst r.
Qed.

(** ann logs in. *)
Lemma login_user_success_witness :
  ∃ w', login_user (Some (request "lang=en")) (Some ann_key) found.2 = (Ok tt, w')
    ∧ CurrentUser.is_authenticated (current_user w') = true
    ∧ CurrentUser.id (current_user w') = 42
    ∧ header w' "Set-Cookie" = Some (session_cookie sid)
    ∧ require_auth w' = (Ok true, w').
Proof.
  destruct found_ann as (sr & Hrow & Hcols).
  destruct visit_login as (s & Hcreate & Hsid).
  destruct (login_user_success (request "lang=en") ann_key sr "42" "ann" 42 s found.2
              (create_session 42 (get_client_ip_from_request (request "lang=en"))
                 (get_user_agent_from_request (request "lang=en")) found.2).2)
    as (w' & Hrun & Huser & Hcookie & _ & _ & _ & _ & Hauth & _).
  - eexists. vm_compute. reflexivity.
  - exact Hrow.
  - rewrite Hcols. vm_compute. reflexivity.
  - rewrite Hcols. vm_compute. reflexivity.
  - reflexivity.
  - exact Hcreate.
  - exists w'. split; [exact Hrun|]. rewrite Huser, Hcookie, Hsid.
    split; [reflexivity|]. split; [reflexivity|]. split; [reflexivity|exact Hauth].
Defined.

(** The next request of ann carries the cookie and is authenticated. *)
Lemma cached_session_authenticates_witness :
  ∃ w', CurrentUser_load_from_request (request cookies) (next signed_in) = (Ok tt, w')
    ∧ CurrentUser.is_authenticated (current_user w') = true
    ∧ CurrentUser.data (current_user w') = ann
    ∧ require_auth w' = (Ok true, w').
Proof.
  destruct (cached_session_authenticates (request cookies) (next signed_in)
              session_of_ann [ann] ann)
    as (w' & Hrun & Huser & _ & Hauth).
  - vm_compute. discriminate.
  - vm_compute. reflexivity.
  - vm_compute. reflexivity.
  - vm_compute. reflexivity.
  - vm_compute. discriminate.
  - vm_compute. reflexivity.
  - vm_compute. reflexivity.
  - vm_compute. discriminate.
  - vm_compute. reflexivity.
  - vm_compute. reflexivity.
  - vm_compute. reflexivity.
  - vm_compute. discriminate.
  - exists w'. split; [exact Hrun|]. rewrite Huser.
    split; [reflexivity|]. split; [reflexivity|exact Hauth].
Defined.

(** ann asks for a new session with the right refresh token and is logged
    out. *)
Lemma refresh_session_token_outcome_witness :
  ∃ w', refresh_session_token (Some (request cookies)) (next signed_in) = (Ok false, w')
    ∧ current_user w' = CurrentUser.initial.
Proof.
  destruct (refresh_session_token_outcome (request cookies) (next signed_in)) as [_ Hthrow].
  - eexists. vm_compute. reflexivity.
  - vm_compute. discriminate.
  - vm_compute. discriminate.
  - assert (Hres : ∃ e, (refresh_session (get_session_id_from_request (request cookies))
                           (get_refresh_token_from_request (request cookies))
                           (get_client_ip_from_request (request cookies))
                           (get_user_agent_from_request (request cookies))
                           (next signed_in)).1 = Throw e)
      by (eexists; vm_compute; reflexivity).
    destruct Hres as (e & Hres).
    destruct (refresh_session _ _ _ _ _) as [r w1] eqn:Hrefresh.
    cbn [fst] in Hres. subst r.
    destruct (Hthrow e w1 eq_refl) as (w' & Hrun & Huser & _).
    exists w'. split; [exact Hrun|exact Huser].
Defined.

(** The session of the login goes to its owner only. *)
Lemma load_session_bound_witness :
  ip_address session = "10.0.0.1" ∧ user_agent session = "A"
  ∧ session_cache (load_session sid "10.0.0.1" "A" logged_in).2 !! sid = Some session
  ∧ ¬ expired_at logged_in session.
Proof.
  apply (load_session_bound sid "10.0.0.1" "A" logged_in session _ Examples.refresh_load).
  reflexivity.
Defined.

(** The encrypted data of a new session has 32 characters and decrypts to
    at most 16 bytes. *)
Lemma decrypt_session_data_bound_witness :
  String.length (SessionEncryption.encrypt_session_data "{}") = 32%nat
  ∧ (String.length
       (SessionEncryption.decrypt_session_data
          (SessionEncryption.encrypt_session_data "{}"))
     ≤ String.length (SessionEncryption.encrypt_session_data "{}") / 2)%nat.
Proof.
  split; [vm_compute; reflexivity|].
  apply (decrypt_session_data_bound (H := primitives)
           (SessionEncryption.encrypt_session_data "{}")).
  vm_compute. reflexivity.
Defined.

End Visits.
